(** * mcp-cloudflare: DNS detection, replication, migration and the zone-file codec

    A shallow embedding of [src/api.ts] (the [CloudflareApi] object together
    with its helpers [getDnsTypeNumber] and [parseZoneFile]), of the
    record shapes and schemas of [src/types.ts], and of tool handlers of
    [src/index.ts].

    The operations are modelled twice.  The first model takes a request
    to the provider, with the validation of its answer, as one step of
    the outside world; detection, replication, migration, the zone files
    and their handlers are stated over it.  The second carries the record
    and zone operations down to [fetch] and the schemas.

    - JavaScript strings are lists of code units; the embedding covers the
      code units 0..255, which is where DNS names and zone files live.
    - JavaScript numbers are [NaN] or an integer (the safe-integer range of
      a double, where arithmetic and printing are exact).
    - An [async] function is a function of the outside world (the public
      resolver and the provider's REST API) that returns or throws and
      leaves the world in a new state.  [console] output is not modelled. *)

From Stdlib Require Import String Ascii Bool ZArith Lia List.
Import ListNotations.

Set Implicit Arguments.
Local Open Scope Z_scope.

(* ================================================================= *)
(** ** JavaScript strings and numbers *)

Module Js.

Definition jsstring : Type := list ascii.

(** A string literal of the source. *)
Definition lit (s : string) : jsstring := list_ascii_of_string s.
Arguments lit s%_string_scope.

(** [s.charCodeAt(i)] and [String.fromCharCode(n)] *)
Definition code (c : ascii) : Z := Z.of_N (N_of_ascii c).

Definition chr (n : Z) : ascii := ascii_of_N (Z.to_N n).

(** [a === b] on strings *)
Definition str_eqb (a b : jsstring) : bool :=
  if list_eq_dec ascii_dec a b then true else false.

(** [WhiteSpace] and [LineTerminator] of ECMAScript below U+0100: TAB, LF,
    VT, FF, CR, SP and NBSP.  This is the class [\s] of a regular
    expression, and what [trim] and [parseInt] strip. *)
Definition is_ws (c : ascii) : bool :=
  let n := code c in
  ((9 <=? n) && (n <=? 13)) || (n =? 32) || (n =? 160).

(** [String.prototype.trimStart] and [String.prototype.trimEnd] *)
Fixpoint trimStart (s : jsstring) : jsstring :=
  match s with
  | [] => []
  | c :: t => if is_ws c then trimStart t else s
  end.

Fixpoint trimEnd (s : jsstring) : jsstring :=
  match s with
  | [] => []
  | c :: t =>
      match trimEnd t with
      | [] => if is_ws c then [] else [c]
      | t' => c :: t'
      end
  end.

(** [String.prototype.trim] *)
Definition trim (s : jsstring) : jsstring := trimEnd (trimStart s).

(** [String.prototype.startsWith] *)
Fixpoint startsWith (s p : jsstring) {struct p} : bool :=
  match p, s with
  | [], _ => true
  | _ :: _, [] => false
  | a :: p', b :: s' => Ascii.eqb a b && startsWith s' p'
  end.

(** [String.prototype.endsWith] *)
Definition endsWith (s p : jsstring) : bool := startsWith (rev s) (rev p).

(** [String.prototype.includes] *)
Fixpoint includes (s p : jsstring) : bool :=
  startsWith s p || match s with [] => false | _ :: t => includes t p end.

(** [Array.prototype.includes] on an array of strings *)
Definition arr_includes (l : list jsstring) (x : jsstring) : bool :=
  existsb (str_eqb x) l.

(** [s.split(sep)] for a separator of one code unit *)
Fixpoint split (sep : ascii) (s : jsstring) : list jsstring :=
  match s with
  | [] => [[]]
  | c :: t =>
      if Ascii.eqb c sep then [] :: split sep t
      else match split sep t with
           | tok :: rest => (c :: tok) :: rest
           | [] => [[c]]
           end
  end.

(** [s.split(/\s+/)]: [in_sep] says that the scan is inside a run of
    whitespace, whose token boundary has been emitted already. *)
Fixpoint split_ws_from (in_sep : bool) (s : jsstring) : list jsstring :=
  match s with
  | [] => [[]]
  | c :: t =>
      if is_ws c then
        if in_sep then split_ws_from true t else [] :: split_ws_from true t
      else match split_ws_from false t with
           | tok :: rest => (c :: tok) :: rest
           | [] => [[c]]
           end
  end.

Definition split_ws (s : jsstring) : list jsstring := split_ws_from false s.

(** [Array.prototype.join] *)
Fixpoint join (sep : jsstring) (l : list jsstring) : jsstring :=
  match l with
  | [] => []
  | [x] => x
  | x :: rest => x ++ sep ++ join sep rest
  end.

(** [s.replace(pattern, replacement)] with a string pattern: the first
    occurrence only. *)
Fixpoint replace (s pattern replacement : jsstring) : jsstring :=
  if startsWith s pattern then replacement ++ skipn (length pattern) s
  else match s with
       | [] => []
       | c :: t => c :: replace t pattern replacement
       end.

(** [s.replace(/\.$/, "")] *)
Fixpoint replace_final_dot (s : jsstring) : jsstring :=
  match s with
  | [] => []
  | [c] => if Ascii.eqb c "."%char then [] else [c]
  | c :: t => c :: replace_final_dot t
  end.

(** [s.slice(0, -1)] *)
Definition slice_0_m1 (s : jsstring) : jsstring := removelast s.

(** [String.prototype.toLowerCase] below U+0100: A-Z, and the Latin-1
    capitals U+00C0..U+00DE without the multiplication sign U+00D7. *)
Definition lower_char (c : ascii) : ascii :=
  let n := code c in
  if ((65 <=? n) && (n <=? 90))
     || ((192 <=? n) && (n <=? 222) && negb (n =? 215))
  then chr (n + 32) else c.

Definition toLowerCase (s : jsstring) : jsstring := map lower_char s.

(** *** Numbers *)

Inductive number : Type :=
  | NaN
  | Num (z : Z).

(** [ToBoolean] of a number *)
Definition truthy (n : number) : bool :=
  match n with
  | NaN => false
  | Num z => negb (z =? 0)
  end.

(** [a || b] on numbers *)
Definition num_or (a b : number) : number := if truthy a then a else b.

(** [a || b] where [a] may be [undefined] *)
Definition opt_num_or (a : option number) (b : number) : number :=
  match a with
  | Some n => num_or n b
  | None => b
  end.

(** The value of a code unit as a digit of the given radix: 0-9, then
    a-z or A-Z from ten on. *)
Definition digit_val (radix : Z) (c : ascii) : option Z :=
  let n := code c in
  let v := if (48 <=? n) && (n <=? 57) then Some (n - 48)
           else if (97 <=? n) && (n <=? 122) then Some (n - 87)
           else if (65 <=? n) && (n <=? 90) then Some (n - 55)
           else None in
  match v with
  | Some d => if d <? radix then Some d else None
  | None => None
  end.

(** The longest prefix of radix digits, as digit values. *)
Fixpoint digits_prefix (radix : Z) (s : jsstring) : list Z :=
  match s with
  | [] => []
  | c :: t =>
      match digit_val radix c with
      | Some d => d :: digits_prefix radix t
      | None => []
      end
  end.

Definition mathInt (radix : Z) (ds : list Z) : Z :=
  fold_left (fun a d => a * radix + d) ds 0.

(** The end of [parseInt], once whitespace and sign are gone: a [0x]
    prefix selects radix 16, and the number is the value of the longest
    run of digits of the radix, [NaN] when that run is empty. *)
Definition parse_unsigned (sign : Z) (s1 : jsstring) : number :=
  let hex := startsWith s1 (lit "0x") || startsWith s1 (lit "0X") in
  let radix := if hex then 16 else 10 in
  let s2 := if hex then skipn 2 s1 else s1 in
  match digits_prefix radix s2 with
  | [] => NaN
  | ds => Num (sign * mathInt radix ds)
  end.

(** [parseInt(s)] with no radix argument (ECMAScript 19.2.5): leading
    whitespace is skipped, a sign is read, and the rest is parsed as
    above. *)
Definition parseInt (s : jsstring) : number :=
  let s0 := trimStart s in
  let sign := if startsWith s0 (lit "-") then -1 else 1 in
  let s1 :=
    if startsWith s0 (lit "-") || startsWith s0 (lit "+")
    then skipn 1 s0 else s0 in
  parse_unsigned sign s1.

(** [parseInt(x)] where [x] may be [undefined]: [ToString(undefined)]. *)
Definition parseInt_opt (x : option jsstring) : number :=
  match x with
  | Some s => parseInt s
  | None => parseInt (lit "undefined")
  end.

(** The decimal digits of [n] put before [acc], at most [fuel] of them. *)
Fixpoint digits_fuel (fuel : nat) (n : Z) (acc : jsstring) : jsstring :=
  match fuel with
  | O => acc
  | S f =>
      let acc' := chr (48 + n mod 10) :: acc in
      if n <? 10 then acc' else digits_fuel f (n / 10) acc'
  end.

(** Decimal digits of a natural number; [Z.log2 n + 1] bounds their count. *)
Definition nat_toString (n : Z) : jsstring :=
  digits_fuel (S (Z.to_nat (Z.log2 n))) n [].

(** [String(n)], as a template literal interpolates a number. *)
Definition toString (n : number) : jsstring :=
  match n with
  | NaN => lit "NaN"
  | Num z => if z <? 0 then "-"%char :: nat_toString (- z) else nat_toString z
  end.

End Js.
Import Js.

(** Literals that need a control character. *)
Definition TAB : jsstring := ["009"%char].
Definition LF : ascii := "010"%char.

(** [a || b] on strings, where [a] may be [undefined] *)
Definition str_or (a : option jsstring) (b : jsstring) : jsstring :=
  match a with
  | Some ((_ :: _) as s) => s
  | _ => b
  end.

(* ================================================================= *)
(** ** Record shapes ([src/types.ts]) *)

Module DnsRecordType.
Inductive t : Type := A | AAAA | CNAME | MX | TXT | NS | SRV | CAA | PTR.

Definition toString (ty : t) : jsstring :=
  match ty with
  | A => lit "A" | AAAA => lit "AAAA" | CNAME => lit "CNAME"
  | MX => lit "MX" | TXT => lit "TXT" | NS => lit "NS"
  | SRV => lit "SRV" | CAA => lit "CAA" | PTR => lit "PTR"
  end.

Definition all : list t := [A; AAAA; CNAME; MX; TXT; NS; SRV; CAA; PTR].

(** The member of the enumeration that a string spells, if any. *)
Definition of_string (s : jsstring) : option t :=
  find (fun ty => str_eqb (toString ty) s) all.

Definition eqb (a b : t) : bool := str_eqb (toString a) (toString b).
End DnsRecordType.

(** [CloudflareDnsRecord]; the optional [meta] object is left out. *)
Module DnsRecord.
Record t : Type := mk {
  id : jsstring;
  zone_id : option jsstring;
  zone_name : option jsstring;
  name : jsstring;
  type : DnsRecordType.t;
  content : jsstring;
  proxied : option bool;
  ttl : number;
  priority : option number;
  created_on : jsstring;
  modified_on : jsstring
}.
End DnsRecord.

(** [DnsRecordImport]: the descriptor that detection produces and import
    consumes. *)
Module DnsRecordImport.
Record t : Type := mk {
  type : DnsRecordType.t;
  name : jsstring;
  content : jsstring;
  ttl : option number;
  priority : option number;
  proxied : option bool
}.
End DnsRecordImport.

(** [CreateDnsRecordRequest], as inferred: [ttl] has a default. *)
Module CreateDnsRecord.
Record t : Type := mk {
  type : DnsRecordType.t;
  name : jsstring;
  content : jsstring;
  ttl : number;
  priority : option number;
  proxied : option bool
}.
End CreateDnsRecord.

Module ZoneStatus.
Inductive t : Type :=
  active | pending | initializing | moved | deleted | deactivated.

Definition toString (s : t) : jsstring :=
  match s with
  | active => lit "active" | pending => lit "pending"
  | initializing => lit "initializing" | moved => lit "moved"
  | deleted => lit "deleted" | deactivated => lit "deactivated"
  end.

Definition is_active (s : t) : bool :=
  match s with active => true | _ => false end.
End ZoneStatus.

Module ZoneType.
Inductive t : Type := full | partial.
End ZoneType.

(** [CloudflareZone]; of its optional members only
    [original_name_servers] is kept. *)
Module Zone.
Record t : Type := mk {
  id : jsstring;
  name : jsstring;
  status : ZoneStatus.t;
  paused : bool;
  type : ZoneType.t;
  name_servers : list jsstring;
  original_name_servers : option (list jsstring);
  modified_on : jsstring;
  created_on : jsstring
}.
End Zone.

(** The argument of [createZone] before [CreateZoneRequest.parse] has
    looked at it: [type] is whatever string the caller passed. *)
Module CreateZone.
Record t : Type := mk {
  name : jsstring;
  type : jsstring;
  jump_start : bool
}.
End CreateZone.

(** An answer of the public resolver and the JSON document around it:
    [{Status, Answer?: [{type, data, TTL?}]}]. *)
Module DnsAnswer.
Record t : Type := mk {
  type : Z;
  data : jsstring;
  TTL : option Z
}.
End DnsAnswer.

Module DnsJson.
Record t : Type := mk {
  Status : Z;
  Answer : option (list DnsAnswer.t)
}.
End DnsJson.

Module ReplicationResult.
Record t : Type := mk {
  detected : list DnsRecordImport.t;
  replicated : list DnsRecord.t;
  errors : list jsstring
}.
End ReplicationResult.

(** The [zone] member of a migration result: a zone, or the empty object
    that [{} as Zone] puts there. *)
Inductive zone_value : Type :=
| EmptyObject
| ZoneObject (z : Zone.t).

Module MigrationResult.
Record t : Type := mk {
  zone : zone_value;
  detected : list DnsRecordImport.t;
  replicated : list DnsRecord.t;
  errors : list jsstring;
  nextSteps : list jsstring
}.
End MigrationResult.

(** What [importZoneFile] returns. *)
Module ZoneFileImport.
Record t : Type := mk {
  imported : list DnsRecord.t;
  errors : list jsstring
}.
End ZoneFileImport.

Module ValidationResult.
Record t : Type := mk {
  valid : bool;
  issues : list jsstring
}.
End ValidationResult.

(* ================================================================= *)
(** ** Exceptions and asynchronous calls *)

(** What a [catch] clause receives: an [Error] with its message, or some
    other thrown value. *)
Inductive exn : Type :=
| JsError (message : jsstring)
| JsValue.

(** [error instanceof Error ? error.message : "Unknown error"] *)
Definition error_message (e : exn) : jsstring :=
  match e with
  | JsError m => m
  | JsValue => lit "Unknown error"
  end.

Inductive outcome (T : Type) : Type :=
| Return (v : T)
| Throw (e : exn).
Arguments Throw {T} e.

Definition Async (W T : Type) : Type := W -> outcome T * W.

Section Monad.
Context {W : Type}.

Definition ret {T} (v : T) : Async W T := fun w => (Return v, w).

Definition throw {T} (e : exn) : Async W T := fun w => (Throw e, w).

Definition lift {T} (o : outcome T) : Async W T := fun w => (o, w).

Definition bind {T U} (m : Async W T) (k : T -> Async W U) : Async W U :=
  fun w =>
    match m w with
    | (Return v, w') => k v w'
    | (Throw e, w') => (Throw e, w')
    end.

(** [try { m } catch (error) { handler }] *)
Definition try_catch {T} (m : Async W T) (handler : exn -> Async W T)
  : Async W T :=
  fun w =>
    match m w with
    | (Return v, w') => (Return v, w')
    | (Throw e, w') => handler e w'
    end.
End Monad.

Notation "x <- m ;; k" := (bind m (fun x => k))
  (at level 61, m at next level, right associativity).

(** [xs.map(f)] where [f] may throw: the first failure is the result. *)
Fixpoint map_outcome {T U} (f : T -> outcome U) (xs : list T)
  : outcome (list U) :=
  match xs with
  | [] => Return []
  | x :: rest =>
      match f x with
      | Throw e => Throw e
      | Return y =>
          match map_outcome f rest with
          | Throw e => Throw e
          | Return ys => Return (y :: ys)
          end
      end
  end.

(* ================================================================= *)
(** ** The outside world *)

(** [cloudflareConfig]: written by [configure] before any operation and
    only read afterwards. *)
Module Config.
Record t : Type := mk {
  apiToken : jsstring;
  zoneId : jsstring
}.
End Config.

(** What [api.ts] reaches but does not define.

    - [fetch_json url] is [fetch(url)] followed by [response.json()] on
      the public resolver.
    - The [*_parse] members are the zod schemas of [types.ts]: each
      returns the validated value or throws.
    - The [rest_*] members are one request to the provider each: [fetch]
      on the URL that [api] built, the [response.ok] test, the decoding of
      the response envelope and the unwrapping of its [result], any of
      which may throw.  What is stated over this record holds for every
      such world; with the schemas as [types.ts] has them the two zone
      members always throw, which the second model shows. *)
Record Env (W : Type) : Type := {
  cloudflareConfig : Config.t;
  fetch_json : jsstring -> Async W DnsJson.t;
  DnsRecordImport_parse : DnsRecordImport.t -> outcome DnsRecordImport.t;
  CreateDnsRecordRequest_parse :
    CreateDnsRecord.t -> outcome CreateDnsRecord.t;
  CreateZoneRequest_parse : CreateZone.t -> outcome CreateZone.t;
  rest_get_dns_records : jsstring -> Async W (list DnsRecord.t);
  rest_post_dns_record : jsstring -> CreateDnsRecord.t -> Async W DnsRecord.t;
  rest_get_zone : jsstring -> Async W Zone.t;
  rest_post_zone : jsstring -> CreateZone.t -> Async W Zone.t
}.

(* ================================================================= *)
(** ** Helpers of [api.ts] *)

Definition typeMap : list (jsstring * Z) :=
  [ (lit "A", 1); (lit "AAAA", 28); (lit "CNAME", 5); (lit "MX", 15);
    (lit "TXT", 16); (lit "NS", 2); (lit "SRV", 33); (lit "CAA", 257) ].

(** [typeMap[type] || 1] *)
Definition getDnsTypeNumber (type : jsstring) : Z :=
  match find (fun kv => str_eqb (fst kv) type) typeMap with
  | Some (_, n) => if n =? 0 then 1 else n
  | None => 1
  end.

(** [`https://dns.google/resolve?name=${name}&type=${type}`] *)
Definition resolve_url (name type : jsstring) : jsstring :=
  lit "https://dns.google/resolve?name=" ++ name ++ lit "&type=" ++ type.

(** The state of the loop of [parseZoneFile]. *)
Record zone_parser : Type := {
  records : list CreateDnsRecord.t;
  defaultTtl : number;
  origin : jsstring
}.

Definition zoneFileTypes : list jsstring :=
  [ lit "A"; lit "AAAA"; lit "CNAME"; lit "MX";
    lit "TXT"; lit "NS"; lit "SRV"; lit "CAA" ].

(** [undefined.replace(...)], as V8 words it. *)
Definition undefined_replace : exn :=
  JsError (lit "Cannot read properties of undefined (reading 'replace')").

(** One iteration of [for (const line of lines)]. *)
Definition parse_line (st : zone_parser) (line : jsstring)
  : outcome zone_parser :=
  let trimmedLine := trim line in
  if startsWith trimmedLine (lit ";") || str_eqb trimmedLine [] then
    Return st
  else if startsWith trimmedLine (lit "$TTL") then
    Return {| records := records st;
              defaultTtl :=
                num_or (parseInt_opt (nth_error (split_ws trimmedLine) 1))
                       (Num 300);
              origin := origin st |}
  else if startsWith trimmedLine (lit "$ORIGIN") then
    match nth_error (split_ws trimmedLine) 1 with
    | None => Throw undefined_replace
    | Some o =>
        Return {| records := records st;
                  defaultTtl := defaultTtl st;
                  origin := replace_final_dot o |}
    end
  else
    let parts := split_ws trimmedLine in
    if (4 <=? length parts)%nat then
      let name :=
        if str_eqb (nth 0 parts []) (lit "@") then origin st
        else nth 0 parts [] in
      let ttl := num_or (parseInt (nth 1 parts [])) (defaultTtl st) in
      let recordType := nth 3 parts [] in
      let content := join (lit " ") (skipn 4 parts) in
      if arr_includes zoneFileTypes recordType then
        match DnsRecordType.of_string recordType with
        | Some ty =>
            let record :=
              {| CreateDnsRecord.type := ty;
                 CreateDnsRecord.name :=
                   if endsWith name (lit ".") then slice_0_m1 name else name;
                 CreateDnsRecord.content := content;
                 CreateDnsRecord.ttl := ttl;
                 CreateDnsRecord.priority :=
                   if str_eqb recordType (lit "MX")
                      && (5 <=? length parts)%nat
                   then Some (parseInt (nth 4 parts []))
                   else None;
                 CreateDnsRecord.proxied := Some false |} in
            Return {| records := records st ++ [record];
                      defaultTtl := defaultTtl st;
                      origin := origin st |}
        | None => Return st   (* no member of [zoneFileTypes] gets here *)
        end
      else Return st
    else Return st.

Fixpoint parse_lines (st : zone_parser) (lines : list jsstring)
  : outcome zone_parser :=
  match lines with
  | [] => Return st
  | line :: rest =>
      match parse_line st line with
      | Throw e => Throw e
      | Return st' => parse_lines st' rest
      end
  end.

Definition parseZoneFile (content : jsstring)
  : outcome (list CreateDnsRecord.t) :=
  let lines := split LF content in
  match parse_lines {| records := []; defaultTtl := Num 300; origin := [] |}
                    lines with
  | Throw e => Throw e
  | Return st => Return (records st)
  end.

(** The body of the loop of [exportZoneFile]: the line of one record. *)
Definition zone_file_line (zone_name : jsstring) (record : DnsRecord.t)
  : jsstring :=
  let name :=
    if str_eqb (DnsRecord.name record) zone_name then lit "@"
    else replace (DnsRecord.name record) (lit "." ++ zone_name) [] in
  let ttl := num_or (DnsRecord.ttl record) (Num 300) in
  let priority :=
    match DnsRecord.priority record with
    | Some p => if truthy p then toString p ++ lit " " else []
    | None => []
    end in
  let content := DnsRecord.content record in
  name ++ TAB ++ toString ttl ++ TAB ++ lit "IN" ++ TAB
       ++ DnsRecordType.toString (DnsRecord.type record) ++ TAB
       ++ priority ++ content ++ [LF].

(** The text that [exportZoneFile] builds from the zone and its records. *)
Definition zone_file_text (zone_name : jsstring) (records : list DnsRecord.t)
  : jsstring :=
  fold_left (fun zoneFile record => zoneFile ++ zone_file_line zone_name record)
            records
            (lit "$ORIGIN " ++ zone_name ++ lit "." ++ [LF]
               ++ lit "$TTL 300" ++ [LF] ++ [LF]).

(* ================================================================= *)
(** ** The [CloudflareApi] object *)

Section CloudflareApi.
Context {W : Type} (env : Env W).

Let config := cloudflareConfig env.

(** The part of [api] before [fetch]: the URL, after the two
    configuration checks ([getHeaders] runs while the request is put
    together).  A failure leaves [api] through its own [catch], which
    prefixes the message. *)
Definition api_url (endpoint : jsstring) (useZoneId : bool)
  : outcome jsstring :=
  let wrapped m := Throw (JsError (lit "Cloudflare API error: " ++ m)) in
  if useZoneId && str_eqb (Config.zoneId config) [] then
    wrapped (lit "Cloudflare Zone ID not configured")
  else if str_eqb (Config.apiToken config) [] then
    wrapped (lit "Cloudflare API Token not configured")
  else if useZoneId then
    Return (lit "https://api.cloudflare.com/client/v4/zones/"
              ++ Config.zoneId config ++ lit "/" ++ endpoint)
  else
    Return (lit "https://api.cloudflare.com/client/v4/" ++ endpoint).

Definition listDnsRecords : Async W (list DnsRecord.t) :=
  url <- lift (api_url (lit "dns_records") true) ;;
  rest_get_dns_records env url.

Definition createDnsRecord (record : CreateDnsRecord.t)
  : Async W DnsRecord.t :=
  validatedRecord <- lift (CreateDnsRecordRequest_parse env record) ;;
  url <- lift (api_url (lit "dns_records") true) ;;
  rest_post_dns_record env url validatedRecord.

Definition createZone (zoneData : CreateZone.t) : Async W Zone.t :=
  validatedZone <- lift (CreateZoneRequest_parse env zoneData) ;;
  url <- lift (api_url (lit "zones") false) ;;
  rest_post_zone env url validatedZone.

Definition getZone (zoneId : option jsstring) : Async W Zone.t :=
  let targetZoneId := str_or zoneId (Config.zoneId config) in
  if str_eqb targetZoneId [] then
    throw (JsError (lit "Zone ID not provided and not configured"))
  else
    url <- lift (api_url (lit "zones/" ++ targetZoneId) false) ;;
    rest_get_zone env url.

(** The request that [importDnsRecords] builds from a descriptor. *)
Definition createRecordData (record : DnsRecordImport.t)
  : CreateDnsRecord.t :=
  {| CreateDnsRecord.type := DnsRecordImport.type record;
     CreateDnsRecord.name := DnsRecordImport.name record;
     CreateDnsRecord.content := DnsRecordImport.content record;
     CreateDnsRecord.ttl := opt_num_or (DnsRecordImport.ttl record) (Num 1);
     CreateDnsRecord.priority := DnsRecordImport.priority record;
     CreateDnsRecord.proxied := DnsRecordImport.proxied record |}.

(** [for (const record of validatedRecords)]: a failed creation goes to
    [console.warn] and the loop goes on. *)
Fixpoint import_loop (validatedRecords : list DnsRecordImport.t)
         (createdRecords : list DnsRecord.t) : Async W (list DnsRecord.t) :=
  match validatedRecords with
  | [] => ret createdRecords
  | record :: rest =>
      createdRecords' <-
        try_catch
          (createdRecord <- createDnsRecord (createRecordData record) ;;
           ret (createdRecords ++ [createdRecord]))
          (fun _ => ret createdRecords) ;;
      import_loop rest createdRecords'
  end.

Definition importDnsRecords (records : list DnsRecordImport.t)
           (zoneId : option jsstring) : Async W (list DnsRecord.t) :=
  let targetZoneId := str_or zoneId (Config.zoneId config) in
  if str_eqb targetZoneId [] then
    throw (JsError (lit "Zone ID not provided and not configured"))
  else
    validatedRecords <-
      lift (map_outcome (DnsRecordImport_parse env) records) ;;
    import_loop validatedRecords [].

Definition checkNameserverPropagation (domain : jsstring)
           (expectedNameservers : list jsstring) : Async W bool :=
  try_catch
    (data <- fetch_json env (resolve_url domain (lit "NS")) ;;
     match DnsJson.Answer data with
     | Some answer =>
         if negb (DnsJson.Status data =? 0) then ret false
         else
           let currentNameservers :=
             map (fun record => toLowerCase (DnsAnswer.data record))
                 (filter (fun record => DnsAnswer.type record =? 2) answer)
           in
           ret (forallb
                  (fun ns => arr_includes currentNameservers (toLowerCase ns))
                  expectedNameservers)
     | None => ret false
     end)
    (fun _ => ret false).

(** [validateZoneSetup]: the [catch] clause sees the issues pushed so
    far, so each [await] of the [try] block carries the clause with the
    array as it stands there. *)
Definition validateZoneSetup (zoneId : jsstring)
  : Async W ValidationResult.t :=
  let failed (issues : list jsstring) (error : exn) :=
    ret {| ValidationResult.valid := false;
           ValidationResult.issues :=
             issues ++ [lit "Failed to validate zone: "
                          ++ error_message error] |} in
  let issues := [] in
  try_catch
    (zone <- getZone (Some zoneId) ;;
     let issues :=
       if negb (ZoneStatus.is_active (Zone.status zone)) then
         issues ++ [lit "Zone status is "
                      ++ ZoneStatus.toString (Zone.status zone)
                      ++ lit ", should be active"]
       else issues in
     let issues :=
       if (length (Zone.name_servers zone) =? 0)%nat then
         issues ++ [lit "No nameservers found for zone"]
       else issues in
     try_catch
       (dnsRecords <- listDnsRecords ;;
        let issues :=
          if (length dnsRecords =? 0)%nat then
            issues ++ [lit "No DNS records found in zone"]
          else issues in
        ret {| ValidationResult.valid := (length issues =? 0)%nat;
               ValidationResult.issues := issues |})
       (failed issues))
    (failed issues).

(** *** Detection *)

Definition recordTypes : list DnsRecordType.t :=
  [ DnsRecordType.A; DnsRecordType.AAAA; DnsRecordType.CNAME;
    DnsRecordType.MX; DnsRecordType.TXT; DnsRecordType.NS;
    DnsRecordType.SRV; DnsRecordType.CAA ].

Definition commonSubdomains : list jsstring :=
  [ lit "www"; lit "mail"; lit "ftp"; lit "blog";
    lit "shop"; lit "api"; lit "admin" ].

(** [answer.TTL || 300] *)
Definition answer_ttl (answer : DnsAnswer.t) : number :=
  opt_num_or (option_map Num (DnsAnswer.TTL answer)) (Num 300).

(** [answer.data.split(" ")[0]] *)
Definition first_token (data : jsstring) : jsstring :=
  nth 0 (split " "%char data) [].

(** The object pushed for an answer to a query on the domain itself. *)
Definition base_record (recordType : DnsRecordType.t) (domain : jsstring)
           (answer : DnsAnswer.t) : DnsRecordImport.t :=
  {| DnsRecordImport.type := recordType;
     DnsRecordImport.name := domain;
     DnsRecordImport.content := DnsAnswer.data answer;
     DnsRecordImport.ttl := Some (answer_ttl answer);
     DnsRecordImport.priority :=
       if includes (DnsAnswer.data answer) (lit " ")
       then Some (parseInt (first_token (DnsAnswer.data answer)))
       else None;
     DnsRecordImport.proxied := Some false |}.

(** The object pushed for an answer to a query on a subdomain: it has
    no [priority] member. *)
Definition subdomain_record (subdomainName : jsstring)
           (answer : DnsAnswer.t) : DnsRecordImport.t :=
  {| DnsRecordImport.type := DnsRecordType.A;
     DnsRecordImport.name := subdomainName;
     DnsRecordImport.content := DnsAnswer.data answer;
     DnsRecordImport.ttl := Some (answer_ttl answer);
     DnsRecordImport.priority := None;
     DnsRecordImport.proxied := Some false |}.

(** [for (const answer of data.Answer)], pushing the answers of the
    expected type code. *)
Definition push_answers (expected : Z)
           (record_of : DnsAnswer.t -> DnsRecordImport.t)
           (answers : list DnsAnswer.t)
           (detectedRecords : list DnsRecordImport.t)
  : list DnsRecordImport.t :=
  fold_left
    (fun detected answer =>
       if DnsAnswer.type answer =? expected
       then detected ++ [record_of answer]
       else detected)
    answers detectedRecords.

(** [if (data.Status === 0 && data.Answer) { for ... }] *)
Definition push_response (expected : Z)
           (record_of : DnsAnswer.t -> DnsRecordImport.t)
           (data : DnsJson.t) (detectedRecords : list DnsRecordImport.t)
  : list DnsRecordImport.t :=
  match DnsJson.Answer data with
  | Some answers =>
      if DnsJson.Status data =? 0
      then push_answers expected record_of answers detectedRecords
      else detectedRecords
  | None => detectedRecords
  end.

(** One iteration of [for (const recordType of recordTypes)]. *)
Definition detect_type (domain : jsstring) (recordType : DnsRecordType.t)
           (detectedRecords : list DnsRecordImport.t)
  : Async W (list DnsRecordImport.t) :=
  try_catch
    (data <- fetch_json env
               (resolve_url domain (DnsRecordType.toString recordType)) ;;
     ret (push_response
            (getDnsTypeNumber (DnsRecordType.toString recordType))
            (base_record recordType domain) data detectedRecords))
    (fun _ => ret detectedRecords).

(** One iteration of [for (const subdomain of commonSubdomains)]. *)
Definition detect_subdomain (domain subdomain : jsstring)
           (detectedRecords : list DnsRecordImport.t)
  : Async W (list DnsRecordImport.t) :=
  let subdomainName := subdomain ++ lit "." ++ domain in
  try_catch
    (data <- fetch_json env (resolve_url subdomainName (lit "A")) ;;
     ret (push_response 1 (subdomain_record subdomainName)
                        data detectedRecords))
    (fun _ => ret detectedRecords).

(** A [for ... of] loop whose body awaits and updates
    [detectedRecords]. *)
Fixpoint for_of {T} (items : list T)
         (body : T -> list DnsRecordImport.t
                 -> Async W (list DnsRecordImport.t))
         (detectedRecords : list DnsRecordImport.t)
  : Async W (list DnsRecordImport.t) :=
  match items with
  | [] => ret detectedRecords
  | item :: rest =>
      detectedRecords' <- body item detectedRecords ;;
      for_of rest body detectedRecords'
  end.

(** The first loop of [detectDnsRecords]: the domain itself. *)
Definition detect_base (domain : jsstring)
  : list DnsRecordImport.t -> Async W (list DnsRecordImport.t) :=
  for_of recordTypes (detect_type domain).

(** The second loop of [detectDnsRecords]: the common subdomains. *)
Definition detect_subdomains (domain : jsstring)
  : list DnsRecordImport.t -> Async W (list DnsRecordImport.t) :=
  for_of commonSubdomains (detect_subdomain domain).

Definition detectDnsRecords (domain : jsstring)
  : Async W (list DnsRecordImport.t) :=
  try_catch
    (detectedRecords <- detect_base domain [] ;;
     detect_subdomains domain detectedRecords)
    (fun error =>
       throw (JsError (lit "Failed to detect DNS records: "
                         ++ error_message error))).

(** *** Replication *)

(** The body of [replicateDnsRecords]; [CloudflareApi.detectDnsRecords]
    and [CloudflareApi.importDnsRecords] are looked up on the object at
    the call, so they are arguments here. *)
Definition replicateDnsRecords_via
           (detect : jsstring -> Async W (list DnsRecordImport.t))
           (import : list DnsRecordImport.t -> option jsstring
                     -> Async W (list DnsRecord.t))
           (sourceDomain : jsstring) (targetZoneId : option jsstring)
  : Async W ReplicationResult.t :=
  let errors : list jsstring := [] in
  try_catch
    (detectedRecords <- detect sourceDomain ;;
     if (length detectedRecords =? 0)%nat then
       ret {| ReplicationResult.detected := [];
              ReplicationResult.replicated := [];
              ReplicationResult.errors :=
                [lit "No DNS records detected for the domain"] |}
     else
       replicatedRecords <- import detectedRecords targetZoneId ;;
       ret {| ReplicationResult.detected := detectedRecords;
              ReplicationResult.replicated := replicatedRecords;
              ReplicationResult.errors := errors |})
    (fun error =>
       ret {| ReplicationResult.detected := [];
              ReplicationResult.replicated := [];
              ReplicationResult.errors :=
                errors ++ [lit "Failed to replicate DNS records: "
                             ++ error_message error] |}).

Definition replicateDnsRecords
  : jsstring -> option jsstring -> Async W ReplicationResult.t :=
  replicateDnsRecords_via detectDnsRecords importDnsRecords.

(** *** Zone files *)

(** [for (const record of records)] of [importZoneFile]: a failed
    creation is pushed to [errors]. *)
Fixpoint zone_file_loop (records : list CreateDnsRecord.t)
         (importedRecords : list DnsRecord.t) (errors : list jsstring)
  : Async W ZoneFileImport.t :=
  match records with
  | [] => ret {| ZoneFileImport.imported := importedRecords;
                 ZoneFileImport.errors := errors |}
  | record :: rest =>
      fun w =>
        match createDnsRecord record w with
        | (Return createdRecord, w') =>
            zone_file_loop rest (importedRecords ++ [createdRecord])
                           errors w'
        | (Throw error, w') =>
            zone_file_loop rest importedRecords
              (errors ++ [lit "Failed to import record "
                            ++ CreateDnsRecord.name record ++ lit ": "
                            ++ error_message error]) w'
        end
  end.

Definition importZoneFile (zoneFileContent : jsstring)
           (zoneId : option jsstring) : Async W ZoneFileImport.t :=
  match parseZoneFile zoneFileContent with
  | Return records => zone_file_loop records [] []
  | Throw error =>
      ret {| ZoneFileImport.imported := [];
             ZoneFileImport.errors :=
               [lit "Failed to parse zone file: " ++ error_message error] |}
  end.

Definition exportZoneFile (zoneId : option jsstring) : Async W jsstring :=
  let targetZoneId := str_or zoneId (Config.zoneId config) in
  if str_eqb targetZoneId [] then
    throw (JsError (lit "Zone ID not provided and not configured"))
  else
    records <- listDnsRecords ;;
    zone <- getZone (Some targetZoneId) ;;
    ret (zone_file_text (Zone.name zone) records).

(** *** Migration *)

Definition migrateDomainWithDetection (domain : jsstring)
           (zoneType : option jsstring) : Async W MigrationResult.t :=
  let errors : list jsstring := [] in
  let nextSteps : list jsstring := [] in
  try_catch
    (zone <- createZone
               {| CreateZone.name := domain;
                  CreateZone.type := str_or zoneType (lit "full");
                  CreateZone.jump_start := false |} ;;
     replication <- replicateDnsRecords domain (Some (Zone.id zone)) ;;
     let nextSteps :=
       nextSteps ++
         [ lit "1. Update your domain's nameservers at your registrar to: "
             ++ join (lit ", ") (Zone.name_servers zone);
           lit "2. Monitor nameserver propagation using check_nameserver_propagation tool";
           lit "3. Validate setup using validate_zone_setup tool with zone ID: "
             ++ Zone.id zone ] in
     let failed :=
       (0 <? length (ReplicationResult.errors replication))%nat in
     let errors :=
       if failed then errors ++ ReplicationResult.errors replication
       else errors in
     let nextSteps :=
       if failed then
         nextSteps ++
           [ lit "4. Review and fix any DNS record import errors: "
               ++ join (lit ", ") (ReplicationResult.errors replication) ]
       else nextSteps in
     ret {| MigrationResult.zone := ZoneObject zone;
            MigrationResult.detected :=
              ReplicationResult.detected replication;
            MigrationResult.replicated :=
              ReplicationResult.replicated replication;
            MigrationResult.errors := errors;
            MigrationResult.nextSteps := nextSteps |})
    (fun error =>
       ret {| MigrationResult.zone := EmptyObject;
              MigrationResult.detected := [];
              MigrationResult.replicated := [];
              MigrationResult.errors :=
                errors ++ [lit "Migration failed: " ++ error_message error];
              MigrationResult.nextSteps :=
                [lit "Fix the errors and retry the migration"] |}).

End CloudflareApi.

(* ================================================================= *)
(** ** A small world for the examples *)

Module Demo.

(** The world is the list of requests sent so far, oldest first. *)
Definition world : Type := list jsstring.

Definition sent (method url : jsstring) (w : world) : world :=
  w ++ [method ++ lit " " ++ url].

Definition answer (type : Z) (data : jsstring) (TTL : option Z)
  : DnsAnswer.t :=
  {| DnsAnswer.type := type; DnsAnswer.data := data; DnsAnswer.TTL := TTL |}.

(** What the resolver knows: [example.com] has an address and two name
    servers, [www.example.com] is an alias with an address. *)
Definition resolver : list (jsstring * list DnsAnswer.t) :=
  [ (resolve_url (lit "example.com") (lit "A"),
     [answer 1 (lit "192.0.2.1") (Some 300)]);
    (resolve_url (lit "example.com") (lit "NS"),
     [answer 2 (lit "ns1.registrar.example.") (Some 3600);
      answer 2 (lit "NS2.registrar.example.") None]);
    (resolve_url (lit "www.example.com") (lit "A"),
     [answer 5 (lit "example.com.") (Some 60);
      answer 1 (lit "192.0.2.1") (Some 60)]) ].

Definition fetch (url : jsstring) : Async world DnsJson.t :=
  fun w =>
    (Return
       match find (fun kv => str_eqb (fst kv) url) resolver with
       | Some (_, answers) =>
           {| DnsJson.Status := 0; DnsJson.Answer := Some answers |}
       | None => {| DnsJson.Status := 3; DnsJson.Answer := None |}
       end,
     sent (lit "GET") url w).

Definition zones_url : jsstring :=
  lit "https://api.cloudflare.com/client/v4/zones".

Definition stored (id zone_id name content : jsstring)
           (type : DnsRecordType.t) (ttl : number)
           (priority : option number) : DnsRecord.t :=
  {| DnsRecord.id := id; DnsRecord.zone_id := Some zone_id;
     DnsRecord.zone_name := None; DnsRecord.name := name;
     DnsRecord.type := type; DnsRecord.content := content;
     DnsRecord.proxied := Some false; DnsRecord.ttl := ttl;
     DnsRecord.priority := priority;
     DnsRecord.created_on := lit "2024-01-01T00:00:00Z";
     DnsRecord.modified_on := lit "2024-01-01T00:00:00Z" |}.

(** The account holds zone [zoneA] (one record) and zone [zoneB] (no
    record).  The provider describes a zone by a zone object, and the
    schema that [getZone] and [createZone] decode the response with
    admits DNS records only (see [zone_decoding_throws], further down):
    a request for a zone that is there ends in the error of that
    decoding, and a request for any other zone in the error of [api]. *)
Definition get_zone (url : jsstring) : Async world Zone.t :=
  fun w =>
    (if str_eqb url (zones_url ++ lit "/zoneA")
        || str_eqb url (zones_url ++ lit "/zoneB") then
       Throw (JsError (lit "Failed to parse zone response: [ZodError]"))
     else
       Throw (JsError (lit "Cloudflare API error: Cloudflare API error: 404 Not Found")),
     sent (lit "GET") url w).

Definition get_dns_records (url : jsstring)
  : Async world (list DnsRecord.t) :=
  fun w =>
    (if str_eqb url (zones_url ++ lit "/zoneA/dns_records") then
       Return [stored (lit "r1") (lit "zoneA") (lit "example.com")
                      (lit "192.0.2.1") DnsRecordType.A (Num 300) None]
     else if str_eqb url (zones_url ++ lit "/zoneB/dns_records") then
       Return []
     else
       Throw (JsError (lit "Cloudflare API error: Cloudflare API error: 404 Not Found")),
     sent (lit "GET") url w).

(** The provider refuses NS records and stores everything else. *)
Definition post_dns_record (url : jsstring)
           (record : CreateDnsRecord.t) : Async world DnsRecord.t :=
  fun w =>
    (if DnsRecordType.eqb (CreateDnsRecord.type record) DnsRecordType.NS
     then Throw (JsError (lit "API Error: NS records are not accepted"))
     else Return (stored (lit "new") (lit "zoneA")
                         (CreateDnsRecord.name record)
                         (CreateDnsRecord.content record)
                         (CreateDnsRecord.type record)
                         (CreateDnsRecord.ttl record)
                         (CreateDnsRecord.priority record)),
     sent (lit "POST") url w).

(** The provider creates every zone but [taken.example], and describes
    the zone it has created by a zone object, which is refused like the
    one of [get_zone]. *)
Definition post_zone (url : jsstring) (z : CreateZone.t)
  : Async world Zone.t :=
  fun w =>
    (if str_eqb (CreateZone.name z) (lit "taken.example") then
       Throw (JsError (lit "Failed to parse zone creation response: API Error: zone already exists"))
     else
       Throw (JsError (lit "Failed to parse zone creation response: [ZodError]")),
     sent (lit "POST") url w).

(** The world with [zoneId] as the configured zone. *)
Definition env_for (zoneId : jsstring) : Env world :=
  {| cloudflareConfig :=
       {| Config.apiToken := lit "token"; Config.zoneId := zoneId |};
     fetch_json := fetch;
     DnsRecordImport_parse := fun r => Return r;
     CreateDnsRecordRequest_parse := fun r => Return r;
     CreateZoneRequest_parse := fun z => Return z;
     rest_get_dns_records := get_dns_records;
     rest_post_dns_record := post_dns_record;
     rest_get_zone := get_zone;
     rest_post_zone := post_zone |}.

Definition env : Env world := env_for (lit "zoneA").

(** What detection finds for [example.com], and the world after it. *)
Definition example_records : list DnsRecordImport.t :=
  [ base_record DnsRecordType.A (lit "example.com")
                (answer 1 (lit "192.0.2.1") (Some 300));
    base_record DnsRecordType.NS (lit "example.com")
                (answer 2 (lit "ns1.registrar.example.") (Some 3600));
    base_record DnsRecordType.NS (lit "example.com")
                (answer 2 (lit "NS2.registrar.example.") None);
    subdomain_record (lit "www.example.com")
                     (answer 1 (lit "192.0.2.1") (Some 60)) ].

Definition lookups (domain : jsstring) : world :=
  map (fun ty =>
         lit "GET " ++ resolve_url domain (DnsRecordType.toString ty))
      recordTypes
    ++ map (fun subdomain =>
              lit "GET "
                ++ resolve_url (subdomain ++ lit "." ++ domain) (lit "A"))
           commonSubdomains.

End Demo.

(* ================================================================= *)
(** ** [exportDnsRecords] *)

Section ExportRecords.
Context {W : Type} (env : Env W).

(** The descriptor that [exportDnsRecords] makes of a stored record. *)
Definition exported_descriptor (record : DnsRecord.t) : DnsRecordImport.t :=
  {| DnsRecordImport.type := DnsRecord.type record;
     DnsRecordImport.name := DnsRecord.name record;
     DnsRecordImport.content := DnsRecord.content record;
     DnsRecordImport.ttl := Some (DnsRecord.ttl record);
     DnsRecordImport.priority := DnsRecord.priority record;
     DnsRecordImport.proxied := DnsRecord.proxied record |}.

Definition exportDnsRecords (zoneId : option jsstring)
  : Async W (list DnsRecordImport.t) :=
  let targetZoneId := str_or zoneId (Config.zoneId (cloudflareConfig env)) in
  if str_eqb targetZoneId [] then
    throw (JsError (lit "Zone ID not provided and not configured"))
  else
    records <- listDnsRecords env ;;
    ret (map exported_descriptor records).

End ExportRecords.

(* ================================================================= *)
(** ** The tool handlers ([src/index.ts])

    A handler answers with [{content: [{type: "text", text}]}].  The
    texts hold characters beyond U+00FF (arrows, bullets, emoji); such a
    literal is kept as the bytes of its UTF-8 form, which is how the
    source file stores it.  The handlers only concatenate and join
    these texts. *)

(** The [config] of [createServer]. *)
Module ServerConfig.
Record t : Type := mk {
  cloudflareApiToken : jsstring;
  cloudflareZoneId : jsstring;
  cloudflareEmail : option jsstring
}.
End ServerConfig.

Module TextContent.
Record t : Type := mk {
  type : jsstring;
  text : jsstring
}.
End TextContent.

Module ToolResult.
Record t : Type := mk {
  content : list TextContent.t
}.
End ToolResult.

(** [{content: [{type: "text", text}]}] *)
Definition text_result (text : jsstring) : ToolResult.t :=
  {| ToolResult.content :=
       [ {| TextContent.type := lit "text"; TextContent.text := text |} ] |}.

(** [`${xs.length}`] *)
Definition length_text {T} (xs : list T) : jsstring :=
  toString (Num (Z.of_nat (length xs))).

(** [x ? text : ""] on a number that may be [undefined] *)
Definition if_number (x : option number) (text : number -> jsstring)
  : jsstring :=
  match x with
  | Some n => if truthy n then text n else []
  | None => []
  end.

(** [x ? text : ""] on a boolean that may be [undefined] *)
Definition if_flag (x : option bool) (text : jsstring) : jsstring :=
  match x with
  | Some true => text
  | _ => []
  end.

(** [configure] of [api.ts]: the assignment to [cloudflareConfig].  The
    e-mail address is stored there and never read. *)
Definition configure (config : ServerConfig.t) : Config.t :=
  {| Config.apiToken := ServerConfig.cloudflareApiToken config;
     Config.zoneId := ServerConfig.cloudflareZoneId config |}.

(** The outside world with [cloudflareConfig] assigned. *)
Definition with_config {W : Type} (env : Env W) (config : Config.t) : Env W :=
  {| cloudflareConfig := config;
     fetch_json := fetch_json env;
     DnsRecordImport_parse := DnsRecordImport_parse env;
     CreateDnsRecordRequest_parse := CreateDnsRecordRequest_parse env;
     CreateZoneRequest_parse := CreateZoneRequest_parse env;
     rest_get_dns_records := rest_get_dns_records env;
     rest_post_dns_record := rest_post_dns_record env;
     rest_get_zone := rest_get_zone env;
     rest_post_zone := rest_post_zone env |}.

(** The [arguments] of a tool call.  The dispatcher hands
    [request.params.arguments] to the handler as it came, so a call
    without arguments hands over [undefined]: a handler takes
    [args : option _], and [None] is [undefined].  The members of an
    object are typed as the handler declares them. *)
Module ZoneIdArgs.
Record t : Type := mk {
  zoneId : option jsstring
}.
End ZoneIdArgs.

Module ImportDnsRecordsArgs.
Record t : Type := mk {
  records : list DnsRecordImport.t;
  zoneId : option jsstring
}.
End ImportDnsRecordsArgs.

Module PropagationArgs.
Record t : Type := mk {
  domain : jsstring;
  nameservers : list jsstring
}.
End PropagationArgs.

Module StartMigrationArgs.
Record t : Type := mk {
  domain : jsstring;
  dnsRecords : option (list DnsRecordImport.t);
  zoneType : option jsstring
}.
End StartMigrationArgs.

Module DomainArgs.
Record t : Type := mk {
  domain : jsstring
}.
End DomainArgs.

Module ReplicateArgs.
Record t : Type := mk {
  sourceDomain : jsstring;
  targetZoneId : option jsstring
}.
End ReplicateArgs.

Module ImportZoneFileArgs.
Record t : Type := mk {
  zoneFileContent : jsstring;
  zoneId : option jsstring
}.
End ImportZoneFileArgs.

Module MigrateArgs.
Record t : Type := mk {
  domain : jsstring;
  zoneType : option jsstring
}.
End MigrateArgs.

Module CreateZoneArgs.
Record t : Type := mk {
  name : jsstring;
  type : option jsstring;
  jump_start : option bool
}.
End CreateZoneArgs.

Module GetZoneArgs.
Record t : Type := mk {
  zoneId : option jsstring;
  domain : option jsstring
}.
End GetZoneArgs.

Module ListZonesArgs.
Record t : Type := mk {
  name : option jsstring
}.
End ListZonesArgs.

(** [args.key] where [args] is [undefined], as V8 words it. *)
Definition undefined_read (key : jsstring) : exn :=
  JsError (lit "Cannot read properties of undefined (reading '"
             ++ key ++ lit "')").

Section Handlers.
Context {W : Type} (env : Env W) (config : option ServerConfig.t).

(** [configureApiIfNeeded]: where the source returns [true] it has
    configured the API, and the outside world as configured is the
    result here; [None] is [false]. *)
Definition configureApiIfNeeded : option (Env W) :=
  match config with
  | Some c =>
      if negb (str_eqb (ServerConfig.cloudflareApiToken c) [])
         && negb (str_eqb (ServerConfig.cloudflareZoneId c) [])
      then Some (with_config env (configure c))
      else None
  | None => None
  end.

Definition configuration_incomplete : ToolResult.t :=
  text_result
    (lit "❌ Configuration incomplete. Please configure Cloudflare API Token first.").

(** The frame of the handlers modelled here: [try], the configuration
    test, the call, and the [catch] clause with its prefix.  After the
    configuration test the first thing that each of these handlers does
    is to read the member [first] of [args], to pass it on; that is a
    [TypeError] when [args] is [undefined]. *)
Definition handler {A : Type} (failure : jsstring) (args : option A)
           (first : jsstring) (body : Env W -> A -> Async W ToolResult.t)
  : Async W ToolResult.t :=
  try_catch
    (match configureApiIfNeeded with
     | None => ret configuration_incomplete
     | Some api =>
         match args with
         | None => throw (undefined_read first)
         | Some args => body api args
         end
     end)
    (fun error => ret (text_result (failure ++ error_message error))).

Definition handleExportDnsRecords (args : option ZoneIdArgs.t)
  : Async W ToolResult.t :=
  handler (lit "❌ Error exporting DNS records: ") args (lit "zoneId")
    (fun api args =>
       records <- exportDnsRecords api (ZoneIdArgs.zoneId args) ;;
       if (length records =? 0)%nat then
         ret (text_result (lit "No DNS records found to export."))
       else
         let recordsText :=
           join [LF]
             (map (fun record =>
                     DnsRecordImport.name record ++ lit " "
                       ++ DnsRecordType.toString (DnsRecordImport.type record)
                       ++ lit " " ++ DnsRecordImport.content record
                       ++ if_number (DnsRecordImport.ttl record)
                            (fun ttl => lit " TTL:" ++ toString ttl)
                       ++ if_number (DnsRecordImport.priority record)
                            (fun priority => lit " PRI:" ++ toString priority)
                       ++ if_flag (DnsRecordImport.proxied record)
                            (lit " PROXIED"))
                  records) in
         ret (text_result
                (lit "✅ Exported " ++ length_text records
                   ++ lit " DNS record(s):" ++ [LF; LF] ++ recordsText
                   ++ [LF; LF]
                   ++ lit "You can use this data with the import_dns_records tool."))).

Definition handleImportDnsRecords (args : option ImportDnsRecordsArgs.t)
  : Async W ToolResult.t :=
  handler (lit "❌ Error importing DNS records: ") args (lit "records")
    (fun api args =>
       createdRecords <-
         importDnsRecords api (ImportDnsRecordsArgs.records args)
                          (ImportDnsRecordsArgs.zoneId args) ;;
       ret (text_result
              (lit "✅ Successfully imported " ++ length_text createdRecords
                 ++ lit " DNS record(s)!" ++ [LF]
                 ++ join [LF]
                      (map (fun record =>
                              lit "🔹 " ++ DnsRecord.name record ++ lit " ("
                                ++ DnsRecordType.toString (DnsRecord.type record)
                                ++ lit ") → " ++ DnsRecord.content record)
                           createdRecords)))).

(** This handler does not look at the configuration. *)
Definition handleCheckNameserverPropagation (args : option PropagationArgs.t)
  : Async W ToolResult.t :=
  try_catch
    (match args with
     | None => throw (undefined_read (lit "domain"))
     | Some args =>
         let domain := PropagationArgs.domain args in
         let nameservers := PropagationArgs.nameservers args in
         propagated <- checkNameserverPropagation env domain nameservers ;;
         ret (text_result
                (lit "🔍 Nameserver Propagation Check for " ++ domain
                   ++ lit ":" ++ [LF]
                   ++ (if propagated
                       then lit "✅ Nameservers have propagated successfully!"
                       else lit "⏳ Nameservers are still propagating...")
                   ++ [LF; LF]
                   ++ lit "Expected nameservers: "
                   ++ join (lit ", ") nameservers
                   ++ [LF; LF]
                   ++ (if propagated
                       then lit "Your domain is ready to use with Cloudflare!"
                       else lit "Please wait a few more minutes and check again. Propagation can take up to 24-48 hours.")))
     end)
    (fun error =>
       ret (text_result
              (lit "❌ Error checking nameserver propagation: "
                 ++ error_message error))).

(** The text that [handleValidateZoneSetup] makes of a validation. *)
Definition validation_text (validation : ValidationResult.t) : jsstring :=
  lit "🔍 Zone Validation Results:" ++ [LF]
    ++ (if ValidationResult.valid validation
        then lit "✅ Zone is properly configured!"
        else lit "❌ Zone has configuration issues:")
    ++ [LF; LF]
    ++ (if (0 <? length (ValidationResult.issues validation))%nat
        then join [LF]
               (map (fun issue => lit "• " ++ issue)
                    (ValidationResult.issues validation))
        else lit "All checks passed!").

Definition handleValidateZoneSetup (args : option ZoneIdArgs.t)
  : Async W ToolResult.t :=
  handler (lit "❌ Error validating zone setup: ") args (lit "zoneId")
    (fun api args =>
       let targetZoneId :=
         match ZoneIdArgs.zoneId args with
         | Some ((_ :: _) as z) => z
         | _ =>
             match config with
             | Some c => ServerConfig.cloudflareZoneId c
             | None => []
             end
         end in
       if str_eqb targetZoneId [] then
         ret (text_result (lit "❌ No zone ID provided and none configured."))
       else
         validation <- validateZoneSetup api targetZoneId ;;
         ret (text_result (validation_text validation))).

Definition handleStartDomainMigration (args : option StartMigrationArgs.t)
  : Async W ToolResult.t :=
  handler (lit "❌ Error starting domain migration: ") args (lit "domain")
    (fun api args =>
       let domain := StartMigrationArgs.domain args in
       let dnsRecords := StartMigrationArgs.dnsRecords args in
       let zoneType := StartMigrationArgs.zoneType args in
       zone <- createZone api
                 {| CreateZone.name := domain;
                    CreateZone.type := str_or zoneType (lit "full");
                    CreateZone.jump_start := false |} ;;
       let migrationSteps :=
         lit "✅ Step 1: Zone created successfully!" ++ [LF]
           ++ lit "🔹 Domain: " ++ Zone.name zone ++ [LF]
           ++ lit "🔹 Zone ID: " ++ Zone.id zone ++ [LF]
           ++ lit "🔹 Nameservers: "
           ++ join (lit ", ") (Zone.name_servers zone) ++ [LF; LF]
           ++ lit "📋 Next Steps for Complete Migration:" ++ [LF]
           ++ lit "1. Update your domain's nameservers at your registrar to:"
           ++ [LF]
           ++ lit "   " ++ join (LF :: lit "   ") (Zone.name_servers zone)
           ++ [LF; LF]
           ++ lit "2. Import your DNS records (if provided):" in
       migrationSteps <-
         match dnsRecords with
         | Some ((_ :: _) as given) =>
             try_catch
               (createdRecords <- importDnsRecords api given
                                    (Some (Zone.id zone)) ;;
                ret (migrationSteps ++ [LF]
                       ++ lit "✅ Step 2: DNS records imported successfully! ("
                       ++ length_text createdRecords ++ lit " records)"))
               (fun error =>
                  ret (migrationSteps ++ [LF]
                         ++ lit "⚠️ Step 2: DNS records import failed: "
                         ++ error_message error))
         | _ =>
             ret (migrationSteps ++ [LF]
                    ++ lit "⏭️ Step 2: No DNS records provided. Use import_dns_records tool to add them.")
         end ;;
       ret (text_result
              (migrationSteps ++ [LF; LF]
                 ++ lit "3. Monitor nameserver propagation:" ++ [LF]
                 ++ lit "   Use check_nameserver_propagation tool with domain: "
                 ++ domain ++ [LF]
                 ++ lit "   Expected nameservers: "
                 ++ join (lit ", ") (Zone.name_servers zone) ++ [LF; LF]
                 ++ lit "4. Validate setup:" ++ [LF]
                 ++ lit "   Use validate_zone_setup tool with zone ID: "
                 ++ Zone.id zone ++ [LF; LF]
                 ++ lit "🎉 Migration setup complete! Your domain will be fully migrated once nameservers propagate."))).

Definition handleDetectDnsRecords (args : option DomainArgs.t)
  : Async W ToolResult.t :=
  handler (lit "❌ Error detecting DNS records: ") args (lit "domain")
    (fun api args =>
       let domain := DomainArgs.domain args in
       detectedRecords <- detectDnsRecords api domain ;;
       if (length detectedRecords =? 0)%nat then
         ret (text_result
                (lit "No DNS records detected for " ++ domain
                   ++ lit ". The domain might not have any DNS records or they might not be publicly accessible."))
       else
         let recordsText :=
           join [LF]
             (map (fun record =>
                     lit "🔹 " ++ DnsRecordImport.name record ++ lit " "
                       ++ DnsRecordType.toString (DnsRecordImport.type record)
                       ++ lit " " ++ DnsRecordImport.content record
                       ++ if_number (DnsRecordImport.ttl record)
                            (fun ttl => lit " TTL:" ++ toString ttl)
                       ++ if_number (DnsRecordImport.priority record)
                            (fun priority => lit " PRI:" ++ toString priority))
                  detectedRecords) in
         ret (text_result
                (lit "✅ Detected " ++ length_text detectedRecords
                   ++ lit " DNS record(s) for " ++ domain ++ lit ":"
                   ++ [LF; LF] ++ recordsText ++ [LF; LF]
                   ++ lit "You can use these records with the replicate_dns_records tool to automatically import them to Cloudflare."))).

(** [`  • ${record.name} ${record.type} → ${record.content}`] *)
Definition detected_line (record : DnsRecordImport.t) : jsstring :=
  lit "  • " ++ DnsRecordImport.name record ++ lit " "
    ++ DnsRecordType.toString (DnsRecordImport.type record)
    ++ lit " → " ++ DnsRecordImport.content record.

(** [`  • ${record.name} ${record.type} → ${record.content} [ID: ${record.id}]`] *)
Definition created_line (record : DnsRecord.t) : jsstring :=
  lit "  • " ++ DnsRecord.name record ++ lit " "
    ++ DnsRecordType.toString (DnsRecord.type record)
    ++ lit " → " ++ DnsRecord.content record
    ++ lit " [ID: " ++ DnsRecord.id record ++ lit "]".

(** [`  • ${error}`] *)
Definition error_line (error : jsstring) : jsstring := lit "  • " ++ error.

(** [if (xs.length > 0) { resultText += ... }] *)
Definition if_any {T} (xs : list T) (text : jsstring) : jsstring :=
  if (0 <? length xs)%nat then text else [].

(** The text that [handleReplicateDnsRecords] makes of a replication. *)
Definition replication_text (sourceDomain : jsstring)
           (replication : ReplicationResult.t) : jsstring :=
  let resultText := lit "✅ DNS Record Replication Complete!" ++ [LF; LF] in
  let resultText :=
    resultText ++ lit "🔍 Detected "
      ++ length_text (ReplicationResult.detected replication)
      ++ lit " record(s) from " ++ sourceDomain ++ [LF] in
  let resultText :=
    resultText ++ lit "📥 Successfully replicated "
      ++ length_text (ReplicationResult.replicated replication)
      ++ lit " record(s)" ++ [LF; LF] in
  let resultText :=
    resultText
      ++ if_any (ReplicationResult.detected replication)
           (lit "📋 Detected Records:" ++ [LF]
              ++ join [LF]
                   (map detected_line (ReplicationResult.detected replication))
              ++ [LF; LF]) in
  let resultText :=
    resultText
      ++ if_any (ReplicationResult.replicated replication)
           (lit "✅ Replicated Records:" ++ [LF]
              ++ join [LF]
                   (map created_line
                        (ReplicationResult.replicated replication))
              ++ [LF; LF]) in
  resultText
    ++ if_any (ReplicationResult.errors replication)
         (lit "⚠️ Errors encountered:" ++ [LF]
            ++ join [LF]
                 (map error_line (ReplicationResult.errors replication))).

Definition handleReplicateDnsRecords (args : option ReplicateArgs.t)
  : Async W ToolResult.t :=
  handler (lit "❌ Error replicating DNS records: ") args
    (lit "sourceDomain")
    (fun api args =>
       replication <-
         replicateDnsRecords api (ReplicateArgs.sourceDomain args)
                             (ReplicateArgs.targetZoneId args) ;;
       ret (text_result
              (replication_text (ReplicateArgs.sourceDomain args)
                                replication))).

(** The text that [handleImportZoneFile] makes of an import. *)
Definition zone_file_import_text (importResult : ZoneFileImport.t)
  : jsstring :=
  let resultText := lit "✅ Zone File Import Complete!" ++ [LF; LF] in
  let resultText :=
    resultText ++ lit "📥 Successfully imported "
      ++ length_text (ZoneFileImport.imported importResult)
      ++ lit " record(s)" ++ [LF; LF] in
  let resultText :=
    resultText
      ++ if_any (ZoneFileImport.imported importResult)
           (lit "✅ Imported Records:" ++ [LF]
              ++ join [LF]
                   (map created_line (ZoneFileImport.imported importResult))
              ++ [LF; LF]) in
  resultText
    ++ if_any (ZoneFileImport.errors importResult)
         (lit "⚠️ Errors encountered:" ++ [LF]
            ++ join [LF]
                 (map error_line (ZoneFileImport.errors importResult))).

Definition handleImportZoneFile (args : option ImportZoneFileArgs.t)
  : Async W ToolResult.t :=
  handler (lit "❌ Error importing zone file: ") args
    (lit "zoneFileContent")
    (fun api args =>
       importResult <-
         importZoneFile api (ImportZoneFileArgs.zoneFileContent args)
                        (ImportZoneFileArgs.zoneId args) ;;
       ret (text_result (zone_file_import_text importResult))).

Definition handleExportZoneFile (args : option ZoneIdArgs.t)
  : Async W ToolResult.t :=
  handler (lit "❌ Error exporting zone file: ") args (lit "zoneId")
    (fun api args =>
       zoneFile <- exportZoneFile api (ZoneIdArgs.zoneId args) ;;
       ret (text_result
              (lit "✅ Zone File Export Complete!" ++ [LF; LF]
                 ++ lit "```" ++ [LF] ++ zoneFile ++ [LF] ++ lit "```"
                 ++ [LF; LF]
                 ++ lit "You can save this zone file and use it with other DNS providers or import it using the import_zone_file tool."))).

(** [migration.zone.name_servers.join(", ")] on the empty object, as V8
    words it. *)
Definition undefined_join : exn :=
  JsError (lit "Cannot read properties of undefined (reading 'join')").

(** The text that [handleMigrateDomainWithDetection] makes of a
    migration whose [zone] is a zone. *)
Definition migration_text (zone : Zone.t) (migration : MigrationResult.t)
  : jsstring :=
  let resultText :=
    lit "🎉 Complete Domain Migration with Automatic Detection!"
      ++ [LF; LF] in
  let resultText :=
    resultText ++ lit "✅ Step 1: Zone created successfully!" ++ [LF] in
  let resultText :=
    resultText ++ lit "🔹 Domain: " ++ Zone.name zone ++ [LF] in
  let resultText :=
    resultText ++ lit "🔹 Zone ID: " ++ Zone.id zone ++ [LF] in
  let resultText :=
    resultText ++ lit "🔹 Status: "
      ++ ZoneStatus.toString (Zone.status zone) ++ [LF] in
  let resultText :=
    resultText ++ lit "🔹 Nameservers: "
      ++ join (lit ", ") (Zone.name_servers zone) ++ [LF; LF] in
  let resultText :=
    resultText ++ lit "🔍 Step 2: DNS Record Detection & Replication"
      ++ [LF] in
  let resultText :=
    resultText ++ lit "📊 Detected "
      ++ length_text (MigrationResult.detected migration)
      ++ lit " existing DNS record(s)" ++ [LF] in
  let resultText :=
    resultText ++ lit "📥 Successfully replicated "
      ++ length_text (MigrationResult.replicated migration)
      ++ lit " record(s)" ++ [LF; LF] in
  let resultText :=
    resultText
      ++ if_any (MigrationResult.detected migration)
           (lit "📋 Detected Records:" ++ [LF]
              ++ join [LF]
                   (map detected_line (MigrationResult.detected migration))
              ++ [LF; LF]) in
  let resultText :=
    resultText
      ++ if_any (MigrationResult.replicated migration)
           (lit "✅ Replicated Records:" ++ [LF]
              ++ join [LF]
                   (map created_line (MigrationResult.replicated migration))
              ++ [LF; LF]) in
  let resultText := resultText ++ lit "📋 Next Steps:" ++ [LF] in
  let resultText :=
    resultText
      ++ join [LF]
           (map (fun step => lit "  " ++ step)
                (MigrationResult.nextSteps migration)) in
  resultText
    ++ if_any (MigrationResult.errors migration)
         ([LF; LF] ++ lit "⚠️ Issues to address:" ++ [LF]
            ++ join [LF]
                 (map error_line (MigrationResult.errors migration))).

Definition handleMigrateDomainWithDetection (args : option MigrateArgs.t)
  : Async W ToolResult.t :=
  handler (lit "❌ Error in domain migration with detection: ") args
    (lit "domain")
    (fun api args =>
       migration <-
         migrateDomainWithDetection api (MigrateArgs.domain args)
                                    (MigrateArgs.zoneType args) ;;
       match MigrationResult.zone migration with
       | EmptyObject => throw undefined_join
       | ZoneObject zone =>
           ret (text_result (migration_text zone migration))
       end).

End Handlers.

(* ================================================================= *)
(** ** JavaScript values and the schemas of [types.ts]

    The provider answers in JSON, and the schemas of [types.ts] decide
    what [api.ts] lets through.  This part carries the record operations
    of [CloudflareApi] down to [fetch]: the request, the envelope of the
    response and its validation. *)

(** A value as [response.json()] returns it, as the code builds it, or
    as a schema leaves it.  Numbers are [NaN] or an integer, as everywhere
    in this development, and an object lists each of its keys once. *)
Module Value.

Unset Elimination Schemes.
Inductive t : Type :=
| Undefined
| Null
| Bool (b : bool)
| Number (n : number)
| Str (s : jsstring)
| Array (items : list t)
| Object (members : list (jsstring * t)).
Set Elimination Schemes.

(** [key in value] *)
Definition has (key : jsstring) (value : t) : bool :=
  match value with
  | Object members => existsb (fun kv => str_eqb (fst kv) key) members
  | _ => false
  end.

(** [value[key]], for the keys that the source reads *)
Definition get (key : jsstring) (value : t) : t :=
  match value with
  | Object members =>
      match find (fun kv => str_eqb (fst kv) key) members with
      | Some (_, v) => v
      | None => Undefined
      end
  | _ => Undefined
  end.

(** [ToBoolean] *)
Definition truthy (value : t) : bool :=
  match value with
  | Undefined | Null => false
  | Bool b => b
  | Number n => Js.truthy n
  | Str s => negb (str_eqb s [])
  | Array _ | Object _ => true
  end.

(** [Array.isArray] *)
Definition isArray (value : t) : bool :=
  match value with Array _ => true | _ => false end.

(** [value !== null] *)
Definition not_null (value : t) : bool :=
  match value with Null => false | _ => true end.

(** The elements of an array; the source only asks for them after
    [Array.isArray] or a schema has said that there is one. *)
Definition elements (value : t) : list t :=
  match value with Array items => items | _ => [] end.

(** A string member as text; the source only prints members that a
    schema has found to be strings. *)
Definition text (value : t) : jsstring :=
  match value with Str s => s | _ => [] end.

End Value.

(** The part of zod that [types.ts] uses. *)
Module Zod.

Unset Elimination Schemes.
Inductive schema : Type :=
| z_string
| z_number
| z_boolean
| z_null
| z_enum (values : list jsstring)
| z_array (item : schema)
| z_object (shape : list (jsstring * schema))
| z_optional (inner : schema)
| z_default (inner : schema) (value : Value.t)
| z_union (options : list schema).
Set Elimination Schemes.

(** All of a list pass, or the whole fails. *)
Fixpoint all_of {T U} (f : T -> option U) (xs : list T) : option (list U) :=
  match xs with
  | [] => Some []
  | x :: rest =>
      match f x, all_of f rest with
      | Some y, Some ys => Some (y :: ys)
      | _, _ => None
      end
  end.

(** [schema.parse(input)]: the parsed value, or [None] where zod throws
    a [ZodError].  [NaN] is no number for [z.number()].  An object
    schema reads the members of its shape and
    strips the others; a member is set in the result when its parsed
    value is not [undefined] or when the input had the key.  A union
    takes the first option that accepts the input. *)
Fixpoint parse (s : schema) (input : Value.t) {struct s} : option Value.t :=
  match s with
  | z_string =>
      match input with Value.Str _ => Some input | _ => None end
  | z_number =>
      match input with Value.Number (Num _) => Some input | _ => None end
  | z_boolean =>
      match input with Value.Bool _ => Some input | _ => None end
  | z_null =>
      match input with Value.Null => Some input | _ => None end
  | z_enum values =>
      match input with
      | Value.Str x => if arr_includes values x then Some input else None
      | _ => None
      end
  | z_array item =>
      match input with
      | Value.Array items => option_map Value.Array (all_of (parse item) items)
      | _ => None
      end
  | z_object shape =>
      match input with
      | Value.Object _ =>
          option_map Value.Object
            ((fix members (shape : list (jsstring * schema))
                : option (list (jsstring * Value.t)) :=
                match shape with
                | [] => Some []
                | (key, member) :: rest =>
                    match parse member (Value.get key input), members rest with
                    | Some v, Some out =>
                        match v with
                        | Value.Undefined =>
                            if Value.has key input
                            then Some ((key, v) :: out) else Some out
                        | _ => Some ((key, v) :: out)
                        end
                    | _, _ => None
                    end
                end) shape)
      | _ => None
      end
  | z_optional inner =>
      match input with
      | Value.Undefined => Some Value.Undefined
      | _ => parse inner input
      end
  | z_default inner value =>
      match input with
      | Value.Undefined => parse inner value
      | _ => parse inner input
      end
  | z_union options =>
      (fix first (options : list schema) : option Value.t :=
         match options with
         | [] => None
         | candidate :: rest =>
             match parse candidate input with
             | Some v => Some v
             | None => first rest
             end
         end) options
  end.

End Zod.

(** [src/types.ts], schema by schema.  [MigrationStatus] and
    [DomainMigration] are used nowhere and left out. *)
Module Schema.
Import Zod.

Definition DnsRecordType : schema :=
  z_enum [ lit "A"; lit "AAAA"; lit "CNAME"; lit "MX"; lit "TXT";
           lit "NS"; lit "SRV"; lit "CAA"; lit "PTR" ].

Definition CloudflareDnsRecord : schema :=
  z_object
    [ (lit "id", z_string);
      (lit "zone_id", z_optional z_string);
      (lit "zone_name", z_optional z_string);
      (lit "name", z_string);
      (lit "type", DnsRecordType);
      (lit "content", z_string);
      (lit "proxied", z_optional z_boolean);
      (lit "ttl", z_number);
      (lit "priority", z_optional z_number);
      (lit "created_on", z_string);
      (lit "modified_on", z_string);
      (lit "meta",
       z_optional
         (z_object
            [ (lit "auto_added", z_optional z_boolean);
              (lit "managed_by_apps", z_optional z_boolean);
              (lit "managed_by_argo_tunnel", z_optional z_boolean) ])) ].

Definition CloudflareApiResponse : schema :=
  z_object
    [ (lit "success", z_boolean);
      (lit "errors",
       z_array (z_object [ (lit "code", z_number);
                           (lit "message", z_string) ]));
      (lit "messages",
       z_array (z_object [ (lit "code", z_number);
                           (lit "message", z_string) ]));
      (lit "result",
       z_optional
         (z_union [ z_array CloudflareDnsRecord;
                    CloudflareDnsRecord;
                    z_null ]));
      (lit "result_info",
       z_optional
         (z_object [ (lit "page", z_number);
                     (lit "per_page", z_number);
                     (lit "count", z_number);
                     (lit "total_count", z_number) ])) ].

Definition CreateDnsRecordRequest : schema :=
  z_object
    [ (lit "type", DnsRecordType);
      (lit "name", z_string);
      (lit "content", z_string);
      (lit "ttl", z_default (z_optional z_number) (Value.Number (Num 1)));
      (lit "priority", z_optional z_number);
      (lit "proxied", z_optional z_boolean) ].

Definition UpdateDnsRecordRequest : schema :=
  z_object
    [ (lit "type", z_optional DnsRecordType);
      (lit "name", z_optional z_string);
      (lit "content", z_optional z_string);
      (lit "ttl", z_optional z_number);
      (lit "priority", z_optional z_number);
      (lit "proxied", z_optional z_boolean) ].

Definition CloudflareZone : schema :=
  z_object
    [ (lit "id", z_string);
      (lit "name", z_string);
      (lit "status",
       z_enum [ lit "active"; lit "pending"; lit "initializing";
                lit "moved"; lit "deleted"; lit "deactivated" ]);
      (lit "paused", z_boolean);
      (lit "type", z_enum [ lit "full"; lit "partial" ]);
      (lit "development_mode", z_number);
      (lit "name_servers", z_array z_string);
      (lit "original_name_servers", z_optional (z_array z_string));
      (lit "original_registrar", z_optional z_string);
      (lit "original_dnshost", z_optional z_string);
      (lit "modified_on", z_string);
      (lit "created_on", z_string);
      (lit "activated_on", z_optional z_string);
      (lit "meta",
       z_optional
         (z_object
            [ (lit "step", z_optional z_number);
              (lit "custom_certificate_quota", z_optional z_number);
              (lit "page_rule_quota", z_optional z_number);
              (lit "phishing_detected", z_optional z_boolean);
              (lit "multiple_railguns_allowed", z_optional z_boolean) ]));
      (lit "owner",
       z_optional
         (z_object
            [ (lit "id", z_optional z_string);
              (lit "type", z_optional z_string);
              (lit "email", z_optional z_string) ]));
      (lit "account",
       z_optional
         (z_object [ (lit "id", z_string); (lit "name", z_string) ]));
      (lit "permissions", z_optional (z_array z_string));
      (lit "plan",
       z_optional
         (z_object
            [ (lit "id", z_string);
              (lit "name", z_string);
              (lit "price", z_number);
              (lit "currency", z_string);
              (lit "frequency", z_string);
              (lit "is_subscribed", z_boolean);
              (lit "can_subscribe", z_boolean);
              (lit "legacy_id", z_string);
              (lit "legacy_discount", z_boolean);
              (lit "externally_managed", z_boolean) ])) ].

Definition CreateZoneRequest : schema :=
  z_object
    [ (lit "name", z_string);
      (lit "type",
       z_default (z_optional (z_enum [ lit "full"; lit "partial" ]))
                 (Value.Str (lit "full")));
      (lit "jump_start",
       z_default (z_optional z_boolean) (Value.Bool false));
      (lit "account", z_optional (z_object [ (lit "id", z_string) ])) ].

Definition ZoneSettings : schema :=
  z_object
    [ (lit "always_online", z_optional z_string);
      (lit "automatic_https_rewrites", z_optional z_string);
      (lit "brotli", z_optional z_string);
      (lit "browser_cache_ttl", z_optional z_number);
      (lit "browser_check", z_optional z_string);
      (lit "cache_level", z_optional z_string);
      (lit "challenge_ttl", z_optional z_number);
      (lit "ciphers", z_optional (z_array z_string));
      (lit "cname_flattening", z_optional z_string);
      (lit "development_mode", z_optional z_number);
      (lit "email_obfuscation", z_optional z_string);
      (lit "hotlink_protection", z_optional z_string);
      (lit "http2", z_optional z_string);
      (lit "http3", z_optional z_string);
      (lit "ip_geolocation", z_optional z_string);
      (lit "ipv6", z_optional z_string);
      (lit "min_tls_version", z_optional z_string);
      (lit "minify",
       z_optional
         (z_object [ (lit "css", z_string);
                     (lit "html", z_string);
                     (lit "js", z_string) ]));
      (lit "mirage", z_optional z_string);
      (lit "mobile_redirect",
       z_optional
         (z_object [ (lit "status", z_string);
                     (lit "mobile_subdomain", z_string);
                     (lit "strip_uri", z_boolean) ]));
      (lit "opportunistic_encryption", z_optional z_string);
      (lit "opportunistic_onion", z_optional z_string);
      (lit "orange_to_orange", z_optional z_string);
      (lit "origin_error_page_pass_thru", z_optional z_string);
      (lit "polish", z_optional z_string);
      (lit "prefetch_preload", z_optional z_string);
      (lit "privacy_pass", z_optional z_string);
      (lit "pseudo_ipv4", z_optional z_string);
      (lit "rocket_loader", z_optional z_string);
      (lit "security_header",
       z_optional
         (z_object [ (lit "enabled", z_boolean);
                     (lit "max_age", z_number);
                     (lit "include_subdomains", z_boolean);
                     (lit "nosniff", z_boolean);
                     (lit "preload", z_boolean) ]));
      (lit "security_level", z_optional z_string);
      (lit "server_side_exclude", z_optional z_string);
      (lit "sort_query_string_for_cache", z_optional z_string);
      (lit "ssl", z_optional z_string);
      (lit "tls_1_2_only", z_optional z_string);
      (lit "tls_1_3", z_optional z_string);
      (lit "tls_client_auth", z_optional z_string);
      (lit "true_client_ip_header", z_optional z_string);
      (lit "waf", z_optional z_string);
      (lit "websockets", z_optional z_string) ].

Definition DnsRecordImport : schema :=
  z_object
    [ (lit "type", DnsRecordType);
      (lit "name", z_string);
      (lit "content", z_string);
      (lit "ttl", z_optional z_number);
      (lit "priority", z_optional z_number);
      (lit "proxied", z_optional z_boolean) ].

End Schema.

(* ================================================================= *)
(** ** Percent-encoding of query strings *)

Module Url.

(** An upper-case hexadecimal digit. *)
Definition hex_digit (n : Z) : ascii :=
  if n <? 10 then chr (48 + n) else chr (55 + n).

(** [%XX] *)
Definition percent (byte : Z) : jsstring :=
  [ "%"%char; hex_digit (byte / 16); hex_digit (byte mod 16) ].

(** The bytes of the UTF-8 form of a code unit below U+0100. *)
Definition utf8 (c : ascii) : list Z :=
  let n := code c in
  if n <? 128 then [n] else [192 + n / 64; 128 + n mod 64].

Definition alphanumeric (n : Z) : bool :=
  ((48 <=? n) && (n <=? 57)) || ((65 <=? n) && (n <=? 90))
  || ((97 <=? n) && (n <=? 122)).

(** [encodeURIComponent]: the letters, the digits and [-_.!~*'()] stay,
    every other code unit becomes the escapes of its UTF-8 bytes. *)
Definition encodeURIComponent (s : jsstring) : jsstring :=
  flat_map
    (fun c =>
       let n := code c in
       if alphanumeric n
          || existsb (Z.eqb n) [45; 95; 46; 33; 126; 42; 39; 40; 41]
       then [c]
       else flat_map percent (utf8 c))
    s.

(** The serializer of [URLSearchParams] for one name or value: the
    letters, the digits and [*-._] stay, a space becomes [+], every other
    code unit becomes the escapes of its UTF-8 bytes. *)
Definition form_urlencode (s : jsstring) : jsstring :=
  flat_map
    (fun c =>
       let n := code c in
       if alphanumeric n || existsb (Z.eqb n) [42; 45; 46; 95] then [c]
       else if n =? 32 then lit "+"
       else flat_map percent (utf8 c))
    s.

(** [params.toString()] *)
Definition URLSearchParams_toString (params : list (jsstring * jsstring))
  : jsstring :=
  join (lit "&")
       (map (fun kv => form_urlencode (fst kv) ++ lit "=" ++ form_urlencode (snd kv))
            params).

End Url.

(* ================================================================= *)
(** ** Values in template literals *)

(** [`${value}`] and [array.join(separator)] on the values that are
    printed. *)
Module Template.

(** [String(value)] of a value that is no array and no object. *)
Definition scalar (value : Value.t) : jsstring :=
  match value with
  | Value.Undefined => lit "undefined"
  | Value.Null => lit "null"
  | Value.Bool true => lit "true"
  | Value.Bool false => lit "false"
  | Value.Number n => toString n
  | Value.Str s => s
  | Value.Array _ => []            (* see [text] *)
  | Value.Object _ => lit "[object Object]"
  end.

(** An element as [Array.prototype.join] writes it: nothing for
    [undefined] and [null]. *)
Definition element (value : Value.t) : jsstring :=
  match value with
  | Value.Undefined | Value.Null => []
  | _ => scalar value
  end.

(** [value.join(separator)] on an array of scalars *)
Definition joined (separator : jsstring) (value : Value.t) : jsstring :=
  join separator (map element (Value.elements value)).

(** [`${value}`] *)
Definition text (value : Value.t) : jsstring :=
  match value with
  | Value.Array _ => joined (lit ",") value
  | _ => scalar value
  end.

End Template.

(* ================================================================= *)
(** ** [api] and the record and zone operations, down to [fetch] *)

Module Request.
Record t : Type := mk {
  url : jsstring;
  method : jsstring;
  headers : list (jsstring * jsstring);
  body : option Value.t   (* the value that [JSON.stringify] writes out *)
}.
End Request.

(** What the source reads of a [Response]; [json] is [await
    response.json()], which throws when the body is no JSON. *)
Module Response.
Record t : Type := mk {
  ok : bool;
  status : Z;
  statusText : jsstring;
  json : outcome Value.t
}.
End Response.

Module Wire.

(** What a [catch] clause of [api] may receive: an [Error] with its
    [name] and [message], or some other value. *)
Inductive thrown : Type :=
| ErrorObject (name message : jsstring)
| OtherValue.

(** [new Error(message)] *)
Definition new_Error (message : jsstring) : thrown :=
  ErrorObject (lit "Error") message.

Inductive fetched : Type :=
| Fulfilled (response : Response.t)
| Rejected (error : thrown).

(** What this part reaches but does not define: the configuration,
    [fetch] (which rejects with an [AbortError] when the 15 second timer
    of [api] aborts it), and the message that zod gives a [ZodError]. *)
Record World (W : Type) : Type := {
  cloudflareConfig : Config.t;
  fetch : Request.t -> W -> fetched * W;
  ZodError_message : Zod.schema -> Value.t -> jsstring
}.

Section Operations.
Context {W : Type} (world : World W).

Let config := cloudflareConfig world.

(** [schema.parse(input)], throwing *)
Definition parse (s : Zod.schema) (input : Value.t) : outcome Value.t :=
  match Zod.parse s input with
  | Some v => Return v
  | None => Throw (JsError (ZodError_message world s input))
  end.

Definition getHeaders : thrown + list (jsstring * jsstring) :=
  if str_eqb (Config.apiToken config) [] then
    inl (new_Error (lit "Cloudflare API Token not configured"))
  else
    inr [ (lit "Authorization", lit "Bearer " ++ Config.apiToken config);
          (lit "Content-Type", lit "application/json") ].

(** The [catch] clause of [api]. *)
Definition api_catch (error : thrown) : exn :=
  match error with
  | ErrorObject name message =>
      if str_eqb name (lit "AbortError") then
        JsError (lit "Cloudflare API request timed out")
      else
        JsError (lit "Cloudflare API error: " ++ message)
  | OtherValue => JsValue
  end.

(** The [try] block of [api]. *)
Definition api_try (endpoint method : jsstring) (body : option Value.t)
           (useZoneId : bool) : W -> (thrown + Response.t) * W :=
  fun w =>
    if useZoneId && str_eqb (Config.zoneId config) [] then
      (inl (new_Error (lit "Cloudflare Zone ID not configured")), w)
    else
      let url :=
        if useZoneId then
          lit "https://api.cloudflare.com/client/v4/zones/"
            ++ Config.zoneId config ++ lit "/" ++ endpoint
        else lit "https://api.cloudflare.com/client/v4/" ++ endpoint in
      match getHeaders with
      | inl error => (inl error, w)
      | inr headers =>
          match fetch world {| Request.url := url;
                               Request.method := method;
                               Request.headers := headers;
                               Request.body := body |} w with
          | (Rejected error, w') => (inl error, w')
          | (Fulfilled response, w') =>
              if negb (Response.ok response) then
                (inl (new_Error (lit "Cloudflare API error: "
                               ++ toString (Num (Response.status response))
                               ++ lit " " ++ Response.statusText response)),
                 w')
              else (inr response, w')
          end
      end.

Definition api (endpoint method : jsstring) (body : option Value.t)
           (useZoneId : bool) : Async W Response.t :=
  fun w =>
    match api_try endpoint method body useZoneId w with
    | (inr response, w') => (Return response, w')
    | (inl error, w') => (Throw (api_catch error), w')
    end.

(** [new Error(`API Error: ${data.errors.map((e) => e.message).join(", ")}`)] *)
Definition api_error (data : Value.t) : exn :=
  JsError
    (lit "API Error: "
       ++ join (lit ", ")
            (map (fun e => Value.text (Value.get (lit "message") e))
                 (Value.elements (Value.get (lit "errors") data)))).

(** [try { ... } catch (parseError) { throw new Error(`${prefix}${...}`) }] *)
Definition rethrow {T} (prefix : jsstring) (block : outcome T) : outcome T :=
  match block with
  | Return v => Return v
  | Throw parseError =>
      Throw (JsError (prefix ++ error_message parseError))
  end.

(** The [try] block that [listDnsRecords] and [findDnsRecords] share. *)
Definition records_of (rawData : Value.t) : outcome (list Value.t) :=
  match parse Schema.CloudflareApiResponse rawData with
  | Throw e => Throw e
  | Return data =>
      if negb (Value.truthy (Value.get (lit "success") data)) then
        Throw (api_error data)
      else
        let result := Value.get (lit "result") data in
        if negb (Value.truthy result) then Return []
        else
          let records :=
            if Value.isArray result then Value.elements result
            else [result] in
          Return (filter Value.not_null records)
  end.

Definition listDnsRecords : Async W (list Value.t) :=
  response <- api (lit "dns_records") (lit "GET") None true ;;
  rawData <- lift (Response.json response) ;;
  lift (rethrow (lit "Failed to parse API response: ") (records_of rawData)).

(** What [getDnsRecord], [createDnsRecord] and [updateDnsRecord] do with
    a response: one record, or the error with [failure] as message. *)
Definition record_of (failure : jsstring) (rawData : Value.t)
  : outcome Value.t :=
  match parse Schema.CloudflareApiResponse rawData with
  | Throw e => Throw e
  | Return data =>
      if negb (Value.truthy (Value.get (lit "success") data)) then
        Throw (api_error data)
      else
        let result := Value.get (lit "result") data in
        if negb (Value.truthy result) || Value.isArray result then
          Throw (JsError failure)
        else Return result
  end.

Definition getDnsRecord (recordId : jsstring) : Async W Value.t :=
  response <- api (lit "dns_records/" ++ recordId) (lit "GET") None true ;;
  rawData <- lift (Response.json response) ;;
  lift (record_of (lit "DNS record not found") rawData).

Definition createDnsRecord (record : Value.t) : Async W Value.t :=
  validatedRecord <- lift (parse Schema.CreateDnsRecordRequest record) ;;
  response <- api (lit "dns_records") (lit "POST") (Some validatedRecord)
                  true ;;
  rawData <- lift (Response.json response) ;;
  lift (record_of (lit "Failed to create DNS record") rawData).

Definition updateDnsRecord (recordId : jsstring) (updates : Value.t)
  : Async W Value.t :=
  validatedUpdates <- lift (parse Schema.UpdateDnsRecordRequest updates) ;;
  response <- api (lit "dns_records/" ++ recordId) (lit "PATCH")
                  (Some validatedUpdates) true ;;
  rawData <- lift (Response.json response) ;;
  lift (record_of (lit "Failed to update DNS record") rawData).

Definition deleteDnsRecord (recordId : jsstring) : Async W unit :=
  response <- api (lit "dns_records/" ++ recordId) (lit "DELETE") None
                  true ;;
  rawData <- lift (Response.json response) ;;
  data <- lift (parse Schema.CloudflareApiResponse rawData) ;;
  if negb (Value.truthy (Value.get (lit "success") data)) then
    throw (api_error data)
  else ret tt.

(** [if (name) params.append("name", name)] *)
Definition append_if (key : jsstring) (value : option jsstring)
           (params : list (jsstring * jsstring))
  : list (jsstring * jsstring) :=
  match value with
  | Some ((_ :: _) as v) => params ++ [(key, v)]
  | _ => params
  end.

(** The endpoint that [findDnsRecords] puts together. *)
Definition find_endpoint (name type : option jsstring) : jsstring :=
  let endpoint := lit "dns_records" in
  let params := [] in
  let params := append_if (lit "name") name params in
  let params := append_if (lit "type") type params in
  if negb (str_eqb (Url.URLSearchParams_toString params) []) then
    endpoint ++ lit "?" ++ Url.URLSearchParams_toString params
  else endpoint.

Definition findDnsRecords (name type : option jsstring)
  : Async W (list Value.t) :=
  let endpoint := find_endpoint name type in
  response <- api endpoint (lit "GET") None true ;;
  rawData <- lift (Response.json response) ;;
  lift (rethrow (lit "Failed to parse API response: ") (records_of rawData)).

(** The [try] block that [createZone] and [getZone] share. *)
Definition zone_of (failure : jsstring) (rawData : Value.t)
  : outcome Value.t :=
  match parse Schema.CloudflareApiResponse rawData with
  | Throw e => Throw e
  | Return data =>
      if negb (Value.truthy (Value.get (lit "success") data)) then
        Throw (api_error data)
      else
        let result := Value.get (lit "result") data in
        if negb (Value.truthy result) || Value.isArray result then
          Throw (JsError failure)
        else parse Schema.CloudflareZone result
  end.

Definition createZone (zoneData : Value.t) : Async W Value.t :=
  validatedZone <- lift (parse Schema.CreateZoneRequest zoneData) ;;
  response <- api (lit "zones") (lit "POST") (Some validatedZone) false ;;
  rawData <- lift (Response.json response) ;;
  lift (rethrow (lit "Failed to parse zone creation response: ")
                (zone_of (lit "Failed to create zone") rawData)).

Definition getZone (zoneId : option jsstring) : Async W Value.t :=
  let targetZoneId := str_or zoneId (Config.zoneId config) in
  if str_eqb targetZoneId [] then
    throw (JsError (lit "Zone ID not provided and not configured"))
  else
    response <- api (lit "zones/" ++ targetZoneId) (lit "GET") None false ;;
    rawData <- lift (Response.json response) ;;
    lift (rethrow (lit "Failed to parse zone response: ")
                  (zone_of (lit "Zone not found") rawData)).

(** [zones.filter(...).map((zone) => CloudflareZone.parse(zone))] *)
Fixpoint zones_of (zones : list Value.t) : outcome (list Value.t) :=
  match zones with
  | [] => Return []
  | zone :: rest =>
      match parse Schema.CloudflareZone zone with
      | Throw e => Throw e
      | Return z =>
          match zones_of rest with
          | Throw e => Throw e
          | Return zs => Return (z :: zs)
          end
      end
  end.

(** The endpoint that [listZones] puts together. *)
Definition zones_endpoint (name : option jsstring) : jsstring :=
  let endpoint := lit "zones" in
  match name with
  | Some ((_ :: _) as n) =>
      endpoint ++ lit "?name=" ++ Url.encodeURIComponent n
  | _ => endpoint
  end.

Definition listZones (name : option jsstring) : Async W (list Value.t) :=
  let endpoint := zones_endpoint name in
  response <- api endpoint (lit "GET") None false ;;
  rawData <- lift (Response.json response) ;;
  lift (rethrow (lit "Failed to parse zones list response: ")
          match parse Schema.CloudflareApiResponse rawData with
          | Throw e => Throw e
          | Return data =>
              if negb (Value.truthy (Value.get (lit "success") data)) then
                Throw (api_error data)
              else
                let result := Value.get (lit "result") data in
                if negb (Value.truthy result) then Return []
                else
                  let zones :=
                    if Value.isArray result then Value.elements result
                    else [result] in
                  zones_of (filter Value.not_null zones)
          end).

Definition updateZoneSettings (settings : Value.t) (zoneId : option jsstring)
  : Async W Value.t :=
  let targetZoneId := str_or zoneId (Config.zoneId config) in
  if str_eqb targetZoneId [] then
    throw (JsError (lit "Zone ID not provided and not configured"))
  else
    validatedSettings <- lift (parse Schema.ZoneSettings settings) ;;
    response <- api (lit "zones/" ++ targetZoneId ++ lit "/settings")
                    (lit "PATCH") (Some validatedSettings) false ;;
    rawData <- lift (Response.json response) ;;
    lift (rethrow (lit "Failed to parse zone settings response: ")
            match parse Schema.CloudflareApiResponse rawData with
            | Throw e => Throw e
            | Return data =>
                if negb (Value.truthy (Value.get (lit "success") data)) then
                  Throw (api_error data)
                else
                  let result := Value.get (lit "result") data in
                  if negb (Value.truthy result) || Value.isArray result then
                    Throw (JsError (lit "Failed to update zone settings"))
                  else parse Schema.ZoneSettings result
            end).

(** [validateZoneSetup], with the [catch] clause at each [await] as in
    the first model; [zone] is what [CloudflareZone.parse] returned. *)
Definition validateZoneSetup (zoneId : jsstring)
  : Async W ValidationResult.t :=
  let failed (issues : list jsstring) (error : exn) :=
    ret {| ValidationResult.valid := false;
           ValidationResult.issues :=
             issues ++ [lit "Failed to validate zone: "
                          ++ error_message error] |} in
  let issues := [] in
  try_catch
    (zone <- getZone (Some zoneId) ;;
     let status := Value.get (lit "status") zone in
     let name_servers := Value.get (lit "name_servers") zone in
     let issues :=
       if negb (str_eqb (Value.text status) (lit "active")) then
         issues ++ [lit "Zone status is " ++ Template.text status
                      ++ lit ", should be active"]
       else issues in
     let issues :=
       if negb (Value.truthy name_servers)
          || (length (Value.elements name_servers) =? 0)%nat then
         issues ++ [lit "No nameservers found for zone"]
       else issues in
     try_catch
       (dnsRecords <- listDnsRecords ;;
        let issues :=
          if (length dnsRecords =? 0)%nat then
            issues ++ [lit "No DNS records found in zone"]
          else issues in
        ret {| ValidationResult.valid := (length issues =? 0)%nat;
               ValidationResult.issues := issues |})
       (failed issues))
    (failed issues).

End Operations.
End Wire.

(* ================================================================= *)
(** ** The handlers of the zone tools, down to [fetch] *)

Module ZoneTools.

Section Handlers.
Context {W : Type} (world : Wire.World W) (config : option ServerConfig.t).

(** [new Date(text).toLocaleString()], which depends on the locale and
    the time zone of the process. *)
Variable toLocaleString : jsstring -> jsstring.

(** [configureApiIfNeeded], as for the other handlers: the world as
    configured where the source returns [true]. *)
Definition configureApiIfNeeded : option (Wire.World W) :=
  match config with
  | Some c =>
      if negb (str_eqb (ServerConfig.cloudflareApiToken c) [])
         && negb (str_eqb (ServerConfig.cloudflareZoneId c) [])
      then Some {| Wire.cloudflareConfig := configure c;
                   Wire.fetch := Wire.fetch world;
                   Wire.ZodError_message := Wire.ZodError_message world |}
      else None
  | None => None
  end.

(** The frame of the three handlers, as for the other handlers:
    [first] is the member of [args] that is read first. *)
Definition handler {A : Type} (failure : jsstring) (args : option A)
           (first : jsstring)
           (body : Wire.World W -> A -> Async W ToolResult.t)
  : Async W ToolResult.t :=
  try_catch
    (match configureApiIfNeeded with
     | None =>
         ret (text_result
                (lit "❌ Configuration incomplete. Please configure Cloudflare API Token first."))
     | Some api =>
         match args with
         | None => throw (undefined_read first)
         | Some args => body api args
         end
     end)
    (fun error => ret (text_result (failure ++ error_message error))).

Definition handleCreateZone (args : option CreateZoneArgs.t)
  : Async W ToolResult.t :=
  handler (lit "❌ Error creating zone: ") args (lit "name")
    (fun api args =>
       zone <- Wire.createZone api
                 (Value.Object
                    [ (lit "name", Value.Str (CreateZoneArgs.name args));
                      (lit "type",
                       Value.Str (str_or (CreateZoneArgs.type args)
                                         (lit "full")));
                      (lit "jump_start",
                       Value.Bool match CreateZoneArgs.jump_start args with
                                  | Some true => true
                                  | _ => false
                                  end) ]) ;;
       ret (text_result
              (lit "✅ Zone created successfully!" ++ [LF]
                 ++ lit "🔹 Domain: "
                 ++ Template.text (Value.get (lit "name") zone) ++ [LF]
                 ++ lit "🔹 Zone ID: "
                 ++ Template.text (Value.get (lit "id") zone) ++ [LF]
                 ++ lit "🔹 Status: "
                 ++ Template.text (Value.get (lit "status") zone) ++ [LF]
                 ++ lit "🔹 Type: "
                 ++ Template.text (Value.get (lit "type") zone) ++ [LF]
                 ++ lit "🔹 Nameservers: "
                 ++ Template.joined (lit ", ")
                      (Value.get (lit "name_servers") zone) ++ [LF]
                 ++ lit "🔹 Created: "
                 ++ toLocaleString
                      (Template.text (Value.get (lit "created_on") zone))
                 ++ [LF; LF]
                 ++ lit "Next steps:" ++ [LF]
                 ++ lit "1. Update your domain's nameservers to: "
                 ++ Template.joined (lit ", ")
                      (Value.get (lit "name_servers") zone) ++ [LF]
                 ++ lit "2. Import your DNS records using the import_dns_records tool"
                 ++ [LF]
                 ++ lit "3. Monitor propagation with check_nameserver_propagation tool"))).

(** The text that [handleGetZone] makes of a zone. *)
Definition zone_information (zone : Value.t) : jsstring :=
  lit "✅ Zone Information:" ++ [LF]
    ++ lit "🔹 Domain: " ++ Template.text (Value.get (lit "name") zone)
    ++ [LF]
    ++ lit "🔹 Zone ID: " ++ Template.text (Value.get (lit "id") zone)
    ++ [LF]
    ++ lit "🔹 Status: " ++ Template.text (Value.get (lit "status") zone)
    ++ [LF]
    ++ lit "🔹 Type: " ++ Template.text (Value.get (lit "type") zone)
    ++ [LF]
    ++ lit "🔹 Paused: "
    ++ (if Value.truthy (Value.get (lit "paused") zone)
        then lit "Yes" else lit "No")
    ++ [LF]
    ++ lit "🔹 Development Mode: "
    ++ Template.text (Value.get (lit "development_mode") zone) ++ [LF]
    ++ lit "🔹 Nameservers: "
    ++ Template.joined (lit ", ") (Value.get (lit "name_servers") zone)
    ++ [LF]
    ++ (if Value.truthy (Value.get (lit "original_name_servers") zone)
        then lit "🔹 Original Nameservers: "
               ++ Template.joined
                    (lit ", ")
                    (Value.get (lit "original_name_servers") zone)
        else [])
    ++ [LF]
    ++ lit "🔹 Created: "
    ++ toLocaleString (Template.text (Value.get (lit "created_on") zone))
    ++ [LF]
    ++ lit "🔹 Modified: "
    ++ toLocaleString (Template.text (Value.get (lit "modified_on") zone))
    ++ [LF]
    ++ (if Value.truthy (Value.get (lit "activated_on") zone)
        then lit "🔹 Activated: "
               ++ toLocaleString
                    (Template.text (Value.get (lit "activated_on") zone))
        else []).

Definition handleGetZone (args : option GetZoneArgs.t)
  : Async W ToolResult.t :=
  handler (lit "❌ Error getting zone: ") args (lit "zoneId")
    (fun api args =>
       match GetZoneArgs.zoneId args, GetZoneArgs.domain args with
       | Some ((_ :: _) as id), _ =>
           zone <- Wire.getZone api (Some id) ;;
           ret (text_result (zone_information zone))
       | _, Some ((_ :: _) as d) =>
           zones <- Wire.listZones api (Some d) ;;
           match zones with
           | [] =>
               ret (text_result (lit "❌ No zone found for domain: " ++ d))
           | zone :: _ => ret (text_result (zone_information zone))
           end
       | _, _ =>
           zone <- Wire.getZone api None ;;
           ret (text_result (zone_information zone))
       end).

Definition handleListZones (args : option ListZonesArgs.t)
  : Async W ToolResult.t :=
  handler (lit "❌ Error listing zones: ") args (lit "name")
    (fun api args =>
       zones <- Wire.listZones api (ListZonesArgs.name args) ;;
       if (length zones =? 0)%nat then
         ret (text_result (lit "No zones found matching the criteria."))
       else
         let zonesText :=
           join [LF]
             (map (fun zone =>
                     lit "🔹 " ++ Template.text (Value.get (lit "name") zone)
                       ++ lit " ("
                       ++ Template.text (Value.get (lit "status") zone)
                       ++ lit ") - ID: "
                       ++ Template.text (Value.get (lit "id") zone)
                       ++ lit " - Type: "
                       ++ Template.text (Value.get (lit "type") zone))
                  zones) in
         ret (text_result
                (lit "✅ Found " ++ length_text zones ++ lit " zone(s):"
                   ++ [LF; LF] ++ zonesText))).

End Handlers.
End ZoneTools.

(* ================================================================= *)
(** ** A provider for the examples *)

Module WireDemo.

(** The world is the list of requests sent so far, oldest first. *)
Definition world : Type := list Request.t.

Definition record (id name type content : jsstring) (ttl : Z) : Value.t :=
  Value.Object
    [ (lit "id", Value.Str id);
      (lit "zone_id", Value.Str (lit "zoneA"));
      (lit "name", Value.Str name);
      (lit "type", Value.Str type);
      (lit "content", Value.Str content);
      (lit "proxiable", Value.Bool true);
      (lit "proxied", Value.Bool false);
      (lit "ttl", Value.Number (Num ttl));
      (lit "created_on", Value.Str (lit "2024-01-01T00:00:00Z"));
      (lit "modified_on", Value.Str (lit "2024-01-01T00:00:00Z")) ].

(** A zone as the provider describes it. *)
Definition zone (id name : jsstring) : Value.t :=
  Value.Object
    [ (lit "id", Value.Str id);
      (lit "name", Value.Str name);
      (lit "status", Value.Str (lit "active"));
      (lit "paused", Value.Bool false);
      (lit "type", Value.Str (lit "full"));
      (lit "development_mode", Value.Number (Num 0));
      (lit "name_servers",
       Value.Array [ Value.Str (lit "ada.ns.provider.example");
                     Value.Str (lit "bob.ns.provider.example") ]);
      (lit "modified_on", Value.Str (lit "2024-01-01T00:00:00Z"));
      (lit "created_on", Value.Str (lit "2024-01-01T00:00:00Z")) ].

(** The envelope of a success. *)
Definition success (result : Value.t) : Value.t :=
  Value.Object
    [ (lit "success", Value.Bool true);
      (lit "errors", Value.Array []);
      (lit "messages", Value.Array []);
      (lit "result", result) ].

Definition answer (raw : Value.t) : Response.t :=
  {| Response.ok := true; Response.status := 200;
     Response.statusText := lit "OK"; Response.json := Return raw |}.

Definition not_found : Response.t :=
  {| Response.ok := false; Response.status := 404;
     Response.statusText := lit "Not Found";
     Response.json := Throw (JsError (lit "Unexpected end of JSON input")) |}.

Definition v4 : jsstring := lit "https://api.cloudflare.com/client/v4/".

(** The account holds zone [zoneA] with one record [r1], and no zone
    for [nothing.example].  A deletion is answered with the id of what
    was deleted, a change of settings with the record [r1]. *)
Definition respond (request : Request.t) : Response.t :=
  let url := Request.url request in
  let method := Request.method request in
  if str_eqb method (lit "GET")
     && str_eqb url (v4 ++ lit "zones/zoneA/dns_records") then
    answer (success
              (Value.Array
                 [record (lit "r1") (lit "example.com") (lit "A")
                         (lit "192.0.2.1") 300]))
  else if str_eqb method (lit "GET")
          && str_eqb url (v4 ++ lit "zones/zoneA") then
    answer (success (zone (lit "zoneA") (lit "example.com")))
  else if str_eqb method (lit "GET")
          && str_eqb url (v4 ++ lit "zones?name=nothing.example") then
    answer (success (Value.Array []))
  else if str_eqb method (lit "DELETE")
          && str_eqb url (v4 ++ lit "zones/zoneA/dns_records/r1") then
    answer (success (Value.Object [ (lit "id", Value.Str (lit "r1")) ]))
  else if str_eqb method (lit "PATCH")
          && str_eqb url (v4 ++ lit "zones/zoneA/settings") then
    answer (success
              (record (lit "r1") (lit "example.com") (lit "A")
                      (lit "192.0.2.1") 300))
  else not_found.

Definition fetch (request : Request.t) (w : world) : Wire.fetched * world :=
  (Wire.Fulfilled (respond request), w ++ [request]).

(** The provider seen with the given token, [zoneA] configured. *)
Definition provider (apiToken : jsstring) : Wire.World world :=
  {| Wire.cloudflareConfig :=
       {| Config.apiToken := apiToken; Config.zoneId := lit "zoneA" |};
     Wire.fetch := fetch;
     Wire.ZodError_message := fun _ _ => lit "[ZodError]" |}.

End WireDemo.

(** A provider whose account holds one zone, [zoneB], which is pending,
    has two name servers and holds no record; [zoneB] is the configured
    zone. *)
Module PendingDemo.

Definition zone : Value.t :=
  Value.Object
    [ (lit "id", Value.Str (lit "zoneB"));
      (lit "name", Value.Str (lit "example.org"));
      (lit "status", Value.Str (lit "pending"));
      (lit "paused", Value.Bool false);
      (lit "type", Value.Str (lit "full"));
      (lit "development_mode", Value.Number (Num 0));
      (lit "name_servers",
       Value.Array [ Value.Str (lit "ada.ns.provider.example");
                     Value.Str (lit "bob.ns.provider.example") ]);
      (lit "modified_on", Value.Str (lit "2024-01-01T00:00:00Z"));
      (lit "created_on", Value.Str (lit "2024-01-01T00:00:00Z")) ].

Definition respond (request : Request.t) : Response.t :=
  let url := Request.url request in
  let method := Request.method request in
  if str_eqb method (lit "GET")
     && str_eqb url (WireDemo.v4 ++ lit "zones/zoneB") then
    WireDemo.answer (WireDemo.success zone)
  else if str_eqb method (lit "GET")
          && str_eqb url (WireDemo.v4 ++ lit "zones/zoneB/dns_records") then
    WireDemo.answer (WireDemo.success (Value.Array []))
  else WireDemo.not_found.

Definition fetch (request : Request.t) (w : WireDemo.world)
  : Wire.fetched * WireDemo.world :=
  (Wire.Fulfilled (respond request), w ++ [request]).

Definition provider : Wire.World WireDemo.world :=
  {| Wire.cloudflareConfig :=
       {| Config.apiToken := lit "token"; Config.zoneId := lit "zoneB" |};
     Wire.fetch := fetch;
     Wire.ZodError_message := fun _ _ => lit "[ZodError]" |}.

(** The request that reads [zoneB]. *)
Definition get_zone : Request.t :=
  {| Request.url := WireDemo.v4 ++ lit "zones/zoneB";
     Request.method := lit "GET";
     Request.headers :=
       [ (lit "Authorization", lit "Bearer token");
         (lit "Content-Type", lit "application/json") ];
     Request.body := None |}.

(** The request that lists the records of [zoneB]. *)
Definition get_dns_records : Request.t :=
  {| Request.url := WireDemo.v4 ++ lit "zones/zoneB/dns_records";
     Request.method := lit "GET";
     Request.headers :=
       [ (lit "Authorization", lit "Bearer token");
         (lit "Content-Type", lit "application/json") ];
     Request.body := None |}.

End PendingDemo.

(* ================================================================= *)
(** ** Descriptors before the schema *)

(** A descriptor as the value that [DnsRecordImport.parse] is given.  A
    member that is [undefined] is left out; the schema reads a member
    that is absent and one that is [undefined] alike. *)
Definition descriptor_value (d : DnsRecordImport.t) : Value.t :=
  Value.Object
    ([ (lit "type",
        Value.Str (DnsRecordType.toString (DnsRecordImport.type d)));
       (lit "name", Value.Str (DnsRecordImport.name d));
       (lit "content", Value.Str (DnsRecordImport.content d)) ]
       ++ match DnsRecordImport.ttl d with
          | Some n => [ (lit "ttl", Value.Number n) ]
          | None => []
          end
       ++ match DnsRecordImport.priority d with
          | Some n => [ (lit "priority", Value.Number n) ]
          | None => []
          end
       ++ match DnsRecordImport.proxied d with
          | Some b => [ (lit "proxied", Value.Bool b) ]
          | None => []
          end).

(** A world in which the resolver knows one thing, a mail exchanger of
    [example.com] whose data starts with a space. *)
Module LeadingSpaceDemo.

Definition resolver : list (jsstring * list DnsAnswer.t) :=
  [ (resolve_url (lit "example.com") (lit "MX"),
     [Demo.answer 15 (lit " 10 mail.example.com.") (Some 3600)]) ].

Definition fetch (url : jsstring) : Async Demo.world DnsJson.t :=
  fun w =>
    (Return
       match find (fun kv => str_eqb (fst kv) url) resolver with
       | Some (_, answers) =>
           {| DnsJson.Status := 0; DnsJson.Answer := Some answers |}
       | None => {| DnsJson.Status := 3; DnsJson.Answer := None |}
       end,
     Demo.sent (lit "GET") url w).

Definition env : Env Demo.world :=
  {| cloudflareConfig := cloudflareConfig Demo.env;
     fetch_json := fetch;
     DnsRecordImport_parse := DnsRecordImport_parse Demo.env;
     CreateDnsRecordRequest_parse := CreateDnsRecordRequest_parse Demo.env;
     CreateZoneRequest_parse := CreateZoneRequest_parse Demo.env;
     rest_get_dns_records := rest_get_dns_records Demo.env;
     rest_post_dns_record := rest_post_dns_record Demo.env;
     rest_get_zone := rest_get_zone Demo.env;
     rest_post_zone := rest_post_zone Demo.env |}.

End LeadingSpaceDemo.

(** The world of the examples with a policy record for [example.com],
    and with [DnsRecordImport.parse] as the schema has it. *)
Module SpfDemo.

Definition resolver : list (jsstring * list DnsAnswer.t) :=
  Demo.resolver
    ++ [ (resolve_url (lit "example.com") (lit "TXT"),
          [Demo.answer 16 (lit "v=spf1 -all") (Some 300)]) ].

Definition fetch (url : jsstring) : Async Demo.world DnsJson.t :=
  fun w =>
    (Return
       match find (fun kv => str_eqb (fst kv) url) resolver with
       | Some (_, answers) =>
           {| DnsJson.Status := 0; DnsJson.Answer := Some answers |}
       | None => {| DnsJson.Status := 3; DnsJson.Answer := None |}
       end,
     Demo.sent (lit "GET") url w).

Definition parse (d : DnsRecordImport.t) : outcome DnsRecordImport.t :=
  match Zod.parse Schema.DnsRecordImport (descriptor_value d) with
  | Some _ => Return d
  | None => Throw (JsError (lit "[ZodError]"))
  end.

Definition env : Env Demo.world :=
  {| cloudflareConfig := cloudflareConfig Demo.env;
     fetch_json := fetch;
     DnsRecordImport_parse := parse;
     CreateDnsRecordRequest_parse := CreateDnsRecordRequest_parse Demo.env;
     CreateZoneRequest_parse := CreateZoneRequest_parse Demo.env;
     rest_get_dns_records := rest_get_dns_records Demo.env;
     rest_post_dns_record := rest_post_dns_record Demo.env;
     rest_get_zone := rest_get_zone Demo.env;
     rest_post_zone := rest_post_zone Demo.env |}.

End SpfDemo.

(* ================================================================= *)
(** ** The vocabulary of the statements *)

Unset Implicit Arguments.

(** *** Strings *)

(** No code unit of the string is whitespace. *)
Definition ws_free (s : jsstring) : bool :=
  forallb (fun c => negb (is_ws c)) s.

(** [s.length > 0] *)
Definition non_empty (s : jsstring) : bool :=
  match s with [] => false | _ :: _ => true end.

(** The words of a string: its maximal runs of non-whitespace. *)
Definition words (s : jsstring) : list jsstring :=
  filter non_empty (split_ws_from true s).

(** A string with its runs of whitespace collapsed to one space each
    and the whitespace at its ends removed. *)
Definition collapse (s : jsstring) : jsstring := join (lit " ") (words s).

(** The first whitespace-delimited word of a string, or the empty
    string when it has none. *)
Definition first_word (s : jsstring) : jsstring := nth 0 (words s) [].

(** No code unit of the string is a line feed. *)
Definition no_lf (s : jsstring) : bool :=
  forallb (fun c => negb (Ascii.eqb c LF)) s.

(** A decimal digit. *)
Definition is_digit (c : ascii) : bool := (48 <=? code c) && (code c <=? 57).
Arguments is_digit : simpl never.

(** The value of a run of decimal digits read after [a]. *)
Definition read_digits (ds : jsstring) (a : Z) : Z :=
  fold_left (fun a c => a * 10 + (code c - 48)) ds a.

(** *** Detection and propagation *)

(** The answers that count for a query: those of a response that
    arrived with [Status] 0, whose type code is the expected one. *)
Definition counted_answers (expected : Z) (response : outcome DnsJson.t)
  : list DnsAnswer.t :=
  match response with
  | Return data =>
      match DnsJson.Answer data with
      | Some answers =>
          if DnsJson.Status data =? 0
          then filter (fun a => DnsAnswer.type a =? expected) answers
          else []
      | None => []
      end
  | Throw _ => []
  end.

(** The query of the base-domain phase for a record type. *)
Definition base_query (domain : jsstring) (recordType : DnsRecordType.t)
  : jsstring :=
  resolve_url domain (DnsRecordType.toString recordType).

(** What the base-domain phase is to add for [types] from the world
    [w], and the world it is to leave: one query per record type, in
    order, each in the world that the one before left, and one record
    for each answer that counts, in the order of the answers. *)
Fixpoint base_phase_records {W : Type} (env : Env W) (domain : jsstring)
         (types : list DnsRecordType.t) (w : W)
  : list DnsRecordImport.t * W :=
  match types with
  | [] => ([], w)
  | recordType :: rest =>
      let response := fetch_json env (base_query domain recordType) w in
      let later := base_phase_records env domain rest (snd response) in
      (map (base_record recordType domain)
           (counted_answers
              (getDnsTypeNumber (DnsRecordType.toString recordType))
              (fst response))
         ++ fst later,
       snd later)
  end.

(** The priority of a descriptor as its content spells it, code unit by
    code unit: none when the content has no space, and otherwise the
    integer parse of what stands before the first space. *)
Definition priority_before_space (d : DnsRecordImport.t) : Prop :=
  (~ In " "%char (DnsRecordImport.content d) ->
   DnsRecordImport.priority d = None)
  /\ (forall before rest,
         DnsRecordImport.content d = before ++ " "%char :: rest ->
         ~ In " "%char before ->
         DnsRecordImport.priority d = Some (parseInt before)).

(** What the subdomain phase may add for [domain]. *)
Definition subdomain_A_record (domain : jsstring) (d : DnsRecordImport.t)
  : Prop :=
  DnsRecordImport.type d = DnsRecordType.A
  /\ DnsRecordImport.proxied d = Some false
  /\ DnsRecordImport.priority d = None
  /\ exists subdomain,
      In subdomain commonSubdomains
      /\ DnsRecordImport.name d = subdomain ++ lit "." ++ domain.

(** Some NS answer (type code 2) spells [ns], letter case apart. *)
Definition resolved_ns (answers : list DnsAnswer.t) (ns : jsstring) : Prop :=
  exists a,
    In a answers
    /\ DnsAnswer.type a = 2
    /\ toLowerCase (DnsAnswer.data a) = toLowerCase ns.

(** *** Replication, migration and validation *)

(** The result of [replicateDnsRecords] when its [catch] clause runs. *)
Definition replication_failed (e : exn) : ReplicationResult.t :=
  {| ReplicationResult.detected := [];
     ReplicationResult.replicated := [];
     ReplicationResult.errors :=
       [lit "Failed to replicate DNS records: " ++ error_message e] |}.

(** The result of [replicateDnsRecords] when nothing was detected. *)
Definition nothing_detected : ReplicationResult.t :=
  {| ReplicationResult.detected := [];
     ReplicationResult.replicated := [];
     ReplicationResult.errors :=
       [lit "No DNS records detected for the domain"] |}.

(** The number of create-record calls that throw while the import loop
    runs over [records] from the world [w]. *)
Fixpoint failed_creations {W : Type} (env : Env W)
         (records : list DnsRecordImport.t) (w : W) : nat :=
  match records with
  | [] => O
  | record :: rest =>
      match createDnsRecord env (createRecordData record) w with
      | (Return _, w') => failed_creations env rest w'
      | (Throw _, w') => S (failed_creations env rest w')
      end
  end.

(** The creations that the loop of [importZoneFile] is to attempt from
    the world [w]: one for each record of the file, in order, each in
    the world that the one before left, with what came of it; and the
    world that the last one leaves. *)
Fixpoint zone_file_attempts {W : Type} (env : Env W)
         (records : list CreateDnsRecord.t) (w : W)
  : list (CreateDnsRecord.t * outcome DnsRecord.t) * W :=
  match records with
  | [] => ([], w)
  | record :: rest =>
      let attempt := createDnsRecord env record w in
      let later := zone_file_attempts env rest (snd attempt) in
      ((record, fst attempt) :: fst later, snd later)
  end.

(** The records of the attempts that returned. *)
Definition created_records
           (attempts : list (CreateDnsRecord.t * outcome DnsRecord.t))
  : list DnsRecord.t :=
  flat_map (fun attempt =>
              match snd attempt with
              | Return createdRecord => [createdRecord]
              | Throw _ => []
              end)
           attempts.

(** One message for each attempt that threw: the name of the record and
    the cause. *)
Definition import_failures
           (attempts : list (CreateDnsRecord.t * outcome DnsRecord.t))
  : list jsstring :=
  flat_map (fun attempt =>
              match snd attempt with
              | Return _ => []
              | Throw error =>
                  [lit "Failed to import record "
                     ++ CreateDnsRecord.name (fst attempt) ++ lit ": "
                     ++ error_message error]
              end)
           attempts.

(** The steps that a migration prints once the zone exists. *)
Definition migration_steps (zone : Zone.t) (errors : list jsstring)
  : list jsstring :=
  [ lit "1. Update your domain's nameservers at your registrar to: "
      ++ join (lit ", ") (Zone.name_servers zone);
    lit "2. Monitor nameserver propagation using check_nameserver_propagation tool";
    lit "3. Validate setup using validate_zone_setup tool with zone ID: "
      ++ Zone.id zone ]
    ++ match errors with
       | [] => []
       | _ :: _ =>
           [ lit "4. Review and fix any DNS record import errors: "
               ++ join (lit ", ") errors ]
       end.

(** The issue that the status check pushes. *)
Definition status_issues (zone : Zone.t) : list jsstring :=
  if ZoneStatus.is_active (Zone.status zone) then []
  else [lit "Zone status is " ++ ZoneStatus.toString (Zone.status zone)
          ++ lit ", should be active"].

(** The issue that the name-server check pushes. *)
Definition nameserver_issues (zone : Zone.t) : list jsstring :=
  match Zone.name_servers zone with
  | [] => [lit "No nameservers found for zone"]
  | _ :: _ => []
  end.

(** The issue that the record check pushes. *)
Definition record_issues (dnsRecords : list DnsRecord.t) : list jsstring :=
  match dnsRecords with
  | [] => [lit "No DNS records found in zone"]
  | _ :: _ => []
  end.

(** The result of [validateZoneSetup] when its [catch] clause runs with
    [issues] pushed so far. *)
Definition validation_failed (issues : list jsstring) (e : exn)
  : ValidationResult.t :=
  {| ValidationResult.valid := false;
     ValidationResult.issues :=
       issues ++ [lit "Failed to validate zone: " ++ error_message e] |}.

(** *** Zone files *)

(** The state in which [parseZoneFile] enters its loop. *)
Definition initial_parser : zone_parser :=
  {| records := []; defaultTtl := Num 300; origin := [] |}.

(** A [$ORIGIN] directive with nothing after it: the one line on which
    [parseZoneFile] throws. *)
Definition bare_origin (line : jsstring) : bool :=
  startsWith (trim line) (lit "$ORIGIN")
  && (length (split_ws (trim line)) <? 2)%nat.

(** The name column of [exportZoneFile]. *)
Definition exported_name (zone_name : jsstring) (record : DnsRecord.t)
  : jsstring :=
  if str_eqb (DnsRecord.name record) zone_name then lit "@"
  else replace (DnsRecord.name record) (lit "." ++ zone_name) [].

(** The priority column of [exportZoneFile], with its space. *)
Definition exported_priority (record : DnsRecord.t) : jsstring :=
  match DnsRecord.priority record with
  | Some p => if truthy p then toString p ++ lit " " else []
  | None => []
  end.

(** A line of the export without its line feed. *)
Definition line_body (zone_name : jsstring) (record : DnsRecord.t)
  : jsstring :=
  exported_name zone_name record ++ TAB
    ++ toString (num_or (DnsRecord.ttl record) (Num 300)) ++ TAB
    ++ lit "IN" ++ TAB
    ++ DnsRecordType.toString (DnsRecord.type record) ++ TAB
    ++ exported_priority record ++ DnsRecord.content record.

(** The first line of an export. *)
Definition origin_line (zone_name : jsstring) : jsstring :=
  lit "$ORIGIN " ++ zone_name ++ lit ".".

(** A name that can stand in the first column: not empty, no
    whitespace, and not the start of a comment or of a directive. *)
Definition name_token (n : jsstring) : bool :=
  non_empty n && ws_free n
  && negb (startsWith n (lit ";")) && negb (startsWith n (lit "$")).

(** The record that a line [name ttl IN type rest] becomes. *)
Definition line_record (st : zone_parser) (n : jsstring) (z : Z)
           (ty : DnsRecordType.t) (rest : jsstring) : CreateDnsRecord.t :=
  {| CreateDnsRecord.type := ty;
     CreateDnsRecord.name :=
       (let name := if str_eqb n (lit "@") then origin st else n in
        if endsWith name (lit ".") then slice_0_m1 name else name);
     CreateDnsRecord.content := collapse rest;
     CreateDnsRecord.ttl := Num z;
     CreateDnsRecord.priority :=
       if str_eqb (DnsRecordType.toString ty) (lit "MX")
          && (1 <=? length (words rest))%nat
       then Some (parseInt (nth 0 (words rest) []))
       else None;
     CreateDnsRecord.proxied := Some false |}.

(** A zone name that the [$ORIGIN] line carries unharmed. *)
Definition plain_zone (zone_name : jsstring) : bool :=
  ws_free zone_name && negb (endsWith zone_name (lit ".")).

(** A relative name that comes back as it was written. *)
Definition plain_name (n : jsstring) : bool :=
  name_token n && negb (endsWith n (lit ".")) && negb (str_eqb n (lit "@")).

(** [record.priority] is absent, or a number that the export does not
    print. *)
Definition no_priority (record : DnsRecord.t) : bool :=
  match DnsRecord.priority record with
  | Some p => negb (truthy p)
  | None => true
  end.

(** The records that the round trip is stated for: a type that the
    parser knows (all but PTR), no priority, a name that is the zone name
    or is exported as a plain relative name, and a content without line
    feed. *)
Definition exportable (zone_name : jsstring) (record : DnsRecord.t) : bool :=
  arr_includes zoneFileTypes (DnsRecordType.toString (DnsRecord.type record))
  && no_priority record
  && (str_eqb (DnsRecord.name record) zone_name
      || plain_name (replace (DnsRecord.name record)
                             (lit "." ++ zone_name) []))
  && no_lf (DnsRecord.content record).

(** The name of a record after the round trip: the zone name for the
    apex, and otherwise the name with its first [.zone] removed. *)
Definition relative_name (zone_name : jsstring) (record : DnsRecord.t)
  : jsstring :=
  if str_eqb (DnsRecord.name record) zone_name then zone_name
  else replace (DnsRecord.name record) (lit "." ++ zone_name) [].

(** What the parser gives back for an exported record. *)
Definition read_back (zone_name : jsstring) (record : DnsRecord.t)
           (parsed : CreateDnsRecord.t) : Prop :=
  CreateDnsRecord.type parsed = DnsRecord.type record
  /\ CreateDnsRecord.name parsed = relative_name zone_name record
  /\ CreateDnsRecord.content parsed = collapse (DnsRecord.content record)
  /\ CreateDnsRecord.ttl parsed = num_or (DnsRecord.ttl record) (Num 300)
  /\ CreateDnsRecord.proxied parsed = Some false.

(** The triple that the round trip is said to keep, with the whitespace
    of the content collapsed, as "ignoring formatting whitespace" asks. *)
Definition stored_triple (record : DnsRecord.t)
  : DnsRecordType.t * jsstring * jsstring :=
  (DnsRecord.type record, DnsRecord.name record,
   collapse (DnsRecord.content record)).

(** The same triple of a record that the parser returned. *)
Definition parsed_triple (record : CreateDnsRecord.t)
  : DnsRecordType.t * jsstring * jsstring :=
  (CreateDnsRecord.type record, CreateDnsRecord.name record,
   collapse (CreateDnsRecord.content record)).

(** The round trip as the specification words it: the exported text
    parses, and the triples read back are those of the record set. *)
Definition same_triples (zone_name : jsstring) (exported : list DnsRecord.t)
  : Prop :=
  exists parsed,
    parseZoneFile (zone_file_text zone_name exported) = Return parsed
    /\ forall t,
        In t (map stored_triple exported) <-> In t (map parsed_triple parsed).

(** *** What detection and the parser hand to the import *)

(** What every detected record looks like: not proxied, of one of the
    eight types that are queried, named by the domain or by one of its
    common subdomains, and with a time to live that is a number other
    than zero, which the import then sends as it is. *)
Definition detected_shape (domain : jsstring) (d : DnsRecordImport.t)
  : Prop :=
  DnsRecordImport.proxied d = Some false
  /\ In (DnsRecordImport.type d) recordTypes
  /\ (DnsRecordImport.name d = domain
      \/ exists subdomain,
          In subdomain commonSubdomains
          /\ DnsRecordImport.name d = subdomain ++ lit "." ++ domain)
  /\ exists ttl,
      ttl <> 0
      /\ DnsRecordImport.ttl d = Some (Num ttl)
      /\ CreateDnsRecord.ttl (createRecordData d) = Num ttl.

(** What every record of a parsed zone file looks like: not proxied, of
    a type other than PTR, with a time to live that is a number other
    than zero, and with a priority only when it is an MX record. *)
Definition parsed_shape (r : CreateDnsRecord.t) : Prop :=
  CreateDnsRecord.proxied r = Some false
  /\ CreateDnsRecord.type r <> DnsRecordType.PTR
  /\ (exists ttl, ttl <> 0 /\ CreateDnsRecord.ttl r = Num ttl)
  /\ (CreateDnsRecord.priority r <> None
      -> CreateDnsRecord.type r = DnsRecordType.MX).

(** A time to live that is a number other than zero. *)
Definition ttl_set (n : number) : Prop := exists z, z <> 0 /\ n = Num z.

(** A line that the parser skips: a comment, or nothing but
    whitespace. *)
Definition skipped_line (line : jsstring) : bool :=
  startsWith (trim line) (lit ";") || str_eqb (trim line) [].

(** The result of [importZoneFile] when the parser threw. *)
Definition zone_file_rejected (e : exn) : ZoneFileImport.t :=
  {| ZoneFileImport.imported := [];
     ZoneFileImport.errors :=
       [lit "Failed to parse zone file: " ++ error_message e] |}.

(** A zone is ready: it is active and has name servers. *)
Definition zone_ready (zone : Zone.t) : Prop :=
  Zone.status zone = ZoneStatus.active /\ Zone.name_servers zone <> [].

(** The name servers of a lookup are written with their final dot, as
    a resolver writes them: every NS answer of the response, if there is
    one, has data that ends in a dot. *)
Definition dotted_answers (response : outcome DnsJson.t) : Prop :=
  forall data answers a,
    response = Return data ->
    DnsJson.Answer data = Some answers ->
    In a answers ->
    DnsAnswer.type a = 2 ->
    endsWith (DnsAnswer.data a) (lit ".") = true.

(** [DnsRecordImport.parse] of the outside world is the schema of
    [types.ts]: it returns the descriptors that the schema accepts and
    throws on the others. *)
Definition validates_by_schema {W : Type} (env : Env W) : Prop :=
  forall d,
    match Zod.parse Schema.DnsRecordImport (descriptor_value d) with
    | Some _ => DnsRecordImport_parse env d = Return d
    | None => exists e, DnsRecordImport_parse env d = Throw e
    end.

(** *** The handlers *)

(** [configureApiIfNeeded] returns [false]: there is no configuration,
    or its token or its zone id is empty. *)
Definition unconfigured (config : option ServerConfig.t) : Prop :=
  match config with
  | None => True
  | Some c =>
      ServerConfig.cloudflareApiToken c = []
      \/ ServerConfig.cloudflareZoneId c = []
  end.

(** A configuration with a token and a zone id. *)
Definition configured (config : option ServerConfig.t) (c : ServerConfig.t)
  : Prop :=
  config = Some c
  /\ ServerConfig.cloudflareApiToken c <> []
  /\ ServerConfig.cloudflareZoneId c <> [].

(** *** Requests, responses and schemas *)

(** The members that an object schema reads off an input, in the order
    of its shape. *)
Fixpoint object_members (input : Value.t)
         (shape : list (jsstring * Zod.schema))
  : option (list (jsstring * Value.t)) :=
  match shape with
  | [] => Some []
  | (key, member) :: rest =>
      match Zod.parse member (Value.get key input),
            object_members input rest with
      | Some v, Some out =>
          match v with
          | Value.Undefined =>
              if Value.has key input then Some ((key, v) :: out) else Some out
          | _ => Some ((key, v) :: out)
          end
      | _, _ => None
      end
  end.

(** What the first option of a union that accepts the input makes of
    it. *)
Fixpoint first_accepted (input : Value.t) (options : list Zod.schema)
  : option Value.t :=
  match options with
  | [] => None
  | candidate :: rest =>
      match Zod.parse candidate input with
      | Some v => Some v
      | None => first_accepted input rest
      end
  end.

(** The keys of a shape are different from each other. *)
Fixpoint distinct_keys {T} (shape : list (jsstring * T)) : bool :=
  match shape with
  | [] => true
  | (key, _) :: rest =>
      negb (existsb (fun kv => str_eqb (fst kv) key) rest)
      && distinct_keys rest
  end.

(** A record as [CloudflareDnsRecord] leaves it. *)
Definition validated_record (r : Value.t) : Prop :=
  exists input, Zod.parse Schema.CloudflareDnsRecord input = Some r.

(** The members that the callers of the record operations read, with
    the types that the schema promises. *)
Definition record_members (r : Value.t) : Prop :=
  (exists id, Value.get (lit "id") r = Value.Str id)
  /\ (exists name, Value.get (lit "name") r = Value.Str name)
  /\ (exists type,
         Value.get (lit "type") r = Value.Str type
         /\ In type (map DnsRecordType.toString DnsRecordType.all))
  /\ (exists content, Value.get (lit "content") r = Value.Str content)
  /\ (exists ttl, Value.get (lit "ttl") r = Value.Number (Num ttl)).

(** The request that [api] sends. *)
Definition request_of (config : Config.t) (endpoint method : jsstring)
           (body : option Value.t) (useZoneId : bool) : Request.t :=
  {| Request.url :=
       if useZoneId then
         lit "https://api.cloudflare.com/client/v4/zones/"
           ++ Config.zoneId config ++ lit "/" ++ endpoint
       else lit "https://api.cloudflare.com/client/v4/" ++ endpoint;
     Request.method := method;
     Request.headers :=
       [ (lit "Authorization", lit "Bearer " ++ Config.apiToken config);
         (lit "Content-Type", lit "application/json") ];
     Request.body := body |}.

(** A code unit that an escaped query value may hold: a letter, a
    digit, or one of [*-._!~'()+%].  None of [&], [=], [?], [#] and [/]
    is among them. *)
Definition query_safe (c : ascii) : bool :=
  Url.alphanumeric (code c)
  || existsb (Z.eqb (code c)) [42; 45; 46; 95; 33; 126; 39; 40; 41; 43; 37].

(* ================================================================= *)
(** ** Basic facts *)

Arguments Ascii.eqb : simpl never.
Arguments chr : simpl never.
Arguments code : simpl never.
Arguments is_ws : simpl never.

Lemma str_eqb_eq (a b : jsstring) : str_eqb a b = true <-> a = b.
Proof.
  unfold str_eqb. destruct (list_eq_dec ascii_dec a b); split; congruence.
Qed.

Lemma str_eqb_refl (a : jsstring) : str_eqb a a = true.
Proof. now apply str_eqb_eq. Qed.

Lemma str_eqb_neq (a b : jsstring) : str_eqb a b = false <-> a <> b.
Proof.
  unfold str_eqb. destruct (list_eq_dec ascii_dec a b); split; congruence.
Qed.

Lemma arr_includes_In (l : list jsstring) (x : jsstring) :
  arr_includes l x = true <-> In x l.
Proof.
  unfold arr_includes. rewrite existsb_exists. split.
  - intros (y & Hy & E). apply str_eqb_eq in E. now subst.
  - intros H. exists x. split; [assumption | apply str_eqb_refl].
Qed.

Ltac run_async :=
  unfold bind, try_catch, ret, throw, lift in *; cbv beta in *.

(* ================================================================= *)
(** ** Whitespace: [trim] and [split(/\s+/)] *)

Lemma split_ws_from_cons (s : jsstring) :
  forall b, exists h r, split_ws_from b s = h :: r.
Proof.
  induction s as [|c s IH]; intros b; simpl; eauto.
  destruct (is_ws c).
  - destruct b; eauto.
  - destruct (split_ws_from false s); eauto.
Qed.

Lemma split_ws_token_sep (tok : jsstring) (w : ascii) (s : jsstring) :
  ws_free tok = true -> is_ws w = true ->
  split_ws_from false (tok ++ w :: s) = tok :: split_ws_from true s.
Proof.
  intros Htok Hw. induction tok as [|c tok IH]; simpl.
  - now rewrite Hw.
  - simpl in Htok. apply andb_prop in Htok. destruct Htok as (Hc & Htok).
    apply negb_true_iff in Hc. rewrite Hc, (IH Htok). reflexivity.
Qed.

Lemma split_ws_token (tok : jsstring) :
  ws_free tok = true -> split_ws_from false tok = [tok].
Proof.
  intros Htok. induction tok as [|c tok IH]; simpl; [reflexivity|].
  simpl in Htok. apply andb_prop in Htok. destruct Htok as (Hc & Htok).
  apply negb_true_iff in Hc. rewrite Hc, (IH Htok). reflexivity.
Qed.

Lemma split_ws_from_true_head (c : ascii) (s : jsstring) :
  is_ws c = false ->
  split_ws_from true (c :: s) = split_ws_from false (c :: s).
Proof. intros H. simpl. now rewrite H. Qed.

Lemma words_token_sep (tok : jsstring) (w : ascii) (s : jsstring) :
  ws_free tok = true -> non_empty tok = true -> is_ws w = true ->
  words (tok ++ w :: s) = tok :: words s.
Proof.
  intros Htok Hne Hw. unfold words.
  destruct tok as [|c tok]; [discriminate|].
  assert (Hc : is_ws c = false).
  { simpl in Htok. apply andb_prop in Htok. destruct Htok as (Hc & _).
    now apply negb_true_iff in Hc. }
  change ((c :: tok) ++ w :: s) with (c :: (tok ++ w :: s)).
  rewrite (split_ws_from_true_head _ _ Hc).
  change (c :: (tok ++ w :: s)) with ((c :: tok) ++ w :: s).
  rewrite (split_ws_token_sep _ _ _ Htok Hw). reflexivity.
Qed.

Lemma words_token (tok : jsstring) :
  ws_free tok = true -> non_empty tok = true -> words tok = [tok].
Proof.
  intros Htok Hne. unfold words.
  destruct tok as [|c tok]; [discriminate|].
  assert (Hc : is_ws c = false).
  { simpl in Htok. apply andb_prop in Htok. destruct Htok as (Hc & _).
    now apply negb_true_iff in Hc. }
  rewrite (split_ws_from_true_head _ _ Hc), (split_ws_token _ Htok).
  reflexivity.
Qed.

(** [trimEnd] keeps a code unit that is not whitespace. *)
Lemma trimEnd_cons (c : ascii) (s : jsstring) :
  is_ws c = false -> trimEnd (c :: s) = c :: trimEnd s.
Proof.
  intros H. simpl. rewrite H. destruct (trimEnd s); reflexivity.
Qed.

(** How [split(/\s+/)] of a string and of its [trimEnd] relate: the
    trimmed string loses the empty last part, and has no part at all
    to lose when it is empty. *)
Lemma trimEnd_split (s : jsstring) :
  (trimEnd s = [] ->
   filter non_empty (split_ws_from true s) = []
   /\ exists r, split_ws_from false s = [] :: r /\ filter non_empty r = [])
  /\ (trimEnd s <> [] ->
      split_ws_from true (trimEnd s)
      = filter non_empty (split_ws_from true s)
      /\ exists h r,
          split_ws_from false s = h :: r
          /\ split_ws_from false (trimEnd s) = h :: filter non_empty r).
Proof.
  induction s as [|c s (IH1 & IH2)].
  - split; [|intros H; now contradiction H]. intros _. simpl. eauto.
  - simpl trimEnd. destruct (trimEnd s) as [|x xs] eqn:Ht.
    + destruct (IH1 eq_refl) as (Hw & r & Hf & Hr). clear IH1 IH2.
      destruct (is_ws c) eqn:Hc.
      * split; [|intros H; now contradiction H]. intros _. simpl.
        rewrite Hc. split; [exact Hw|]. eauto.
      * split; [discriminate|]. intros _. simpl. rewrite Hc, Hf. simpl.
        rewrite Hr. split; [reflexivity|].
        exists [c], r. rewrite Hr. split; reflexivity.
    + assert (Hne : x :: xs <> []) by discriminate.
      destruct (IH2 Hne) as (Hw & h & r & Hf & Hr). clear IH1 IH2.
      cbv iota. remember (x :: xs) as t eqn:Et.
      split; [discriminate|]. intros _.
      destruct (is_ws c) eqn:Hc.
      * simpl. rewrite Hc. split; [exact Hw|].
        exists [], (split_ws_from true s). split; [reflexivity|].
        now rewrite Hw.
      * simpl. rewrite Hc, Hf, Hr. simpl. split; [reflexivity|].
        exists (c :: h), r. split; reflexivity.
Qed.

(** [s.trim().split(/\s+/)] of a string that starts with a token
    followed by whitespace: the token, then the words of the rest. *)
Lemma split_trim_token_sep (tok : jsstring) (w : ascii) (s : jsstring) :
  ws_free tok = true -> non_empty tok = true -> is_ws w = true ->
  split_ws (trim (tok ++ w :: s)) = tok :: words s.
Proof.
  intros Htok Hne Hw.
  destruct tok as [|c tok]; [discriminate|].
  assert (Hc : is_ws c = false).
  { simpl in Htok. apply andb_prop in Htok. destruct Htok as (Hc & _).
    now apply negb_true_iff in Hc. }
  unfold trim, split_ws.
  change ((c :: tok) ++ w :: s) with (c :: (tok ++ w :: s)).
  replace (trimStart (c :: tok ++ w :: s)) with (c :: tok ++ w :: s)
    by (simpl; now rewrite Hc).
  destruct (trimEnd_split (c :: tok ++ w :: s)) as (_ & H).
  destruct H as (_ & h & r & Hf & Hr).
  { rewrite (trimEnd_cons _ _ Hc). discriminate. }
  rewrite Hr.
  change (c :: tok ++ w :: s) with ((c :: tok) ++ w :: s) in Hf.
  rewrite (split_ws_token_sep _ _ _ Htok Hw) in Hf.
  injection Hf as <- <-. reflexivity.
Qed.

(* ================================================================= *)
(** ** Numbers: printing and parsing *)

Ltac bool_to_prop :=
  repeat match goal with
         | H : _ && _ = true |- _ => apply andb_prop in H; destruct H
         | H : (_ <=? _) = true |- _ => apply Z.leb_le in H
         | H : (_ <=? _) = false |- _ => apply Z.leb_gt in H
         | H : (_ <? _) = true |- _ => apply Z.ltb_lt in H
         | H : (_ <? _) = false |- _ => apply Z.ltb_ge in H
         | H : (_ =? _) = true |- _ => apply Z.eqb_eq in H
         | H : (_ =? _) = false |- _ => apply Z.eqb_neq in H
         end.

Lemma code_chr (x : Z) : 0 <= x < 256 -> code (chr x) = x.
Proof.
  intros H. unfold code, chr. rewrite N_ascii_embedding; lia.
Qed.

Lemma is_digit_chr (d : Z) : 0 <= d < 10 -> is_digit (chr (48 + d)) = true.
Proof.
  intros H. unfold is_digit. rewrite code_chr by lia.
  apply andb_true_intro. split; apply Z.leb_le; lia.
Qed.

Lemma is_digit_not_ws (c : ascii) : is_digit c = true -> is_ws c = false.
Proof.
  unfold is_digit, is_ws. intros H.
  destruct (9 <=? code c) eqn:E1, (code c <=? 13) eqn:E2,
           (code c =? 32) eqn:E3, (code c =? 160) eqn:E4;
    try reflexivity; bool_to_prop; lia.
Qed.

Lemma is_digit_neq (k c : ascii) :
  is_digit k = false -> is_digit c = true -> Ascii.eqb k c = false.
Proof.
  intros Hk Hc. destruct (Ascii.eqb k c) eqn:E; [|reflexivity].
  apply Ascii.eqb_eq in E. congruence.
Qed.

Lemma digits_ws_free (ds : jsstring) :
  forallb is_digit ds = true -> ws_free ds = true.
Proof.
  induction ds as [|c ds IH]; simpl; [reflexivity|].
  intros H. apply andb_prop in H. destruct H as (Hc & Hds).
  rewrite (is_digit_not_ws _ Hc), (IH Hds). reflexivity.
Qed.

Lemma digits_fuel_spec (fuel : nat) :
  forall (n : Z) (acc : jsstring),
    0 <= n < 2 ^ Z.of_nat (S fuel) ->
    exists ds,
      digits_fuel (S fuel) n acc = ds ++ acc
      /\ non_empty ds = true
      /\ forallb is_digit ds = true
      /\ forall a, read_digits ds a = a * 10 ^ Z.of_nat (length ds) + n.
Proof.
  assert (Hone : forall n acc,
             0 <= n < 10 ->
             exists ds,
               chr (48 + n mod 10) :: acc = ds ++ acc
               /\ non_empty ds = true
               /\ forallb is_digit ds = true
               /\ forall a,
                   read_digits ds a = a * 10 ^ Z.of_nat (length ds) + n).
  { intros n acc Hn. exists [chr (48 + n mod 10)].
    rewrite Z.mod_small by lia.
    split; [reflexivity|]. split; [reflexivity|]. split.
    - cbn [forallb]. rewrite is_digit_chr by lia. reflexivity.
    - intros a. unfold read_digits. cbn [fold_left length].
      rewrite code_chr by lia. change (10 ^ Z.of_nat 1) with 10. lia. }
  induction fuel as [|fuel IH]; intros n acc Hn.
  - change (2 ^ Z.of_nat 1) with 2 in Hn.
    assert ((n <? 10) = true) as Hlt by (apply Z.ltb_lt; lia).
    cbn [digits_fuel]. rewrite Hlt. apply Hone. lia.
  - change (digits_fuel (S (S fuel)) n acc)
      with (if n <? 10 then chr (48 + n mod 10) :: acc
            else digits_fuel (S fuel) (n / 10) (chr (48 + n mod 10) :: acc)).
    pose proof (Z.mod_pos_bound n 10 ltac:(lia)) as Hmod.
    destruct (n <? 10) eqn:Hlt; bool_to_prop.
    + apply Hone. lia.
    + destruct (IH (n / 10) (chr (48 + n mod 10) :: acc))
        as (ds & E & Hne & Hd & Hv).
      { split; [apply Z.div_pos; lia|].
        apply Z.div_lt_upper_bound; [lia|].
        replace (Z.of_nat (S (S fuel))) with (Z.succ (Z.of_nat (S fuel)))
          in Hn by lia.
        rewrite Z.pow_succ_r in Hn by lia. lia. }
      exists (ds ++ [chr (48 + n mod 10)]).
      split; [rewrite E, <- app_assoc; reflexivity|].
      split; [destruct ds; [discriminate|reflexivity]|].
      split.
      * rewrite forallb_app, Hd. cbn [forallb].
        rewrite is_digit_chr by lia. reflexivity.
      * intros a. unfold read_digits in *. rewrite fold_left_app, Hv.
        cbn [fold_left]. rewrite code_chr by lia. rewrite length_app.
        cbn [length].
        replace (Z.of_nat (length ds + 1)) with (Z.succ (Z.of_nat (length ds)))
          by lia.
        rewrite Z.pow_succ_r by lia.
        pose proof (Z.div_mod n 10 ltac:(lia)). lia.
Qed.

Lemma nat_toString_spec (n : Z) :
  0 <= n ->
  non_empty (nat_toString n) = true
  /\ forallb is_digit (nat_toString n) = true
  /\ read_digits (nat_toString n) 0 = n.
Proof.
  intros Hn. unfold nat_toString.
  destruct (digits_fuel_spec (Z.to_nat (Z.log2 n)) n [])
    as (ds & E & Hne & Hd & Hv).
  { split; [assumption|].
    replace (Z.of_nat (S (Z.to_nat (Z.log2 n)))) with (Z.succ (Z.log2 n))
      by (pose proof (Z.log2_nonneg n); lia).
    destruct (Z.eq_dec n 0) as [->|Hnz]; [reflexivity|].
    apply Z.log2_spec. lia. }
  rewrite E, app_nil_r. repeat split; try assumption.
  rewrite Hv. lia.
Qed.

Lemma digits_prefix_digits (ds : jsstring) :
  forallb is_digit ds = true ->
  digits_prefix 10 ds = map (fun c => code c - 48) ds.
Proof.
  induction ds as [|c ds IH]; simpl; [reflexivity|].
  intros H. apply andb_prop in H. destruct H as (Hc & Hds).
  unfold digit_val. unfold is_digit in Hc. rewrite Hc.
  bool_to_prop.
  replace (code c - 48 <? 10) with true by (symmetry; apply Z.ltb_lt; lia).
  now rewrite (IH Hds).
Qed.

Lemma mathInt_digits (ds : jsstring) :
  mathInt 10 (map (fun c => code c - 48) ds) = read_digits ds 0.
Proof.
  unfold mathInt, read_digits. generalize 0.
  induction ds as [|c ds IH]; intros a; simpl; [reflexivity | apply IH].
Qed.

Lemma parse_unsigned_digits (sign : Z) (ds : jsstring) :
  non_empty ds = true -> forallb is_digit ds = true ->
  parse_unsigned sign ds = Num (sign * read_digits ds 0).
Proof.
  intros Hne Hd. destruct ds as [|c ds]; [discriminate|].
  pose proof (digits_prefix_digits _ Hd) as Hp.
  pose proof (mathInt_digits (c :: ds)) as Hm.
  cbn [forallb] in Hd. apply andb_prop in Hd. destruct Hd as (Hc & Hds).
  assert (Hhex : forall x, is_digit x = false ->
                 startsWith (c :: ds) ["0"%char; x] = false).
  { intros x Hx. destruct ds as [|d ds]; cbn [startsWith].
    - apply andb_false_r.
    - cbn [forallb] in Hds. apply andb_prop in Hds. destruct Hds as (Hd' & _).
      rewrite (is_digit_neq x d Hx Hd'). apply andb_false_r. }
  unfold parse_unsigned. cbv zeta.
  change (lit "0x") with ["0"%char; "x"%char].
  change (lit "0X") with ["0"%char; "X"%char].
  rewrite !Hhex by reflexivity. cbn [orb]. cbv iota.
  rewrite Hp, <- Hm. reflexivity.
Qed.

(** [parseInt] of a run of decimal digits, bare or after a minus sign. *)
Lemma parseInt_digits (ds : jsstring) :
  non_empty ds = true -> forallb is_digit ds = true ->
  parseInt ds = Num (read_digits ds 0)
  /\ parseInt ("-"%char :: ds) = Num (- read_digits ds 0).
Proof.
  intros Hne Hd.
  pose proof (parse_unsigned_digits 1 ds Hne Hd) as Hpos.
  pose proof (parse_unsigned_digits (-1) ds Hne Hd) as Hneg.
  destruct ds as [|c ds]; [discriminate|].
  cbn [forallb] in Hd. apply andb_prop in Hd. destruct Hd as (Hc & Hds).
  split.
  - unfold parseInt. cbv zeta.
    replace (trimStart (c :: ds)) with (c :: ds)
      by (cbn [trimStart]; now rewrite (is_digit_not_ws _ Hc)).
    replace (startsWith (c :: ds) (lit "-")) with false
      by (symmetry; cbn [startsWith lit list_ascii_of_string];
          rewrite (is_digit_neq "-" c); auto).
    replace (startsWith (c :: ds) (lit "+")) with false
      by (symmetry; cbn [startsWith lit list_ascii_of_string];
          rewrite (is_digit_neq "+" c); auto).
    cbn [orb]. cbv iota. rewrite Hpos. f_equal; lia.
  - unfold parseInt. cbv zeta.
    change (trimStart ("-"%char :: c :: ds)) with ("-"%char :: c :: ds).
    change (startsWith ("-"%char :: c :: ds) (lit "-")) with true.
    cbn [orb]. cbv iota. change (skipn 1 ("-"%char :: c :: ds)) with (c :: ds).
    rewrite Hneg. f_equal; lia.
Qed.

Lemma parseInt_printed (z : Z) : parseInt (toString (Num z)) = Num z.
Proof.
  unfold toString. destruct (z <? 0) eqn:Hz; bool_to_prop.
  - destruct (nat_toString_spec (- z)) as (Hne & Hd & Hv); [lia|].
    destruct (parseInt_digits _ Hne Hd) as (_ & ->). rewrite Hv. f_equal; lia.
  - destruct (nat_toString_spec z) as (Hne & Hd & Hv); [lia|].
    destruct (parseInt_digits _ Hne Hd) as (-> & _). now rewrite Hv.
Qed.

Lemma toString_token (z : Z) :
  ws_free (toString (Num z)) = true /\ non_empty (toString (Num z)) = true.
Proof.
  unfold toString. destruct (z <? 0) eqn:Hz; bool_to_prop.
  - destruct (nat_toString_spec (- z)) as (Hne & Hd & _); [lia|].
    split; [|reflexivity].
    change (ws_free ("-"%char :: nat_toString (- z)))
      with (negb (is_ws "-"%char) && ws_free (nat_toString (- z))).
    now rewrite (digits_ws_free _ Hd).
  - destruct (nat_toString_spec z) as (Hne & Hd & _); [lia|].
    split; [now apply digits_ws_free | assumption].
Qed.

(* ================================================================= *)
(** ** [parseInt] stops at whitespace *)

Lemma eqb_ws_false (k w : ascii) :
  is_ws k = false -> is_ws w = true -> Ascii.eqb k w = false.
Proof.
  intros Hk Hw. destruct (Ascii.eqb k w) eqn:E; [|reflexivity].
  apply Ascii.eqb_eq in E. congruence.
Qed.

Lemma digit_val_ws (radix : Z) (w : ascii) :
  is_ws w = true -> digit_val radix w = None.
Proof.
  unfold is_ws, digit_val. intros H.
  destruct ((48 <=? code w) && (code w <=? 57)) eqn:E1;
    [exfalso; bool_to_prop|].
  { destruct (9 <=? code w) eqn:A, (code w <=? 13) eqn:B,
             (code w =? 32) eqn:C, (code w =? 160) eqn:D;
      try discriminate H; bool_to_prop; lia. }
  destruct ((97 <=? code w) && (code w <=? 122)) eqn:E2;
    [exfalso; bool_to_prop|].
  { destruct (9 <=? code w) eqn:A, (code w <=? 13) eqn:B,
             (code w =? 32) eqn:C, (code w =? 160) eqn:D;
      try discriminate H; bool_to_prop; lia. }
  destruct ((65 <=? code w) && (code w <=? 90)) eqn:E3;
    [exfalso; bool_to_prop|reflexivity].
  destruct (9 <=? code w) eqn:A, (code w <=? 13) eqn:B,
           (code w =? 32) eqn:C, (code w =? 160) eqn:D;
    try discriminate H; bool_to_prop; lia.
Qed.

Lemma digits_prefix_cut (radix : Z) (s : jsstring) (w : ascii)
      (rest : jsstring) :
  is_ws w = true ->
  digits_prefix radix (s ++ w :: rest) = digits_prefix radix s.
Proof.
  intros Hw. induction s as [|c s IH]; cbn [app digits_prefix].
  - now rewrite (digit_val_ws radix w Hw).
  - destruct (digit_val radix c); [now rewrite IH | reflexivity].
Qed.

Lemma hex_prefix_cut (x : ascii) (s : jsstring) (w : ascii)
      (rest : jsstring) :
  is_ws x = false -> is_ws w = true ->
  startsWith (s ++ w :: rest) ["0"%char; x] = startsWith s ["0"%char; x].
Proof.
  intros Hx Hw. destruct s as [|a [|b s]]; cbn [app startsWith].
  - now rewrite (eqb_ws_false "0" w).
  - rewrite (eqb_ws_false x w Hx Hw). reflexivity.
  - reflexivity.
Qed.

Lemma parse_unsigned_cut (sign : Z) (s : jsstring) (w : ascii)
      (rest : jsstring) :
  is_ws w = true ->
  parse_unsigned sign (s ++ w :: rest) = parse_unsigned sign s.
Proof.
  intros Hw. unfold parse_unsigned. cbv zeta.
  change (lit "0x") with ["0"%char; "x"%char].
  change (lit "0X") with ["0"%char; "X"%char].
  rewrite !hex_prefix_cut by (assumption || reflexivity).
  destruct (startsWith s ["0"%char; "x"%char]
            || startsWith s ["0"%char; "X"%char]) eqn:Hhex.
  - destruct s as [|a [|b s]].
    + discriminate Hhex.
    + cbn [startsWith] in Hhex. rewrite !andb_false_r in Hhex.
      discriminate Hhex.
    + cbn [app skipn]. now rewrite digits_prefix_cut.
  - now rewrite digits_prefix_cut.
Qed.

Lemma trimStart_app (p t : jsstring) :
  trimStart p <> [] -> trimStart (p ++ t) = trimStart p ++ t.
Proof.
  induction p as [|c p IH]; cbn [app trimStart]; [congruence|].
  destruct (is_ws c); [exact IH | reflexivity].
Qed.

Lemma trimStart_head (s : jsstring) :
  trimStart s = [] \/ exists c t, trimStart s = c :: t /\ is_ws c = false.
Proof.
  induction s as [|c s IH]; cbn [trimStart]; [now left|].
  destruct (is_ws c) eqn:E; [exact IH | right; eauto].
Qed.

(** [parseInt] does not read past a whitespace that follows something
    that is not whitespace. *)
Lemma parseInt_cut (p : jsstring) (w : ascii) (rest : jsstring) :
  trimStart p <> [] -> is_ws w = true ->
  parseInt (p ++ w :: rest) = parseInt p.
Proof.
  intros Hp Hw. unfold parseInt. cbv zeta.
  rewrite (trimStart_app _ (w :: rest) Hp).
  destruct (trimStart p) as [|c t]; [congruence|].
  cbn [app]. change (lit "-") with ["-"%char]. change (lit "+") with ["+"%char].
  cbn [startsWith]. 
  destruct (Ascii.eqb "-" c && true || Ascii.eqb "+" c && true).
  - cbn [skipn]. apply parse_unsigned_cut. assumption.
  - change (c :: t ++ w :: rest) with ((c :: t) ++ w :: rest).
    apply parse_unsigned_cut. assumption.
Qed.

Lemma trimStart_idem (s : jsstring) : trimStart (trimStart s) = trimStart s.
Proof.
  induction s as [|c s IH]; cbn [trimStart]; [reflexivity|].
  destruct (is_ws c) eqn:E; [exact IH|]. cbn [trimStart]. now rewrite E.
Qed.

Lemma parseInt_trimStart (s : jsstring) : parseInt (trimStart s) = parseInt s.
Proof. unfold parseInt. now rewrite trimStart_idem. Qed.

Lemma words_trimStart (s : jsstring) : words (trimStart s) = words s.
Proof.
  unfold words. induction s as [|c s IH]; cbn [trimStart]; [reflexivity|].
  destruct (is_ws c) eqn:E; [|reflexivity].
  cbn [split_ws_from]. now rewrite E.
Qed.

(** A string is a run without whitespace, then nothing or a whitespace
    and the rest. *)
Lemma first_word_split (s : jsstring) :
  exists q tail,
    s = q ++ tail /\ ws_free q = true
    /\ (tail = [] \/ exists w rest, tail = w :: rest /\ is_ws w = true).
Proof.
  induction s as [|c s (q & tail & E & Hq & Ht)].
  - exists [], []. auto.
  - destruct (is_ws c) eqn:Hc.
    + exists [], (c :: s). split; [reflexivity|]. split; [reflexivity|].
      right. eauto.
    + exists (c :: q), tail. split; [now rewrite E|].
      split; [|exact Ht]. cbn [ws_free forallb]. rewrite Hc. exact Hq.
Qed.

(** [parseInt] of a string is [parseInt] of its first word. *)
Lemma parseInt_first_word (s : jsstring) :
  parseInt (first_word s) = parseInt s.
Proof.
  unfold first_word.
  rewrite <- (parseInt_trimStart s), <- (words_trimStart s).
  destruct (trimStart_head s) as [E|(c & t & E & Hc)]; rewrite E;
    [reflexivity|].
  destruct (first_word_split (c :: t)) as (q & tail & Eq & Hq & Ht).
  destruct q as [|c' q].
  { destruct Ht as [->|(w & rest & -> & Hw)]; [discriminate|].
    injection Eq as <- _. congruence. }
  rewrite Eq. destruct Ht as [->|(w & rest & -> & Hw)].
  - rewrite app_nil_r, words_token by (assumption || reflexivity).
    reflexivity.
  - rewrite words_token_sep by (assumption || reflexivity). cbn [nth].
    symmetry. apply parseInt_cut; [|assumption].
    cbn [ws_free forallb] in Hq. apply andb_prop in Hq.
    destruct Hq as (Hc' & _). apply negb_true_iff in Hc'.
    cbn [trimStart]. rewrite Hc'. discriminate.
Qed.

Lemma split_cons (sep : ascii) (s : jsstring) :
  exists h r, split sep s = h :: r.
Proof.
  destruct s as [|c s]; cbn [split]; eauto.
  destruct (Ascii.eqb c sep); eauto.
  destruct (split sep s); eauto.
Qed.

Lemma first_token_split (s : jsstring) :
  first_token s = s \/ exists rest, s = first_token s ++ " "%char :: rest.
Proof.
  unfold first_token. induction s as [|c s IH]; cbn [split]; [now left|].
  destruct (Ascii.eqb c " ") eqn:E.
  - apply Ascii.eqb_eq in E. subst c. right. exists s. reflexivity.
  - destruct (split_cons " " s) as (tok & toks & Es). rewrite Es in *.
    cbn [nth] in *. destruct IH as [IH|(rest & IH)].
    + left. now rewrite IH.
    + right. exists rest. cbn [app]. now f_equal.
Qed.

(** The token that the code parses, [data.split(" ")[0]], and the first
    whitespace-delimited word of the data have the same integer parse,
    unless the data has nothing or only whitespace before its first
    space. *)
Lemma parseInt_token_is_word (data : jsstring) :
  trimStart (first_token data) <> [] ->
  parseInt (first_token data) = parseInt (first_word data).
Proof.
  intros H. rewrite parseInt_first_word.
  destruct (first_token_split data) as [->|(rest & E)]; [reflexivity|].
  rewrite E at 2. symmetry. now apply parseInt_cut.
Qed.

(** The data of an MX answer: [10] is both. *)
Example first_token_of_an_mx_answer :
  parseInt (first_token (lit "10 mail.example.com.")) = Num 10
  /\ parseInt (first_word (lit "10 mail.example.com.")) = Num 10.
Proof. split; vm_compute; reflexivity. Qed.

(** Data that starts with a space: the code parses the empty string, the
    first word is [10]. *)
Example first_token_of_a_leading_space :
  parseInt (first_token (lit " 10 mail.example.com.")) = NaN
  /\ parseInt (first_word (lit " 10 mail.example.com.")) = Num 10.
Proof. split; vm_compute; reflexivity. Qed.

(* ================================================================= *)
(** ** Lines: [split("\n")] of the exported text *)

Lemma split_line (s t : jsstring) :
  no_lf s = true -> split LF (s ++ LF :: t) = s :: split LF t.
Proof.
  intros H. induction s as [|c s IH]; cbn [app split].
  - now rewrite Ascii.eqb_refl.
  - cbn [no_lf forallb] in H. apply andb_prop in H. destruct H as (Hc & Hs).
    apply negb_true_iff in Hc. rewrite Hc, (IH Hs). reflexivity.
Qed.

Lemma ws_free_no_lf (s : jsstring) : ws_free s = true -> no_lf s = true.
Proof.
  induction s as [|c s IH]; cbn [ws_free no_lf forallb]; [reflexivity|].
  intros H. apply andb_prop in H. destruct H as (Hc & Hs).
  apply negb_true_iff in Hc. fold (ws_free s) in Hs. fold (no_lf s).
  rewrite (IH Hs), andb_true_r. apply negb_true_iff.
  destruct (Ascii.eqb c LF) eqn:E; [|reflexivity].
  apply Ascii.eqb_eq in E. subst c. discriminate Hc.
Qed.

Lemma no_lf_app (s t : jsstring) : no_lf (s ++ t) = no_lf s && no_lf t.
Proof. apply forallb_app. Qed.

Lemma ws_free_app (s t : jsstring) : ws_free (s ++ t) = ws_free s && ws_free t.
Proof. apply forallb_app. Qed.

Lemma fold_left_concat {T} (f : T -> jsstring) (xs : list T) :
  forall init,
    fold_left (fun text x => text ++ f x) xs init = init ++ concat (map f xs).
Proof.
  induction xs as [|x xs IH]; intros init; cbn [fold_left map concat].
  - now rewrite app_nil_r.
  - rewrite IH, app_assoc. reflexivity.
Qed.

Lemma split_lines {T} (body : T -> jsstring) (xs : list T) :
  Forall (fun x => no_lf (body x) = true) xs ->
  split LF (concat (map (fun x => body x ++ [LF]) xs)) = map body xs ++ [[]].
Proof.
  induction 1 as [|x xs Hx _ IH]; cbn [map concat app]; [reflexivity|].
  rewrite <- app_assoc. cbn [app]. rewrite (split_line _ _ Hx), IH.
  reflexivity.
Qed.

(* ================================================================= *)
(** ** Detection *)

(** *** Loops of detection *)

Lemma push_answers_filter (expected : Z)
      (record_of : DnsAnswer.t -> DnsRecordImport.t)
      (answers : list DnsAnswer.t) (detected : list DnsRecordImport.t) :
  push_answers expected record_of answers detected
  = detected
      ++ map record_of
             (filter (fun a => DnsAnswer.type a =? expected) answers).
Proof.
  unfold push_answers. revert detected.
  induction answers as [|a answers IH]; intros detected; simpl.
  - now rewrite app_nil_r.
  - destruct (DnsAnswer.type a =? expected); simpl.
    + rewrite IH, <- app_assoc. reflexivity.
    + apply IH.
Qed.

Lemma push_response_appends (expected : Z)
      (record_of : DnsAnswer.t -> DnsRecordImport.t)
      (data : DnsJson.t) (detected : list DnsRecordImport.t) :
  exists answers,
    push_response expected record_of data detected
    = detected ++ map record_of answers.
Proof.
  unfold push_response.
  destruct (DnsJson.Answer data) as [answers|].
  - destruct (DnsJson.Status data =? 0).
    + eexists. apply push_answers_filter.
    + exists []. simpl. now rewrite app_nil_r.
  - exists []. simpl. now rewrite app_nil_r.
Qed.

Section Detection.
Context {W : Type} (env : Env W).

Lemma for_of_appends {T} (P : DnsRecordImport.t -> Prop) (items : list T)
      (body : T -> list DnsRecordImport.t
              -> Async W (list DnsRecordImport.t)) :
  (forall item detected w,
      In item items ->
      exists extra w',
        body item detected w = (Return (detected ++ extra), w')
        /\ Forall P extra) ->
  forall detected w,
  exists added w',
    for_of items body detected w = (Return (detected ++ added), w')
    /\ Forall P added.
Proof.
  induction items as [|item items IH]; intros Hbody detected w; simpl.
  - exists [], w. unfold ret. rewrite app_nil_r. auto.
  - destruct (Hbody item detected w (or_introl eq_refl))
      as (extra & w1 & E1 & P1).
    destruct (IH (fun i d v H => Hbody i d v (or_intror H))
                 (detected ++ extra) w1)
      as (added & w2 & E2 & P2).
    exists (extra ++ added), w2. unfold bind. rewrite E1, E2.
    rewrite app_assoc. split; [reflexivity | now apply Forall_app].
Qed.

(** One query on the domain adds the records of some of the answers. *)
Lemma detect_type_appends (domain : jsstring) (recordType : DnsRecordType.t)
      (detected : list DnsRecordImport.t) (w : W) :
  exists answers w',
    detect_type env domain recordType detected w
    = (Return (detected ++ map (base_record recordType domain) answers), w').
Proof.
  unfold detect_type. run_async.
  destruct (fetch_json env _ w) as [[data|e] w1].
  - destruct (push_response_appends
                (getDnsTypeNumber (DnsRecordType.toString recordType))
                (base_record recordType domain) data detected)
      as (answers & E).
    exists answers, w1. now rewrite E.
  - exists [], w1. simpl. now rewrite app_nil_r.
Qed.

(** One query on a subdomain adds the records of some of the answers. *)
Lemma detect_subdomain_appends (domain subdomain : jsstring)
      (detected : list DnsRecordImport.t) (w : W) :
  exists answers w',
    detect_subdomain env domain subdomain detected w
    = (Return (detected
                 ++ map (subdomain_record (subdomain ++ lit "." ++ domain))
                        answers), w').
Proof.
  unfold detect_subdomain. run_async.
  destruct (fetch_json env _ w) as [[data|e] w1].
  - destruct (push_response_appends
                1 (subdomain_record (subdomain ++ lit "." ++ domain))
                data detected)
      as (answers & E).
    exists answers, w1. now rewrite E.
  - exists [], w1. simpl. now rewrite app_nil_r.
Qed.

(** The [try] block of [detectDnsRecords] has no statement that throws
    outside the two loops, and the loops swallow what their bodies
    throw: detection always returns. *)
Lemma detectDnsRecords_two_phases (domain : jsstring) (w : W) :
  forall base w1 found w2,
    detect_base env domain [] w = (Return base, w1) ->
    detect_subdomains env domain base w1 = (Return found, w2) ->
    detectDnsRecords env domain w = (Return found, w2).
Proof.
  intros base w1 found w2 E1 E2.
  unfold detectDnsRecords. run_async. now rewrite E1, E2.
Qed.

End Detection.

(** *** The priority of a record of the base-domain phase *)

Lemma includes_space (s : jsstring) :
  includes s (lit " ") = false <-> ~ In " "%char s.
Proof.
  change (lit " ") with [" "%char].
  induction s as [|c s IH]; cbn [includes startsWith In].
  - split; [tauto | reflexivity].
  - rewrite andb_true_r, orb_false_iff, IH.
    split.
    + intros (Hc & Hs) [E|E]; [|tauto].
      subst c. discriminate.
    + intros H. split; [|tauto].
      destruct (Ascii.eqb " " c) eqn:E; [|reflexivity].
      apply Ascii.eqb_eq in E. symmetry in E. tauto.
Qed.

Lemma first_token_before (before rest : jsstring) :
  ~ In " "%char before ->
  first_token (before ++ " "%char :: rest) = before.
Proof.
  unfold first_token.
  induction before as [|c before IH]; intros H; cbn [app split].
  - reflexivity.
  - destruct (Ascii.eqb c " ") eqn:E.
    + apply Ascii.eqb_eq in E. subst c. exfalso. apply H. now left.
    + assert (Hb : ~ In " "%char before) by (intros F; apply H; now right).
      specialize (IH Hb).
      destruct (split_cons " " (before ++ " "%char :: rest))
        as (tok & toks & Es).
      rewrite Es in *. cbn [nth] in *. now rewrite IH.
Qed.

(** The priority that [base_record] gives, read off the data of the
    answer. *)
Lemma base_record_priority (recordType : DnsRecordType.t)
      (domain : jsstring) (answer : DnsAnswer.t) :
  priority_before_space (base_record recordType domain answer).
Proof.
  unfold priority_before_space, base_record.
  cbn [DnsRecordImport.content DnsRecordImport.priority]. split.
  - intros H. apply includes_space in H. now rewrite H.
  - intros before rest E H. rewrite E.
    rewrite (first_token_before before rest H).
    destruct (includes (before ++ " "%char :: rest) (lit " ")) eqn:I;
      [reflexivity|].
    apply includes_space in I. exfalso. apply I.
    apply in_or_app. right. now left.
Qed.

Section BasePhase.
Context {W : Type} (env : Env W).

(** One query of the phase adds the records of the answers that count,
    and nothing else, whatever becomes of the request. *)
Lemma detect_type_counted (domain : jsstring)
      (recordType : DnsRecordType.t) (detected : list DnsRecordImport.t)
      (w : W) :
  detect_type env domain recordType detected w
  = (Return
       (detected
          ++ map (base_record recordType domain)
                 (counted_answers
                    (getDnsTypeNumber (DnsRecordType.toString recordType))
                    (fst (fetch_json env (base_query domain recordType) w)))),
     snd (fetch_json env (base_query domain recordType) w)).
Proof.
  unfold detect_type, base_query. run_async.
  destruct (fetch_json env _ w) as [[data|e] w1]; cbn [fst snd].
  - unfold push_response, counted_answers.
    destruct (DnsJson.Answer data) as [answers|];
      [|now rewrite app_nil_r].
    destruct (DnsJson.Status data =? 0); [|now rewrite app_nil_r].
    now rewrite push_answers_filter.
  - cbn [counted_answers map]. now rewrite app_nil_r.
Qed.

Lemma for_of_base_phase (domain : jsstring) (types : list DnsRecordType.t) :
  forall (detected : list DnsRecordImport.t) (w : W),
    for_of types (detect_type env domain) detected w
    = (Return (detected ++ fst (base_phase_records env domain types w)),
       snd (base_phase_records env domain types w)).
Proof.
  induction types as [|recordType rest IH]; intros detected w;
    cbn [for_of base_phase_records fst snd].
  - unfold ret. now rewrite app_nil_r.
  - unfold bind. rewrite detect_type_counted, IH, app_assoc. reflexivity.
Qed.

Lemma base_phase_records_priority (domain : jsstring)
      (types : list DnsRecordType.t) :
  forall w : W,
    Forall priority_before_space (fst (base_phase_records env domain types w)).
Proof.
  induction types as [|recordType rest IH]; intros w;
    cbn [base_phase_records fst]; [constructor|].
  apply Forall_app. split; [|apply IH].
  apply Forall_forall. intros d Hd. apply in_map_iff in Hd.
  destruct Hd as (a & <- & _). apply base_record_priority.
Qed.

End BasePhase.

(** C4, as the code has it.  In the base-domain phase a query adds one
    record for each answer that counts -- an answer of a response that
    arrived with [Status] 0, whose type code is that of the record type
    asked for -- in order, whichever type that is, and the phase adds
    what its eight queries add.  The record of an answer without a space
    in its data has no priority.  The record of an answer with a space
    has as priority the integer parse of what stands before the first
    space: that is the integer parse of the first whitespace-delimited
    word of the data when something other than whitespace stands there,
    and [NaN] when nothing else does, as in data that starts with a
    space. *)
Theorem base_phase_priority_before_the_first_space :
  forall (W : Type) (env : Env W) (domain : jsstring),
    (forall recordType detected w,
        detect_type env domain recordType detected w
        = (Return
             (detected
                ++ map (base_record recordType domain)
                       (counted_answers
                          (getDnsTypeNumber
                             (DnsRecordType.toString recordType))
                          (fst (fetch_json
                                  env (base_query domain recordType) w)))),
           snd (fetch_json env (base_query domain recordType) w)))
    /\ (forall detected w,
           let queried :=
             [ DnsRecordType.A; DnsRecordType.AAAA; DnsRecordType.CNAME;
               DnsRecordType.MX; DnsRecordType.TXT; DnsRecordType.NS;
               DnsRecordType.SRV; DnsRecordType.CAA ] in
           detect_base env domain detected w
           = (Return
                (detected ++ fst (base_phase_records env domain queried w)),
              snd (base_phase_records env domain queried w))
           /\ Forall priority_before_space
                     (fst (base_phase_records env domain queried w)))
    /\ (forall recordType answer,
           let data := DnsAnswer.data answer in
           let d := base_record recordType domain answer in
           DnsRecordImport.type d = recordType
           /\ DnsRecordImport.name d = domain
           /\ DnsRecordImport.content d = data
           /\ (~ In " "%char data -> DnsRecordImport.priority d = None)
           /\ (forall before rest,
                  data = before ++ " "%char :: rest ->
                  ~ In " "%char before ->
                  DnsRecordImport.priority d = Some (parseInt before)
                  /\ (trimStart before <> [] ->
                      parseInt before = parseInt (first_word data))
                  /\ (trimStart before = [] -> parseInt before = NaN))).
Proof.
  intros W env domain. split; [|split].
  - intros. apply detect_type_counted.
  - intros detected w queried. split.
    + apply for_of_base_phase.
    + apply base_phase_records_priority.
  - intros recordType answer data d.
    destruct (base_record_priority recordType domain answer) as (Hno & Hpri).
    split; [reflexivity|]. split; [reflexivity|]. split; [reflexivity|].
    split; [exact Hno|].
    intros before rest E H. split; [exact (Hpri before rest E H)|]. split.
    + intros Ht. subst data. rewrite E.
      rewrite <- (first_token_before before rest H) at 1.
      apply parseInt_token_is_word.
      now rewrite (first_token_before before rest H).
    + intros Ht. now rewrite <- parseInt_trimStart, Ht.
Qed.

(** C4, as stated.  The resolver answers the MX query on [example.com]
    with the data [" 10 mail.example.com."].  The data has a space and
    its first whitespace-delimited word is [10], but the one record that
    detection returns has [NaN] as priority: the code parses what stands
    before the first space, which is nothing. *)
Lemma priority_of_data_with_a_leading_space :
  exists d w',
    detectDnsRecords LeadingSpaceDemo.env (lit "example.com") []
    = (Return [d], w')
    /\ DnsRecordImport.type d = DnsRecordType.MX
    /\ DnsRecordImport.content d = lit " 10 mail.example.com."
    /\ In " "%char (DnsRecordImport.content d)
    /\ parseInt (first_word (DnsRecordImport.content d)) = Num 10
    /\ DnsRecordImport.priority d = Some NaN.
Proof.
  do 2 eexists. split; [vm_compute; reflexivity|].
  repeat split; try (vm_compute; reflexivity).
  cbn. tauto.
Qed.

(** An MX answer, a TXT answer and an address answer with a space in
    their data, and an address answer without. *)
Example priority_of_answers :
  DnsRecordImport.priority
    (base_record DnsRecordType.MX (lit "example.com")
                 (Demo.answer 15 (lit "10 mail.example.com.") (Some 3600)))
  = Some (Num 10)
  /\ DnsRecordImport.priority
       (base_record DnsRecordType.TXT (lit "example.com")
                    (Demo.answer 16 (lit "v=spf1 -all") None))
     = Some NaN
  /\ DnsRecordImport.priority
       (base_record DnsRecordType.A (lit "example.com")
                    (Demo.answer 1 (lit "192.0.2.1 20") None))
     = Some (Num 192)
  /\ DnsRecordImport.priority
       (base_record DnsRecordType.A (lit "example.com")
                    (Demo.answer 1 (lit "192.0.2.1") None))
     = None.
Proof. repeat split; vm_compute; reflexivity. Qed.

(** C8. Detection returns the records of the base-domain phase followed
    by those of the subdomain phase, and every record of the subdomain
    phase has type A (so none is a CNAME), [proxied = false], no priority,
    and as name one of www, mail, ftp, blog, shop, api, admin prefixed to
    the domain. *)
Theorem subdomain_phase_only_A_records :
  forall (W : Type) (env : Env W) (domain : jsstring) (w : W),
  exists base w1 added w2,
    detect_base env domain [] w = (Return base, w1)
    /\ detect_subdomains env domain base w1 = (Return (base ++ added), w2)
    /\ detectDnsRecords env domain w = (Return (base ++ added), w2)
    /\ Forall (subdomain_A_record domain) added
    /\ Forall (fun d => DnsRecordImport.type d <> DnsRecordType.CNAME) added.
Proof.
  intros W env domain w.
  assert (exists base w1,
             detect_base env domain [] w = (Return ([] ++ base), w1)
             /\ Forall (fun _ => True) base) as (base & w1 & E1 & _).
  { apply for_of_appends. intros recordType detected w0 _.
    destruct (detect_type_appends env domain recordType detected w0)
      as (answers & w' & E).
    do 2 eexists. split; [exact E|]. apply Forall_forall. auto. }
  assert (exists added w2,
             detect_subdomains env domain base w1
             = (Return (base ++ added), w2)
             /\ Forall (subdomain_A_record domain) added)
    as (added & w2 & E2 & P2).
  { apply for_of_appends. intros subdomain detected w0 Hin.
    destruct (detect_subdomain_appends env domain subdomain detected w0)
      as (answers & w' & E).
    do 2 eexists. split; [exact E|].
    apply Forall_forall. intros d Hd. apply in_map_iff in Hd.
    destruct Hd as (a & <- & _).
    repeat split. exists subdomain. auto. }
  simpl in E1. exists base, w1, added, w2.
  split; [exact E1|]. split; [exact E2|].
  split; [eapply detectDnsRecords_two_phases; eassumption|].
  split; [exact P2|].
  eapply Forall_impl; [|exact P2].
  intros d (Hty & _). rewrite Hty. discriminate.
Qed.

(* ================================================================= *)
(** ** Name-server propagation *)

Lemma current_nameservers_In (answers : list DnsAnswer.t) (ns : jsstring) :
  arr_includes
    (map (fun record => toLowerCase (DnsAnswer.data record))
         (filter (fun record => DnsAnswer.type record =? 2) answers))
    (toLowerCase ns) = true
  <-> resolved_ns answers ns.
Proof.
  rewrite arr_includes_In, in_map_iff. unfold resolved_ns.
  split; intros (a & H1 & H2); exists a.
  - apply filter_In in H2. destruct H2 as (Hin & Hty).
    apply Z.eqb_eq in Hty. auto.
  - destruct H2 as (Hty & Hlow). split; [assumption|].
    apply filter_In. split; [assumption | now apply Z.eqb_eq].
Qed.

(** C7. [checkNameserverPropagation] always returns a boolean and never
    throws; the boolean is [true] exactly when the NS lookup of the domain
    came back with status 0 and an answer list in which every expected
    name server occurs, compared case-insensitively, among the answers of
    type NS.  A failed lookup (the fetch or the JSON decoding threw, a
    non-zero status, no answer list) gives [false]. *)
Theorem checkNameserverPropagation_superset :
  forall (W : Type) (env : Env W) (domain : jsstring)
         (expectedNameservers : list jsstring) (w : W),
  exists b w',
    checkNameserverPropagation env domain expectedNameservers w
    = (Return b, w')
    /\ w' = snd (fetch_json env (resolve_url domain (lit "NS")) w)
    /\ (b = true
        <-> exists answers,
            fst (fetch_json env (resolve_url domain (lit "NS")) w)
            = Return {| DnsJson.Status := 0; DnsJson.Answer := Some answers |}
            /\ forall ns, In ns expectedNameservers -> resolved_ns answers ns).
Proof.
  intros W env domain expected w.
  unfold checkNameserverPropagation. run_async.
  destruct (fetch_json env (resolve_url domain (lit "NS")) w)
    as [[[status [answers|]]|e] w1]; simpl.
  - destruct (status =? 0) eqn:Hs; simpl.
    + apply Z.eqb_eq in Hs. subst status.
      eexists _, w1. split; [reflexivity|]. split; [reflexivity|].
      rewrite forallb_forall. split.
      * intros H. exists answers. split; [reflexivity|].
        intros ns Hin. apply current_nameservers_In. now apply H.
      * intros (answers' & E & H) ns Hin. injection E as <-.
        apply current_nameservers_In. now apply H.
    + exists false, w1. split; [reflexivity|]. split; [reflexivity|].
      split; [discriminate|].
      intros (answers' & E & _). injection E as E _.
      apply Z.eqb_neq in Hs. contradiction.
  - exists false, w1. split; [reflexivity|]. split; [reflexivity|].
    split; [discriminate|]. intros (answers' & E & _).
    destruct (status =? 0); discriminate.
  - exists false, w1. split; [reflexivity|]. split; [reflexivity|].
    split; [discriminate|]. intros (answers' & E & _). discriminate.
Qed.

(* ================================================================= *)
(** ** Replication *)

Section Replication.
Context {W : Type}.
Variable detect : jsstring -> Async W (list DnsRecordImport.t).
Variable import : list DnsRecordImport.t -> option jsstring
                  -> Async W (list DnsRecord.t).

(** Every path through [replicateDnsRecords]. *)
Lemma replicate_paths (sourceDomain : jsstring)
      (targetZoneId : option jsstring) (w : W) :
  replicateDnsRecords_via detect import sourceDomain targetZoneId w
  = match detect sourceDomain w with
    | (Throw e, w1) => (Return (replication_failed e), w1)
    | (Return [], w1) => (Return nothing_detected, w1)
    | (Return detected, w1) =>
        match import detected targetZoneId w1 with
        | (Throw e, w2) => (Return (replication_failed e), w2)
        | (Return replicated, w2) =>
            (Return {| ReplicationResult.detected := detected;
                       ReplicationResult.replicated := replicated;
                       ReplicationResult.errors := [] |}, w2)
        end
    end.
Proof.
  unfold replicateDnsRecords_via. run_async.
  destruct (detect sourceDomain w) as [[[|d detected]|e] w1]; simpl;
    try reflexivity.
  destruct (import (d :: detected) targetZoneId w1) as [[replicated|e] w2];
    reflexivity.
Qed.

Lemma replicate_returns (sourceDomain : jsstring)
      (targetZoneId : option jsstring) (w : W) :
  exists r w',
    replicateDnsRecords_via detect import sourceDomain targetZoneId w
    = (Return r, w').
Proof.
  rewrite replicate_paths.
  destruct (detect sourceDomain w) as [[[|d detected]|e] w1];
    try (do 2 eexists; reflexivity).
  destruct (import (d :: detected) targetZoneId w1) as [[replicated|e] w2];
    do 2 eexists; reflexivity.
Qed.

End Replication.

(** C10. [replicateDnsRecords] never throws: whatever the detection
    engine and the import do, it returns a result; and when the detection
    engine throws, that result has no detected record, no replicated
    record, and exactly one error, which wraps the message of the
    exception. *)
Theorem replicateDnsRecords_never_throws :
  forall (W : Type)
         (detect : jsstring -> Async W (list DnsRecordImport.t))
         (import : list DnsRecordImport.t -> option jsstring
                   -> Async W (list DnsRecord.t))
         (env : Env W)
         (sourceDomain : jsstring) (targetZoneId : option jsstring) (w : W),
    (exists r w',
        replicateDnsRecords env sourceDomain targetZoneId w = (Return r, w'))
    /\ (exists r w',
           replicateDnsRecords_via detect import sourceDomain targetZoneId w
           = (Return r, w'))
    /\ match detect sourceDomain w with
       | (Throw e, w1) =>
           replicateDnsRecords_via detect import sourceDomain targetZoneId w
           = (Return
                {| ReplicationResult.detected := [];
                   ReplicationResult.replicated := [];
                   ReplicationResult.errors :=
                     [lit "Failed to replicate DNS records: "
                        ++ error_message e] |}, w1)
       | (Return _, _) => True
       end.
Proof.
  intros. split; [apply replicate_returns|]. split; [apply replicate_returns|].
  rewrite replicate_paths.
  destruct (detect sourceDomain w) as [[detected|e] w1]; [exact I|reflexivity].
Qed.

(** C5. When the detection engine yields no descriptor, replication
    returns [{detected: [], replicated: [], errors: [one message]}]; it
    does not throw, and the world is left as detection left it, whatever
    the import would have done: no create-record call is attempted. *)
Theorem replicate_nothing_detected :
  forall (W : Type)
         (detect : jsstring -> Async W (list DnsRecordImport.t))
         (import : list DnsRecordImport.t -> option jsstring
                   -> Async W (list DnsRecord.t))
         (sourceDomain : jsstring) (targetZoneId : option jsstring)
         (w w1 : W),
    detect sourceDomain w = (Return [], w1) ->
    replicateDnsRecords_via detect import sourceDomain targetZoneId w
    = (Return
         {| ReplicationResult.detected := [];
            ReplicationResult.replicated := [];
            ReplicationResult.errors :=
              [lit "No DNS records detected for the domain"] |}, w1).
Proof.
  intros W detect import sourceDomain targetZoneId w w1 H.
  rewrite replicate_paths, H. reflexivity.
Qed.

(** In the demo world nothing resolves under [nothing.example]: the
    fifteen lookups are the only requests sent, none of them a POST. *)
Lemma replicate_nothing_detected_witness :
  replicateDnsRecords Demo.env (lit "nothing.example") None []
  = (Return nothing_detected, Demo.lookups (lit "nothing.example")).
Proof.
  apply (replicate_nothing_detected
           Demo.world
           (detectDnsRecords Demo.env) (importDnsRecords Demo.env)
           (lit "nothing.example") None []).
  vm_compute. reflexivity.
Defined.

(* ================================================================= *)
(** ** Import: what becomes of a failed creation *)

Section ImportLoop.
Context {W : Type} (env : Env W).

(** The import loop returns the records created, and nothing else: a
    failed creation leaves no trace in what it returns. *)
Lemma import_loop_counts (records : list DnsRecordImport.t) :
  forall (created : list DnsRecord.t) (w : W),
  exists created' w',
    import_loop env records created w = (Return created', w')
    /\ (length created' + failed_creations env records w
        = length created + length records)%nat.
Proof.
  induction records as [|record rest IH]; intros created w; simpl.
  - exists created, w. split; [reflexivity | lia].
  - run_async.
    destruct (createDnsRecord env (createRecordData record) w)
      as [[c|e] w1].
    + destruct (IH (created ++ [c]) w1) as (created' & w' & E & L).
      exists created', w'. split; [exact E|].
      rewrite length_app in L. simpl in L. lia.
    + destruct (IH created w1) as (created' & w' & E & L).
      exists created', w'. split; [exact E | lia].
Qed.

(** [importZoneFile] runs the same loop and does keep the failures. *)
Lemma zone_file_loop_attempts (records : list CreateDnsRecord.t) :
  forall (imported : list DnsRecord.t) (errors : list jsstring) (w : W),
    zone_file_loop env records imported errors w
    = (Return
         {| ZoneFileImport.imported :=
              imported
                ++ created_records (fst (zone_file_attempts env records w));
            ZoneFileImport.errors :=
              errors
                ++ import_failures (fst (zone_file_attempts env records w)) |},
       snd (zone_file_attempts env records w)).
Proof.
  induction records as [|record rest IH]; intros imported errors w;
    cbn [zone_file_loop zone_file_attempts fst snd].
  - unfold ret. cbn. now rewrite !app_nil_r.
  - destruct (createDnsRecord env record w) as [[c|e] w1];
      cbn [fst snd]; rewrite IH;
      cbn [created_records import_failures flat_map fst snd app];
      now rewrite <- !app_assoc.
Qed.

Lemma zone_file_attempts_records (records : list CreateDnsRecord.t) :
  forall w : W, map fst (fst (zone_file_attempts env records w)) = records.
Proof.
  induction records as [|record rest IH]; intros w;
    cbn [zone_file_attempts fst map]; [reflexivity|].
  now rewrite IH.
Qed.

(** X1. Replication of a non-empty detection into a configured zone, when
    the schema accepts every descriptor: N detected, N - M replicated
    where M creations failed, and an empty [errors]. *)
Lemma replicate_reports_no_creation_failure
      (sourceDomain : jsstring) (targetZoneId : option jsstring)
      (detected : list DnsRecordImport.t) (w w1 : W) :
  detectDnsRecords env sourceDomain w = (Return detected, w1) ->
  detected <> [] ->
  str_or targetZoneId (Config.zoneId (cloudflareConfig env)) <> [] ->
  map_outcome (DnsRecordImport_parse env) detected = Return detected ->
  exists replicated w2,
    replicateDnsRecords env sourceDomain targetZoneId w
    = (Return {| ReplicationResult.detected := detected;
                 ReplicationResult.replicated := replicated;
                 ReplicationResult.errors := [] |}, w2)
    /\ (length replicated + failed_creations env detected w1
        = length detected)%nat.
Proof.
  intros Hdetect Hne Hzone Hvalid.
  destruct (import_loop_counts detected [] w1)
    as (replicated & w2 & E & L).
  exists replicated, w2. split; [|exact L].
  unfold replicateDnsRecords. rewrite replicate_paths, Hdetect.
  destruct detected as [|d detected]; [contradiction|].
  unfold importDnsRecords.
  apply str_eqb_neq in Hzone. rewrite Hzone.
  run_async. rewrite Hvalid, E. reflexivity.
Qed.

End ImportLoop.

Lemma attempts_accounted
      (attempts : list (CreateDnsRecord.t * outcome DnsRecord.t)) :
  (length (created_records attempts) + length (import_failures attempts)
   = length attempts)%nat.
Proof.
  unfold created_records, import_failures.
  induction attempts as [|[record [c|e]] rest IH];
    cbn [flat_map snd app length] in *; lia.
Qed.

Lemma no_failure_iff
      (attempts : list (CreateDnsRecord.t * outcome DnsRecord.t)) :
  import_failures attempts = []
  <-> Forall (fun attempt => exists c, snd attempt = Return c) attempts.
Proof.
  unfold import_failures.
  induction attempts as [|[record [c|e]] rest IH];
    cbn [flat_map snd app] in *.
  - split; [constructor | reflexivity].
  - rewrite IH. split.
    + intros H. constructor; [now exists c | exact H].
    + intros H. now inversion H.
  - split; [discriminate|].
    intros H. inversion H as [|a l (c & Hc) Hl]. discriminate.
Qed.

(** X2. [importZoneFile] keeps every failure.  For a file that the
    parser reads, it attempts one creation for each record of the file,
    in order, and goes on after a failure; [imported] holds the records
    of the creations that returned and [errors] one message for each
    creation that threw, with the name of the record and the cause.  So
    the two lengths add up to the number of records, and [errors] is
    empty exactly when every creation returned. *)
Theorem zone_file_import_keeps_every_failure :
  forall (W : Type) (env : Env W) (zoneFileContent : jsstring)
         (zoneId : option jsstring) (records : list CreateDnsRecord.t)
         (w : W),
    parseZoneFile zoneFileContent = Return records ->
    exists attempts r w',
      zone_file_attempts env records w = (attempts, w')
      /\ importZoneFile env zoneFileContent zoneId w = (Return r, w')
      /\ map fst attempts = records
      /\ ZoneFileImport.imported r = created_records attempts
      /\ ZoneFileImport.errors r = import_failures attempts
      /\ (length (ZoneFileImport.imported r)
          + length (ZoneFileImport.errors r)
          = length records)%nat
      /\ (ZoneFileImport.errors r = []
          <-> Forall (fun attempt => exists c, snd attempt = Return c)
                     attempts).
Proof.
  intros W env zoneFileContent zoneId records w Hparse.
  exists (fst (zone_file_attempts env records w)).
  eexists. exists (snd (zone_file_attempts env records w)).
  split; [now destruct (zone_file_attempts env records w)|].
  unfold importZoneFile. rewrite Hparse, zone_file_loop_attempts.
  split; [reflexivity|].
  cbn [ZoneFileImport.imported ZoneFileImport.errors app].
  split; [apply zone_file_attempts_records|].
  split; [reflexivity|]. split; [reflexivity|]. split.
  - rewrite attempts_accounted.
    rewrite <- (zone_file_attempts_records env records w) at 2.
    now rewrite length_map.
  - apply no_failure_iff.
Qed.

(** A file with an address and a name server of [example.com], in the
    world of the examples, where the provider refuses name servers. *)
Lemma zone_file_import_keeps_every_failure_witness :
  importZoneFile
    Demo.env
    (lit "$ORIGIN example.com." ++ [LF]
       ++ lit "@ 300 IN A 192.0.2.1" ++ [LF]
       ++ lit "@ 300 IN NS ns1.registrar.example." ++ [LF])
    None []
  = (Return
       {| ZoneFileImport.imported :=
            [Demo.stored (lit "new") (lit "zoneA") (lit "example.com")
                         (lit "192.0.2.1") DnsRecordType.A (Num 300) None];
          ZoneFileImport.errors :=
            [lit "Failed to import record example.com: API Error: NS records are not accepted"] |},
     [lit "POST " ++ Demo.zones_url ++ lit "/zoneA/dns_records";
      lit "POST " ++ Demo.zones_url ++ lit "/zoneA/dns_records"]).
Proof.
  destruct (zone_file_import_keeps_every_failure
              Demo.world Demo.env
              (lit "$ORIGIN example.com." ++ [LF]
                 ++ lit "@ 300 IN A 192.0.2.1" ++ [LF]
                 ++ lit "@ 300 IN NS ns1.registrar.example." ++ [LF])
              None
              [ {| CreateDnsRecord.type := DnsRecordType.A;
                   CreateDnsRecord.name := lit "example.com";
                   CreateDnsRecord.content := lit "192.0.2.1";
                   CreateDnsRecord.ttl := Num 300;
                   CreateDnsRecord.priority := None;
                   CreateDnsRecord.proxied := Some false |};
                {| CreateDnsRecord.type := DnsRecordType.NS;
                   CreateDnsRecord.name := lit "example.com";
                   CreateDnsRecord.content := lit "ns1.registrar.example.";
                   CreateDnsRecord.ttl := Num 300;
                   CreateDnsRecord.priority := None;
                   CreateDnsRecord.proxied := Some false |} ]
              [])
    as (attempts & r & w' & Ea & E & _ & Hi & He & _).
  { vm_compute. reflexivity. }
  rewrite E. vm_compute in Ea. injection Ea as <- <-.
  destruct r as [imported errors].
  cbn [ZoneFileImport.imported ZoneFileImport.errors] in Hi, He.
  subst imported errors. vm_compute. reflexivity.
Defined.

(** In the demo world: four records detected, two creations refused,
    two records replicated, no error reported. *)
Lemma replicate_reports_no_creation_failure_witness :
  exists replicated w2,
    replicateDnsRecords Demo.env (lit "example.com") None []
    = (Return {| ReplicationResult.detected := Demo.example_records;
                 ReplicationResult.replicated := replicated;
                 ReplicationResult.errors := [] |}, w2)
    /\ (length replicated
        + failed_creations Demo.env Demo.example_records
                           (Demo.lookups (lit "example.com"))
        = length Demo.example_records)%nat.
Proof.
  apply (replicate_reports_no_creation_failure
           Demo.env (lit "example.com") None Demo.example_records
           [] (Demo.lookups (lit "example.com"))).
  - vm_compute. reflexivity.
  - discriminate.
  - discriminate.
  - reflexivity.
Defined.

(** C1, on the code.  In the demo world detection finds four records of
    [example.com] and the provider refuses the two NS records: the
    result has four detected and two replicated records, and its
    [errors] is empty, where two messages are due. *)
Theorem replicate_drops_creation_failures :
  exists detected w1 r w2,
    detectDnsRecords Demo.env (lit "example.com") [] = (Return detected, w1)
    /\ replicateDnsRecords Demo.env (lit "example.com") None []
       = (Return r, w2)
    /\ ReplicationResult.detected r = detected
    /\ length detected = 4%nat
    /\ failed_creations Demo.env detected w1 = 2%nat
    /\ length (ReplicationResult.replicated r) = 2%nat
    /\ ReplicationResult.errors r = [].
Proof.
  do 4 eexists. split; [vm_compute; reflexivity|].
  split; [vm_compute; reflexivity|].
  repeat split; vm_compute; reflexivity.
Qed.

(* ================================================================= *)
(** ** Migration *)

(** C6. When zone creation fails, [migrateDomainWithDetection] returns
    (it does not throw) the empty placeholder zone, no detected and no
    replicated record, and the error in [errors].  When zone creation
    succeeds the migration is never aborted: replication returns a result
    of its own (failures included, in its [errors]), and the migration
    returns the created zone with that result. *)
Theorem migrate_aborts_only_on_zone_creation :
  forall (W : Type) (env : Env W) (domain : jsstring)
         (zoneType : option jsstring) (w : W),
    match createZone env
            {| CreateZone.name := domain;
               CreateZone.type := str_or zoneType (lit "full");
               CreateZone.jump_start := false |} w with
    | (Throw e, w1) =>
        migrateDomainWithDetection env domain zoneType w
        = (Return
             {| MigrationResult.zone := EmptyObject;
                MigrationResult.detected := [];
                MigrationResult.replicated := [];
                MigrationResult.errors :=
                  [lit "Migration failed: " ++ error_message e];
                MigrationResult.nextSteps :=
                  [lit "Fix the errors and retry the migration"] |}, w1)
    | (Return zone, w1) =>
        exists replication w2,
          replicateDnsRecords env domain (Some (Zone.id zone)) w1
          = (Return replication, w2)
          /\ migrateDomainWithDetection env domain zoneType w
             = (Return
                  {| MigrationResult.zone := ZoneObject zone;
                     MigrationResult.detected :=
                       ReplicationResult.detected replication;
                     MigrationResult.replicated :=
                       ReplicationResult.replicated replication;
                     MigrationResult.errors :=
                       ReplicationResult.errors replication;
                     MigrationResult.nextSteps :=
                       migration_steps
                         zone (ReplicationResult.errors replication) |}, w2)
    end.
Proof.
  intros W env domain zoneType w.
  unfold migrateDomainWithDetection. run_async.
  destruct (createZone env _ w) as [[zone|e] w1]; [|reflexivity].
  destruct (replicate_returns (detectDnsRecords env) (importDnsRecords env)
                              domain (Some (Zone.id zone)) w1)
    as (replication & w2 & E).
  exists replication, w2. unfold replicateDnsRecords. rewrite E.
  split; [reflexivity|].
  destruct replication as [detected replicated [|err errors]]; reflexivity.
Qed.

(* ================================================================= *)
(** ** Validation of a zone *)

Section Validation.
Context {W : Type} (env : Env W).

(** Every path through [validateZoneSetup].  The zone is the one that
    [zoneId] names; the records are those that [listDnsRecords] returns,
    which are the records of the configured zone. *)
Lemma validate_paths (zoneId : jsstring) (w : W) :
  validateZoneSetup env zoneId w
  = match getZone env (Some zoneId) w with
    | (Throw e, w1) => (Return (validation_failed [] e), w1)
    | (Return zone, w1) =>
        let issues := status_issues zone ++ nameserver_issues zone in
        match listDnsRecords env w1 with
        | (Throw e, w2) => (Return (validation_failed issues e), w2)
        | (Return dnsRecords, w2) =>
            (Return
               {| ValidationResult.valid :=
                    (length (issues ++ record_issues dnsRecords) =? 0)%nat;
                  ValidationResult.issues :=
                    issues ++ record_issues dnsRecords |}, w2)
        end
    end.
Proof.
  unfold validateZoneSetup. run_async.
  destruct (getZone env (Some zoneId) w) as [[zone|e] w1]; [|reflexivity].
  unfold status_issues, nameserver_issues.
  destruct (ZoneStatus.is_active (Zone.status zone));
    destruct (Zone.name_servers zone) as [|ns nss]; simpl;
    destruct (listDnsRecords env w1) as [[[|r rs]|e] w2]; reflexivity.
Qed.

End Validation.

(* ================================================================= *)
(** ** The zone-file parser, line by line *)

(** A line throws exactly when it is a bare [$ORIGIN]. *)
Lemma parse_line_returns (st : zone_parser) (line : jsstring) :
  bare_origin line = false ->
  exists st', parse_line st line = Return st'.
Proof.
  unfold bare_origin, parse_line. intros H.
  destruct (startsWith (trim line) (lit ";") || str_eqb (trim line) []);
    [eexists; reflexivity|].
  destruct (startsWith (trim line) (lit "$TTL")); [eexists; reflexivity|].
  destruct (startsWith (trim line) (lit "$ORIGIN")) eqn:Ho.
  - simpl in H. apply Nat.ltb_ge in H.
    destruct (split_ws (trim line)) as [|p0 [|p1 ps]]; simpl in H; try lia.
    simpl. eexists; reflexivity.
  - destruct (4 <=? length (split_ws (trim line)))%nat; [|eexists; reflexivity].
    destruct (arr_includes zoneFileTypes _); [|eexists; reflexivity].
    destruct (DnsRecordType.of_string _); eexists; reflexivity.
Qed.

(** A line only ever appends to the records. *)
Lemma parse_line_appends (st st' : zone_parser) (line : jsstring) :
  parse_line st line = Return st' ->
  exists added, records st' = records st ++ added.
Proof.
  unfold parse_line.
  destruct (startsWith (trim line) (lit ";") || str_eqb (trim line) []).
  { intros [= <-]. exists []. now rewrite app_nil_r. }
  destruct (startsWith (trim line) (lit "$TTL")).
  { intros [= <-]. exists []. simpl. now rewrite app_nil_r. }
  destruct (startsWith (trim line) (lit "$ORIGIN")).
  { destruct (nth_error (split_ws (trim line)) 1); [|discriminate].
    intros [= <-]. exists []. simpl. now rewrite app_nil_r. }
  destruct (4 <=? length (split_ws (trim line)))%nat.
  2:{ intros [= <-]. exists []. now rewrite app_nil_r. }
  destruct (arr_includes zoneFileTypes _).
  2:{ intros [= <-]. exists []. now rewrite app_nil_r. }
  destruct (DnsRecordType.of_string _).
  - intros [= <-]. simpl. eexists. reflexivity.
  - intros [= <-]. exists []. now rewrite app_nil_r.
Qed.

(** A line that is no [$ORIGIN] directive returns and keeps the origin. *)
Lemma parse_line_keeps_origin (st : zone_parser) (line : jsstring) :
  startsWith (trim line) (lit "$ORIGIN") = false ->
  exists st', parse_line st line = Return st' /\ origin st' = origin st.
Proof.
  unfold parse_line. intros H. rewrite H.
  destruct (startsWith (trim line) (lit ";") || str_eqb (trim line) []);
    [eexists; split; reflexivity|].
  destruct (startsWith (trim line) (lit "$TTL"));
    [eexists; split; reflexivity|].
  destruct (4 <=? length (split_ws (trim line)))%nat;
    [|eexists; split; reflexivity].
  destruct (arr_includes zoneFileTypes _); [|eexists; split; reflexivity].
  destruct (DnsRecordType.of_string _); eexists; split; reflexivity.
Qed.

Lemma parse_lines_keep_origin (lines : list jsstring) :
  forall st,
    Forall (fun l => startsWith (trim l) (lit "$ORIGIN") = false) lines ->
    exists st', parse_lines st lines = Return st' /\ origin st' = origin st.
Proof.
  induction lines as [|line lines IH]; intros st H; simpl.
  - eexists; split; reflexivity.
  - inversion H as [|? ? Hl Hrest]; subst.
    destruct (parse_line_keeps_origin st line Hl) as (st1 & E1 & O1).
    rewrite E1. destruct (IH st1 Hrest) as (st2 & E2 & O2).
    exists st2. split; [exact E2 | congruence].
Qed.

Lemma parse_lines_append (lines : list jsstring) :
  forall st,
    Forall (fun l => bare_origin l = false) lines ->
    exists st' added,
      parse_lines st lines = Return st'
      /\ records st' = records st ++ added.
Proof.
  induction lines as [|line lines IH]; intros st H; simpl.
  - exists st, []. now rewrite app_nil_r.
  - inversion H as [|? ? Hl Hrest]; subst.
    destruct (parse_line_returns st line Hl) as (st1 & E1).
    rewrite E1. destruct (parse_line_appends _ _ _ E1) as (a1 & R1).
    destruct (IH st1 Hrest) as (st2 & a2 & E2 & R2).
    exists st2, (a1 ++ a2). split; [exact E2|].
    now rewrite R2, R1, app_assoc.
Qed.

Lemma parse_lines_app (l1 l2 : list jsstring) (st st1 : zone_parser) :
  parse_lines st l1 = Return st1 ->
  parse_lines st (l1 ++ l2) = parse_lines st1 l2.
Proof.
  revert st. induction l1 as [|line l1 IH]; intros st; simpl.
  - now intros [= <-].
  - destruct (parse_line st line) as [st'|e]; [apply IH | discriminate].
Qed.

(** The first part of a split starts with the first code unit of the
    string when that part is not empty. *)
Lemma split_ws_head (s : jsstring) (c : ascii) (tok : jsstring)
      (rest : list jsstring) :
  split_ws s = (c :: tok) :: rest -> exists s', s = c :: s'.
Proof.
  unfold split_ws. destruct s as [|c0 s]; simpl; [discriminate|].
  destruct (is_ws c0); [discriminate|].
  destruct (split_ws_from false s); intros [= -> _]; eauto.
Qed.

Lemma zoneFileTypes_of_string (type : jsstring) :
  In type zoneFileTypes ->
  exists ty,
    DnsRecordType.of_string type = Some ty
    /\ DnsRecordType.toString ty = type.
Proof.
  intros H. simpl in H.
  repeat (destruct H as [<-|H]; [eexists; split; reflexivity|]).
  contradiction.
Qed.

(** The record line [@ ttl class type fields...] read with an empty
    origin. *)
Lemma parse_at_line (st : zone_parser) (line ttl class type : jsstring)
      (fields : list jsstring) :
  origin st = [] ->
  split_ws (trim line) = lit "@" :: ttl :: class :: type :: fields ->
  In type zoneFileTypes ->
  exists record,
    parse_line st line
    = Return {| records := records st ++ [record];
                defaultTtl := defaultTtl st;
                origin := origin st |}
    /\ CreateDnsRecord.name record = []
    /\ DnsRecordType.toString (CreateDnsRecord.type record) = type
    /\ CreateDnsRecord.content record = join (lit " ") fields.
Proof.
  intros Horigin Hsplit Htype.
  destruct (split_ws_head _ _ _ _ Hsplit) as (s' & Htrim).
  destruct (zoneFileTypes_of_string _ Htype) as (ty & Hof & Hto).
  apply arr_includes_In in Htype.
  unfold parse_line. rewrite Hsplit. rewrite Htrim.
  replace (startsWith ("@"%char :: s') (lit ";")) with false by reflexivity.
  replace (str_eqb ("@"%char :: s') []) with false
    by (symmetry; apply str_eqb_neq; discriminate).
  replace (startsWith ("@"%char :: s') (lit "$TTL")) with false
    by reflexivity.
  replace (startsWith ("@"%char :: s') (lit "$ORIGIN")) with false
    by reflexivity.
  cbn [orb length Nat.leb nth skipn].
  rewrite str_eqb_refl, Htype, Hof, Horigin.
  eexists. split; [reflexivity|]. cbn. auto.
Qed.

(** C9. A record line whose name is [@], read before any [$ORIGIN]
    directive, gets the empty string as its name; the lines after it,
    [$ORIGIN] directives included, do not change that.  (The parse
    returns as long as no later line is a [$ORIGIN] with nothing after
    it.) *)
Theorem at_sign_before_any_origin_is_empty :
  forall (content : jsstring) (before after : list jsstring)
         (line ttl class type : jsstring) (fields : list jsstring),
    split LF content = before ++ line :: after ->
    Forall (fun l => startsWith (trim l) (lit "$ORIGIN") = false) before ->
    split_ws (trim line) = lit "@" :: ttl :: class :: type :: fields ->
    In type zoneFileTypes ->
    Forall (fun l => bare_origin l = false) after ->
    exists st record later,
      parse_lines initial_parser before = Return st
      /\ parseZoneFile content = Return (records st ++ record :: later)
      /\ CreateDnsRecord.name record = []
      /\ DnsRecordType.toString (CreateDnsRecord.type record) = type
      /\ CreateDnsRecord.content record = join (lit " ") fields.
Proof.
  intros content before after line ttl class type fields
         Hlines Hbefore Hline Htype Hafter.
  destruct (parse_lines_keep_origin before initial_parser Hbefore)
    as (st & Est & Ost).
  destruct (parse_at_line st line ttl class type fields Ost Hline Htype)
    as (record & Eline & Hname & Hty & Hcontent).
  destruct (parse_lines_append after
              {| records := records st ++ [record];
                 defaultTtl := defaultTtl st;
                 origin := origin st |} Hafter)
    as (st' & later & Eafter & Hrecords).
  exists st, record, later. split; [exact Est|].
  split; [|auto].
  unfold parseZoneFile. fold initial_parser. rewrite Hlines.
  rewrite (parse_lines_app _ _ _ _ Est). simpl parse_lines.
  rewrite Eline, Eafter, Hrecords. simpl. now rewrite <- app_assoc.
Qed.

(** The first [@] is read before the [$ORIGIN] of the second line and
    gets the empty name; the second [@] gets [example.com]. *)
Lemma at_sign_before_any_origin_is_empty_witness :
  exists st record later,
    parse_lines initial_parser [] = Return st
    /\ parseZoneFile
         (lit "@ 300 IN A 192.0.2.1" ++ [LF]
            ++ lit "$ORIGIN example.com." ++ [LF]
            ++ lit "@ 300 IN A 192.0.2.2")
       = Return (records st ++ record :: later)
    /\ CreateDnsRecord.name record = []
    /\ DnsRecordType.toString (CreateDnsRecord.type record) = lit "A"
    /\ CreateDnsRecord.content record = join (lit " ") [lit "192.0.2.1"].
Proof.
  apply (at_sign_before_any_origin_is_empty
           (lit "@ 300 IN A 192.0.2.1" ++ [LF]
              ++ lit "$ORIGIN example.com." ++ [LF]
              ++ lit "@ 300 IN A 192.0.2.2")
           []
           [lit "$ORIGIN example.com."; lit "@ 300 IN A 192.0.2.2"]
           (lit "@ 300 IN A 192.0.2.1")
           (lit "300") (lit "IN") (lit "A") [lit "192.0.2.1"]).
  - vm_compute. reflexivity.
  - constructor.
  - vm_compute. reflexivity.
  - simpl. auto.
  - repeat constructor.
Defined.

(* ================================================================= *)
(** ** The zone file of a record set, read back *)

Lemma zone_file_line_body (zone_name : jsstring) (record : DnsRecord.t) :
  zone_file_line zone_name record = line_body zone_name record ++ [LF].
Proof.
  unfold zone_file_line, line_body, exported_name, exported_priority.
  rewrite <- !app_assoc. reflexivity.
Qed.

(** The lines that [parseZoneFile] sees in an exported file. *)
Lemma exported_lines (zone_name : jsstring) (records : list DnsRecord.t) :
  no_lf zone_name = true ->
  Forall (fun r => no_lf (line_body zone_name r) = true) records ->
  split LF (zone_file_text zone_name records)
  = origin_line zone_name :: lit "$TTL 300" :: []
      :: map (line_body zone_name) records ++ [[]].
Proof.
  intros Hz Hr. unfold zone_file_text.
  rewrite fold_left_concat.
  rewrite (map_ext _ (fun r => line_body zone_name r ++ [LF])
                   (zone_file_line_body zone_name)).
  replace ((lit "$ORIGIN " ++ zone_name ++ lit "." ++ [LF]
              ++ lit "$TTL 300" ++ [LF] ++ [LF])
             ++ concat (map (fun r => line_body zone_name r ++ [LF]) records))
    with (origin_line zone_name
            ++ LF :: (lit "$TTL 300"
            ++ LF :: ([]
            ++ LF :: concat (map (fun r => line_body zone_name r ++ [LF])
                                 records)))).
  2:{ unfold origin_line. rewrite <- !app_assoc. reflexivity. }
  rewrite split_line.
  2:{ unfold origin_line. rewrite !no_lf_app, Hz. reflexivity. }
  rewrite split_line by reflexivity.
  rewrite split_line by reflexivity.
  rewrite (split_lines _ _ Hr). reflexivity.
Qed.

Lemma trimEnd_last (s : jsstring) (x : ascii) :
  is_ws x = false -> trimEnd (s ++ [x]) = s ++ [x].
Proof.
  intros Hx. induction s as [|c s IH]; cbn [app trimEnd].
  - now rewrite Hx.
  - rewrite IH. destruct (s ++ [x]) eqn:E; [|reflexivity].
    destruct s; discriminate.
Qed.

Lemma trim_head (c : ascii) (s : jsstring) :
  is_ws c = false -> trim (c :: s) = c :: trimEnd s.
Proof.
  intros H. unfold trim. cbn [trimStart]. rewrite H. now apply trimEnd_cons.
Qed.

Lemma replace_final_dot_last (s : jsstring) :
  replace_final_dot (s ++ lit ".") = s.
Proof.
  induction s as [|c s IH]; [reflexivity|].
  cbn [app replace_final_dot]. rewrite IH.
  destruct (s ++ lit ".") eqn:E; [|reflexivity].
  destruct s; discriminate.
Qed.

(** The [$ORIGIN] line of an export sets the origin to the zone name. *)
Lemma parse_origin_line (st : zone_parser) (zone_name : jsstring) :
  ws_free zone_name = true ->
  parse_line st (origin_line zone_name)
  = Return {| records := records st;
              defaultTtl := defaultTtl st;
              origin := zone_name |}.
Proof.
  intros Hz.
  assert (Htrim : trim (origin_line zone_name) = origin_line zone_name).
  { unfold origin_line. cbn [lit list_ascii_of_string app].
    rewrite trim_head by reflexivity. f_equal.
    change ("O"%char :: "R"%char :: "I"%char :: "G"%char :: "I"%char
              :: "N"%char :: " "%char :: zone_name ++ ["."%char])
      with ((lit "ORIGIN " ++ zone_name) ++ ["."%char]).
    now apply trimEnd_last. }
  assert (Hsplit : split_ws (origin_line zone_name)
                   = [lit "$ORIGIN"; zone_name ++ lit "."]).
  { unfold split_ws, origin_line.
    change (lit "$ORIGIN " ++ zone_name ++ lit ".")
      with (lit "$ORIGIN" ++ " "%char :: (zone_name ++ lit ".")).
    rewrite split_ws_token_sep by reflexivity.
    assert (Hw : ws_free (zone_name ++ lit ".") = true)
      by (rewrite ws_free_app, Hz; reflexivity).
    destruct (zone_name ++ lit ".") as [|c s] eqn:E.
    { destruct zone_name; discriminate. }
    assert (Hc : is_ws c = false).
    { cbn [ws_free forallb] in Hw. apply andb_prop in Hw.
      destruct Hw as (Hc & _). now apply negb_true_iff in Hc. }
    rewrite (split_ws_from_true_head _ _ Hc), (split_ws_token _ Hw).
    reflexivity. }
  unfold parse_line. rewrite Htrim, Hsplit.
  replace (startsWith (origin_line zone_name) (lit ";")) with false
    by reflexivity.
  replace (str_eqb (origin_line zone_name) []) with false
    by (symmetry; apply str_eqb_neq; discriminate).
  replace (startsWith (origin_line zone_name) (lit "$TTL")) with false
    by reflexivity.
  replace (startsWith (origin_line zone_name) (lit "$ORIGIN")) with true
    by reflexivity.
  cbn [orb nth_error]. now rewrite replace_final_dot_last.
Qed.

Lemma parse_ttl_line (st : zone_parser) :
  parse_line st (lit "$TTL 300")
  = Return {| records := records st;
              defaultTtl := Num 300;
              origin := origin st |}.
Proof. reflexivity. Qed.

Lemma parse_blank_line (st : zone_parser) : parse_line st [] = Return st.
Proof. reflexivity. Qed.

Lemma of_string_toString (ty : DnsRecordType.t) :
  DnsRecordType.of_string (DnsRecordType.toString ty) = Some ty.
Proof. destruct ty; reflexivity. Qed.

Lemma type_token (ty : DnsRecordType.t) :
  ws_free (DnsRecordType.toString ty) = true
  /\ non_empty (DnsRecordType.toString ty) = true.
Proof. destruct ty; split; reflexivity. Qed.

Lemma parse_record_line (st : zone_parser) (n : jsstring) (z : Z)
      (ty : DnsRecordType.t) (rest : jsstring) :
  name_token n = true ->
  z <> 0 ->
  arr_includes zoneFileTypes (DnsRecordType.toString ty) = true ->
  parse_line st (n ++ TAB ++ toString (Num z) ++ TAB ++ lit "IN" ++ TAB
                   ++ DnsRecordType.toString ty ++ TAB ++ rest)
  = Return {| records := records st ++ [line_record st n z ty rest];
              defaultTtl := defaultTtl st;
              origin := origin st |}.
Proof.
  intros Hn Hz Hty. unfold name_token in Hn.
  apply andb_prop in Hn. destruct Hn as (Hn & Hdollar).
  apply andb_prop in Hn. destruct Hn as (Hn & Hsemi).
  apply andb_prop in Hn. destruct Hn as (Hne & Hws).
  apply negb_true_iff in Hdollar, Hsemi.
  destruct (toString_token z) as (Hzws & Hzne).
  destruct (type_token ty) as (Htws & Htne).
  set (line := n ++ TAB ++ toString (Num z) ++ TAB ++ lit "IN" ++ TAB
                 ++ DnsRecordType.toString ty ++ TAB ++ rest).
  assert (Hparts : split_ws (trim line)
                   = n :: toString (Num z) :: lit "IN"
                       :: DnsRecordType.toString ty :: words rest).
  { unfold line, TAB. cbn [app].
    rewrite split_trim_token_sep by (assumption || reflexivity).
    rewrite words_token_sep by (assumption || reflexivity).
    rewrite (words_token_sep (lit "IN")) by reflexivity.
    rewrite words_token_sep by (assumption || reflexivity).
    reflexivity. }
  assert (Hhead : exists c s, trim line = c :: s
                              /\ Ascii.eqb ";" c = false
                              /\ Ascii.eqb "$" c = false).
  { unfold line. destruct n as [|c n]; [discriminate|].
    cbn [ws_free forallb] in Hws. apply andb_prop in Hws.
    destruct Hws as (Hc & _). apply negb_true_iff in Hc.
    cbn [app]. rewrite (trim_head _ _ Hc).
    exists c, (trimEnd (n ++ TAB ++ toString (Num z) ++ TAB ++ lit "IN"
                          ++ TAB ++ DnsRecordType.toString ty ++ TAB ++ rest)).
    split; [reflexivity|].
    cbn [startsWith lit list_ascii_of_string] in Hsemi, Hdollar.
    rewrite andb_true_r in Hsemi, Hdollar. auto. }
  destruct Hhead as (c & s & Htrim & Hc1 & Hc2).
  unfold parse_line. rewrite Hparts, Htrim.
  replace (startsWith (c :: s) (lit ";")) with false
    by (cbn [startsWith lit list_ascii_of_string]; now rewrite Hc1).
  replace (str_eqb (c :: s) []) with false
    by (symmetry; apply str_eqb_neq; discriminate).
  replace (startsWith (c :: s) (lit "$TTL")) with false
    by (cbn [startsWith lit list_ascii_of_string]; now rewrite Hc2).
  replace (startsWith (c :: s) (lit "$ORIGIN")) with false
    by (cbn [startsWith lit list_ascii_of_string]; now rewrite Hc2).
  cbn [orb length Nat.leb nth skipn].
  rewrite Hty, of_string_toString, parseInt_printed.
  replace (num_or (Num z) (defaultTtl st)) with (Num z)
    by (unfold num_or, truthy; apply Z.eqb_neq in Hz; now rewrite Hz).
  reflexivity.
Qed.

Lemma num_or_300 (n : number) :
  exists z, num_or n (Num 300) = Num z /\ z <> 0.
Proof.
  unfold num_or. destruct n as [|z]; cbn [truthy].
  - exists 300. split; [reflexivity | discriminate].
  - destruct (z =? 0) eqn:E; cbn [negb].
    + exists 300. split; [reflexivity | discriminate].
    + exists z. split; [reflexivity | now apply Z.eqb_neq].
Qed.

Lemma no_priority_exported (record : DnsRecord.t) :
  no_priority record = true -> exported_priority record = [].
Proof.
  unfold no_priority, exported_priority.
  destruct (DnsRecord.priority record) as [p|]; [|reflexivity].
  destruct (truthy p); [discriminate | reflexivity].
Qed.

Lemma exported_name_token (zone_name : jsstring) (record : DnsRecord.t) :
  str_eqb (DnsRecord.name record) zone_name
  || plain_name (replace (DnsRecord.name record) (lit "." ++ zone_name) [])
  = true ->
  name_token (exported_name zone_name record) = true.
Proof.
  unfold exported_name.
  destruct (str_eqb (DnsRecord.name record) zone_name); [reflexivity|].
  cbn [orb]. unfold plain_name. intros H.
  apply andb_prop in H. destruct H as (H & _).
  apply andb_prop in H. now destruct H as (H & _).
Qed.

Section RoundTrip.
Variable zone_name : jsstring.
Hypothesis Hzone : plain_zone zone_name = true.

Lemma exportable_no_lf (record : DnsRecord.t) :
  exportable zone_name record = true ->
  no_lf (line_body zone_name record) = true.
Proof.
  unfold exportable. intros H.
  apply andb_prop in H. destruct H as (H & Hcontent).
  apply andb_prop in H. destruct H as (H & Hname).
  apply andb_prop in H. destruct H as (_ & Hprio).
  pose proof (exported_name_token _ _ Hname) as Htok.
  unfold name_token in Htok.
  apply andb_prop in Htok. destruct Htok as (Htok & _).
  apply andb_prop in Htok. destruct Htok as (Htok & _).
  apply andb_prop in Htok. destruct Htok as (_ & Hws).
  destruct (num_or_300 (DnsRecord.ttl record)) as (z & Ez & _).
  destruct (toString_token z) as (Hzws & _).
  destruct (type_token (DnsRecord.type record)) as (Htws & _).
  unfold line_body. rewrite Ez, (no_priority_exported _ Hprio).
  rewrite !no_lf_app.
  rewrite (ws_free_no_lf _ Hws), (ws_free_no_lf _ Hzws),
    (ws_free_no_lf _ Htws), Hcontent.
  reflexivity.
Qed.

Lemma parse_exported_line (st : zone_parser) (record : DnsRecord.t) :
  origin st = zone_name ->
  exportable zone_name record = true ->
  exists parsed,
    parse_line st (line_body zone_name record)
    = Return {| records := records st ++ [parsed];
                defaultTtl := defaultTtl st;
                origin := origin st |}
    /\ read_back zone_name record parsed.
Proof.
  intros Horigin H. unfold exportable in H.
  apply andb_prop in H. destruct H as (H & Hcontent).
  apply andb_prop in H. destruct H as (H & Hname).
  apply andb_prop in H. destruct H as (Htype & Hprio).
  pose proof (exported_name_token _ _ Hname) as Htok.
  destruct (num_or_300 (DnsRecord.ttl record)) as (z & Ez & Hz).
  unfold line_body. rewrite Ez, (no_priority_exported _ Hprio).
  cbn [app].
  rewrite (parse_record_line st _ z _ _ Htok Hz Htype).
  eexists. split; [reflexivity|].
  unfold read_back, line_record.
  cbn [CreateDnsRecord.type CreateDnsRecord.name CreateDnsRecord.content
       CreateDnsRecord.ttl CreateDnsRecord.proxied].
  split; [reflexivity|]. split; [|now rewrite Ez].
  unfold relative_name, exported_name in *.
  unfold plain_zone in Hzone. apply andb_prop in Hzone.
  destruct Hzone as (_ & Hdot). apply negb_true_iff in Hdot.
  destruct (str_eqb (DnsRecord.name record) zone_name).
  - rewrite str_eqb_refl, Horigin, Hdot. reflexivity.
  - cbn [orb] in Hname. unfold plain_name in Hname.
    apply andb_prop in Hname. destruct Hname as (Hname & Hat).
    apply andb_prop in Hname. destruct Hname as (_ & Hd).
    apply negb_true_iff in Hat, Hd. rewrite Hat, Hd. reflexivity.
Qed.

Lemma parse_exported_lines (exported : list DnsRecord.t) :
  forall st,
    origin st = zone_name ->
    forallb (exportable zone_name) exported = true ->
    exists parsed,
      parse_lines st (map (line_body zone_name) exported)
      = Return {| records := records st ++ parsed;
                  defaultTtl := defaultTtl st;
                  origin := origin st |}
      /\ Forall2 (read_back zone_name) exported parsed.
Proof.
  induction exported as [|record exported IH]; intros st Horigin H.
  - exists []. rewrite app_nil_r. destruct st. split; [reflexivity|constructor].
  - cbn [forallb] in H. apply andb_prop in H. destruct H as (Hr & Hrs).
    destruct (parse_exported_line st record Horigin Hr) as (p & Ep & Rp).
    cbn [map parse_lines]. rewrite Ep.
    destruct (IH {| records := records st ++ [p];
                    defaultTtl := defaultTtl st;
                    origin := origin st |} Horigin Hrs)
      as (ps & Eps & Rps).
    exists (p :: ps). rewrite Eps. cbn [records defaultTtl origin].
    rewrite <- app_assoc. split; [reflexivity | now constructor].
Qed.

End RoundTrip.

(** An address record of [www.example.com] in the zone [example.com] is
    exported under the name [www], and [www] is what the parser returns:
    the triple with the full name is lost. *)
Lemma round_trip_loses_the_zone_suffix :
  ~ same_triples
      (lit "example.com")
      [Demo.stored (lit "r1") (lit "zoneA") (lit "www.example.com")
                   (lit "192.0.2.1") DnsRecordType.A (Num 300) None].
Proof.
  intros (parsed & E & H).
  vm_compute in E. injection E as <-.
  destruct (H (DnsRecordType.A, lit "www.example.com", lit "192.0.2.1"))
    as (H1 & _).
  destruct H1 as [X|[]]; [left; vm_compute; reflexivity|].
  vm_compute in X. discriminate X.
Qed.

(** C2, as the code has it.  For a zone name without whitespace or final
    dot, and records of the types the parser knows, without priority,
    with a content free of line feeds and a name that is the zone name
    or is exported as a plain relative name: the exported zone file
    parses, into one record per exported record, in order, with the same
    type, the content with its whitespace collapsed, the TTL (300 when
    the record had none), [proxied = false], and as name the zone name
    for the apex and the exported relative name otherwise -- the
    [.zone] suffix that the export removed is not put back. *)
Theorem zone_file_round_trip_relative :
  forall (zone_name : jsstring) (exported : list DnsRecord.t),
    plain_zone zone_name = true ->
    forallb (exportable zone_name) exported = true ->
    exists parsed,
      parseZoneFile (zone_file_text zone_name exported) = Return parsed
      /\ Forall2 (read_back zone_name) exported parsed.
Proof.
  intros zone_name exported Hzone Hexp.
  assert (Hws : ws_free zone_name = true).
  { unfold plain_zone in Hzone. apply andb_prop in Hzone. tauto. }
  destruct (parse_exported_lines zone_name Hzone exported
              {| records := []; defaultTtl := Num 300; origin := zone_name |}
              eq_refl Hexp)
    as (parsed & E & R).
  exists parsed. split; [|exact R].
  unfold parseZoneFile. rewrite exported_lines.
  - cbn [parse_lines]. rewrite (parse_origin_line _ _ Hws).
    rewrite parse_ttl_line, parse_blank_line.
    cbn [records defaultTtl origin].
    rewrite (parse_lines_app _ [[]] _ _ E).
    reflexivity.
  - now apply ws_free_no_lf.
  - apply Forall_forall. intros r Hr.
    apply (exportable_no_lf zone_name). 
    rewrite forallb_forall in Hexp. now apply Hexp.
Qed.

(** Three records of [example.com]: the apex address, the address of
    [www] (read back as [www]), and a text record whose content has two
    spaces in a row and no TTL of its own. *)
Lemma zone_file_round_trip_relative_witness :
  exists parsed,
    parseZoneFile
      (zone_file_text
         (lit "example.com")
         [Demo.stored (lit "r1") (lit "zoneA") (lit "example.com")
                      (lit "192.0.2.1") DnsRecordType.A (Num 3600) None;
          Demo.stored (lit "r2") (lit "zoneA") (lit "www.example.com")
                      (lit "192.0.2.1") DnsRecordType.A (Num 1) None;
          Demo.stored (lit "r3") (lit "zoneA") (lit "example.com")
                      (lit "v=spf1  -all") DnsRecordType.TXT (Num 0) None])
    = Return parsed
    /\ Forall2 (read_back (lit "example.com"))
         [Demo.stored (lit "r1") (lit "zoneA") (lit "example.com")
                      (lit "192.0.2.1") DnsRecordType.A (Num 3600) None;
          Demo.stored (lit "r2") (lit "zoneA") (lit "www.example.com")
                      (lit "192.0.2.1") DnsRecordType.A (Num 1) None;
          Demo.stored (lit "r3") (lit "zoneA") (lit "example.com")
                      (lit "v=spf1  -all") DnsRecordType.TXT (Num 0) None]
         parsed.
Proof.
  apply zone_file_round_trip_relative; vm_compute; reflexivity.
Defined.

(** The parser knows no PTR record: the export writes its line and the
    import skips it. *)
Example ptr_record_is_dropped :
  parseZoneFile
    (zone_file_text
       (lit "2.0.192.in-addr.arpa")
       [Demo.stored (lit "r1") (lit "zoneA") (lit "1.2.0.192.in-addr.arpa")
                    (lit "host.example.com") DnsRecordType.PTR (Num 300)
                    None])
  = Return [].
Proof. vm_compute. reflexivity. Qed.

(** The priority of an MX record is read back, and also read into the
    content. *)
Example priority_is_read_into_content :
  parseZoneFile
    (zone_file_text
       (lit "example.com")
       [Demo.stored (lit "r1") (lit "zoneA") (lit "example.com")
                    (lit "mail.example.com") DnsRecordType.MX (Num 300)
                    (Some (Num 10))])
  = Return
      [{| CreateDnsRecord.type := DnsRecordType.MX;
          CreateDnsRecord.name := lit "example.com";
          CreateDnsRecord.content := lit "10 mail.example.com";
          CreateDnsRecord.ttl := Num 300;
          CreateDnsRecord.priority := Some (Num 10);
          CreateDnsRecord.proxied := Some false |}].
Proof. vm_compute. reflexivity. Qed.


(* ================================================================= *)
(** ** What detection hands to the import *)

Lemma answer_ttl_number (answer : DnsAnswer.t) :
  exists ttl, ttl <> 0 /\ answer_ttl answer = Num ttl.
Proof.
  unfold answer_ttl. destruct (DnsAnswer.TTL answer) as [z|]; simpl.
  - unfold num_or. simpl. destruct (z =? 0) eqn:E; simpl.
    + exists 300. split; [lia | reflexivity].
    + exists z. apply Z.eqb_neq in E. split; [exact E | reflexivity].
  - exists 300. split; [lia | reflexivity].
Qed.

Lemma createRecordData_ttl (d : DnsRecordImport.t) (ttl : Z) :
  ttl <> 0 ->
  DnsRecordImport.ttl d = Some (Num ttl) ->
  CreateDnsRecord.ttl (createRecordData d) = Num ttl.
Proof.
  intros Hz E. unfold createRecordData. simpl. rewrite E. simpl.
  unfold num_or. simpl. apply Z.eqb_neq in Hz. now rewrite Hz.
Qed.

Lemma base_record_shape (recordType : DnsRecordType.t) (domain : jsstring)
      (answer : DnsAnswer.t) :
  In recordType recordTypes ->
  detected_shape domain (base_record recordType domain answer).
Proof.
  intros Hin. destruct (answer_ttl_number answer) as (ttl & Hz & E).
  split; [reflexivity|]. split; [exact Hin|]. split; [now left|].
  exists ttl. split; [exact Hz|].
  assert (Httl : DnsRecordImport.ttl (base_record recordType domain answer)
                 = Some (Num ttl)) by (simpl; now rewrite E).
  split; [exact Httl | now apply createRecordData_ttl].
Qed.

Lemma subdomain_record_shape (domain subdomain : jsstring)
      (answer : DnsAnswer.t) :
  In subdomain commonSubdomains ->
  detected_shape domain
    (subdomain_record (subdomain ++ lit "." ++ domain) answer).
Proof.
  intros Hin. destruct (answer_ttl_number answer) as (ttl & Hz & E).
  split; [reflexivity|]. split; [now left|]. split.
  { right. exists subdomain. split; [exact Hin | reflexivity]. }
  exists ttl. split; [exact Hz|].
  assert (Httl : DnsRecordImport.ttl
                   (subdomain_record (subdomain ++ lit "." ++ domain) answer)
                 = Some (Num ttl)) by (simpl; now rewrite E).
  split; [exact Httl | now apply createRecordData_ttl].
Qed.

(** X4. [detectDnsRecords] always returns, whatever the resolver does,
    and every record it returns is not proxied, has one of the eight
    queried types (never PTR), is named by the domain or by one of the
    seven common subdomains of it, and has a time to live that is a
    number other than zero (the answer's, or 300) -- so that the [|| 1]
    of [importDnsRecords] never replaces it. *)
Theorem detected_records_shape :
  forall (W : Type) (env : Env W) (domain : jsstring) (w : W),
  exists detected w',
    detectDnsRecords env domain w = (Return detected, w')
    /\ Forall (detected_shape domain) detected.
Proof.
  intros W env domain w.
  destruct (for_of_appends (detected_shape domain) recordTypes
              (detect_type env domain)) with (detected := @nil DnsRecordImport.t)
                                             (w := w)
    as (base & w1 & E1 & P1).
  { intros recordType detected v Hin.
    destruct (detect_type_appends env domain recordType detected v)
      as (answers & v' & E).
    exists (map (base_record recordType domain) answers), v'.
    split; [exact E|]. apply Forall_forall. intros d Hd.
    apply in_map_iff in Hd. destruct Hd as (a & <- & _).
    now apply base_record_shape. }
  destruct (for_of_appends (detected_shape domain) commonSubdomains
              (detect_subdomain env domain)) with (detected := base) (w := w1)
    as (added & w2 & E2 & P2).
  { intros subdomain detected v Hin.
    destruct (detect_subdomain_appends env domain subdomain detected v)
      as (answers & v' & E).
    exists (map (subdomain_record (subdomain ++ lit "." ++ domain)) answers), v'.
    split; [exact E|]. apply Forall_forall. intros d Hd.
    apply in_map_iff in Hd. destruct Hd as (a & <- & _).
    now apply subdomain_record_shape. }
  exists (base ++ added), w2. split.
  - apply detectDnsRecords_two_phases with (base := base) (w1 := w1);
      [exact E1 | exact E2].
  - now apply Forall_app.
Qed.

(* ================================================================= *)
(** ** The zone that import, export and replication work on *)

Lemma str_or_configured (zoneId : option jsstring) (configured : jsstring) :
  configured <> [] -> str_eqb (str_or zoneId configured) [] = false.
Proof.
  intros H. apply str_eqb_neq.
  destruct zoneId as [[|c s]|]; simpl; [exact H | discriminate | exact H].
Qed.

(** X5. Once a zone is configured, the zone id that is passed to
    [importDnsRecords], [exportDnsRecords] and [replicateDnsRecords] has
    no effect: the operation does the same requests and returns the same
    whatever the argument is, so the records go to, and come from, the
    configured zone.  In particular a migration replicates into the
    configured zone and not into the zone it has just created. *)
Theorem zone_argument_is_only_checked :
  forall (W : Type) (env : Env W) (zoneId zoneId' : option jsstring),
    Config.zoneId (cloudflareConfig env) <> [] ->
    (forall records w,
        importDnsRecords env records zoneId w
        = importDnsRecords env records zoneId' w)
    /\ (forall w,
           exportDnsRecords env zoneId w = exportDnsRecords env zoneId' w)
    /\ (forall sourceDomain w,
           replicateDnsRecords env sourceDomain zoneId w
           = replicateDnsRecords env sourceDomain zoneId' w)
    /\ (forall domain zoneType zone w w1,
           createZone env
             {| CreateZone.name := domain;
                CreateZone.type := str_or zoneType (lit "full");
                CreateZone.jump_start := false |} w = (Return zone, w1) ->
           exists replication w2,
             replicateDnsRecords env domain None w1 = (Return replication, w2)
             /\ fst (migrateDomainWithDetection env domain zoneType w)
                = Return
                    {| MigrationResult.zone := ZoneObject zone;
                       MigrationResult.detected :=
                         ReplicationResult.detected replication;
                       MigrationResult.replicated :=
                         ReplicationResult.replicated replication;
                       MigrationResult.errors :=
                         ReplicationResult.errors replication;
                       MigrationResult.nextSteps :=
                         migration_steps
                           zone (ReplicationResult.errors replication) |}
             /\ snd (migrateDomainWithDetection env domain zoneType w) = w2).
Proof.
  intros W env zoneId zoneId' Hzone.
  assert (Himport : forall z z' records w,
             importDnsRecords env records z w
             = importDnsRecords env records z' w).
  { intros z z' records w. unfold importDnsRecords.
    now rewrite !str_or_configured by exact Hzone. }
  assert (Hreplicate : forall z z' sourceDomain w,
             replicateDnsRecords env sourceDomain z w
             = replicateDnsRecords env sourceDomain z' w).
  { intros z z' sourceDomain w. unfold replicateDnsRecords.
    rewrite !replicate_paths.
    destruct (detectDnsRecords env sourceDomain w) as [[[|d ds]|e] w1];
      try reflexivity.
    now rewrite (Himport z z'). }
  split; [apply Himport|]. split.
  { intros w. unfold exportDnsRecords.
    now rewrite !str_or_configured by exact Hzone. }
  split; [apply Hreplicate|].
  intros domain zoneType zone w w1 Hcreate.
  destruct (replicate_returns (detectDnsRecords env) (importDnsRecords env)
                              domain None w1) as (replication & w2 & E).
  exists replication, w2. split; [exact E|].
  unfold migrateDomainWithDetection. run_async. rewrite Hcreate.
  rewrite (Hreplicate (Some (Zone.id zone)) None).
  unfold replicateDnsRecords in E |- *. rewrite E.
  unfold migration_steps.
  destruct (ReplicationResult.errors replication); simpl;
    split; reflexivity.
Qed.

(** An import into [zoneB] in the world of the examples, where [zoneA]
    is configured: the records are posted to [zoneA]. *)
Lemma zone_argument_is_only_checked_witness :
  Config.zoneId (cloudflareConfig Demo.env) <> []
  /\ importDnsRecords Demo.env Demo.example_records (Some (lit "zoneB")) []
     = importDnsRecords Demo.env Demo.example_records None []
  /\ In (lit "POST " ++ Demo.zones_url ++ lit "/zoneA/dns_records")
        (snd (importDnsRecords Demo.env Demo.example_records
                               (Some (lit "zoneB")) [])).
Proof.
  split; [discriminate|]. split.
  - apply (zone_argument_is_only_checked
             Demo.world Demo.env (Some (lit "zoneB")) None).
    discriminate.
  - vm_compute. tauto.
Defined.

Section Unconfigured.
Context {W : Type} (env : Env W).
Hypothesis Hzone : Config.zoneId (cloudflareConfig env) = [].

Lemma createDnsRecord_unconfigured (record : CreateDnsRecord.t) (w : W) :
  exists e, createDnsRecord env record w = (Throw e, w).
Proof.
  unfold createDnsRecord, api_url. run_async.
  destruct (CreateDnsRecordRequest_parse env record) as [validated|e].
  - rewrite Hzone. simpl. eexists; reflexivity.
  - eexists; reflexivity.
Qed.

Lemma import_loop_unconfigured (records : list DnsRecordImport.t) :
  forall (created : list DnsRecord.t) (w : W),
    import_loop env records created w = (Return created, w).
Proof.
  induction records as [|record rest IH]; intros created w; simpl.
  - reflexivity.
  - run_async.
    destruct (createDnsRecord_unconfigured (createRecordData record) w)
      as (e & E).
    rewrite E. apply IH.
Qed.

End Unconfigured.

(** X6. When no zone is configured but a zone id is passed,
    [importDnsRecords] sends no request and creates nothing, and it
    reports no failure either: every creation fails before its request,
    on the missing configured zone, and the failure is dropped.  A
    replication then returns the detected records with nothing
    replicated and no error. *)
Theorem import_without_configured_zone :
  forall (W : Type) (env : Env W) (zoneId : jsstring),
    Config.zoneId (cloudflareConfig env) = [] ->
    zoneId <> [] ->
    (forall records validated w,
        map_outcome (DnsRecordImport_parse env) records = Return validated ->
        importDnsRecords env records (Some zoneId) w = (Return [], w))
    /\ (forall sourceDomain detected validated w w1,
           detectDnsRecords env sourceDomain w = (Return detected, w1) ->
           detected <> [] ->
           map_outcome (DnsRecordImport_parse env) detected
           = Return validated ->
           replicateDnsRecords env sourceDomain (Some zoneId) w
           = (Return {| ReplicationResult.detected := detected;
                        ReplicationResult.replicated := [];
                        ReplicationResult.errors := [] |}, w1)).
Proof.
  intros W env zoneId Hzone Hid.
  assert (Himport : forall records validated w,
             map_outcome (DnsRecordImport_parse env) records
             = Return validated ->
             importDnsRecords env records (Some zoneId) w = (Return [], w)).
  { intros records validated w Hvalid. unfold importDnsRecords.
    destruct zoneId as [|c z]; [contradiction|]. simpl.
    run_async. rewrite Hvalid.
    now apply import_loop_unconfigured. }
  split; [exact Himport|].
  intros sourceDomain detected validated w w1 Hdetect Hne Hvalid.
  unfold replicateDnsRecords. rewrite replicate_paths, Hdetect.
  destruct detected as [|d ds]; [contradiction|].
  now rewrite (Himport _ _ _ Hvalid).
Qed.

Lemma import_without_configured_zone_witness :
  importDnsRecords (Demo.env_for []) Demo.example_records
                   (Some (lit "zoneB")) []
  = (Return [], []).
Proof.
  apply (import_without_configured_zone
           Demo.world (Demo.env_for []) (lit "zoneB")
           eq_refl ltac:(discriminate))
    with (validated := Demo.example_records).
  reflexivity.
Defined.

(* ================================================================= *)
(** ** When a zone is valid *)

Lemma validateZoneSetup_returns {W : Type} (env : Env W) (zoneId : jsstring)
      (w : W) :
  exists r w', validateZoneSetup env zoneId w = (Return r, w').
Proof.
  rewrite validate_paths.
  destruct (getZone env (Some zoneId) w) as [[zone|e] w1];
    [|eexists _, _; reflexivity].
  simpl. destruct (listDnsRecords env w1) as [[dnsRecords|e] w2];
    eexists _, _; reflexivity.
Qed.

(** X7. [validateZoneSetup] never throws, and its verdict is sound and
    complete for what it looks at: [valid] is [true] exactly when
    [issues] is empty, and exactly when the zone could be fetched, is
    active and has name servers, and the record list could be fetched
    and is not empty. *)
Theorem validateZoneSetup_valid_iff :
  forall (W : Type) (env : Env W) (zoneId : jsstring) (w : W),
  exists r w',
    validateZoneSetup env zoneId w = (Return r, w')
    /\ (ValidationResult.valid r = true <-> ValidationResult.issues r = [])
    /\ (ValidationResult.valid r = true
        <-> exists zone w1 dnsRecords,
            getZone env (Some zoneId) w = (Return zone, w1)
            /\ zone_ready zone
            /\ listDnsRecords env w1 = (Return dnsRecords, w')
            /\ dnsRecords <> []).
Proof.
  intros W env zoneId w. rewrite validate_paths.
  destruct (getZone env (Some zoneId) w) as [[zone|e] w1] eqn:Hz.
  2:{ do 2 eexists. split; [reflexivity|]. simpl. split.
      - split; discriminate.
      - split; [discriminate|]. intros (z & v & rs & H & _). discriminate. }
  simpl.
  destruct (listDnsRecords env w1) as [[dnsRecords|e] w2] eqn:Hl.
  2:{ do 2 eexists. split; [reflexivity|]. simpl. split.
      - split; [discriminate|].
        intros H. apply app_eq_nil in H. destruct H; discriminate.
      - split; [discriminate|].
        intros (z & v & rs & [= <- <-] & _ & H & _).
        rewrite Hl in H. discriminate. }
  do 2 eexists. split; [reflexivity|]. simpl.
  unfold status_issues, nameserver_issues, record_issues, zone_ready.
  split.
  - destruct (ZoneStatus.is_active (Zone.status zone));
      destruct (Zone.name_servers zone); destruct dnsRecords; simpl;
      split; congruence.
  - split.
    + intros Hvalid. exists zone, w1, dnsRecords.
      destruct (Zone.status zone); destruct (Zone.name_servers zone);
        destruct dnsRecords; simpl in Hvalid; try discriminate.
      repeat split; congruence.
    + intros (z & v & ds & [= <- <-] & (Ha & Hb) & Hl' & Hc).
      rewrite Hl in Hl'. injection Hl' as <-.
      rewrite Ha. destruct (Zone.name_servers zone); [contradiction|].
      destruct dnsRecords; [contradiction | reflexivity].
Qed.

(* ================================================================= *)
(** ** The zone-file parser: where it fails, and what it returns *)

Lemma startsWith_head (s : jsstring) (c : ascii) (p : jsstring) :
  startsWith s (c :: p) = true -> exists t, s = c :: t /\ startsWith t p = true.
Proof.
  destruct s as [|b t]; simpl; [discriminate|].
  intros H. apply andb_prop in H. destruct H as [E H].
  apply Ascii.eqb_eq in E. subst b. now exists t.
Qed.

(** A bare [$ORIGIN] line throws, in whatever state the parser is. *)
Lemma parse_line_throws (st : zone_parser) (line : jsstring) :
  bare_origin line = true -> parse_line st line = Throw undefined_replace.
Proof.
  unfold bare_origin, parse_line. intros H.
  apply andb_prop in H. destruct H as [Ho Hlen].
  destruct (startsWith_head _ _ _ Ho) as (t & Et & Ht).
  destruct (startsWith_head _ _ _ Ht) as (t' & Et' & _).
  rewrite Ho. rewrite Et, Et'.
  change (startsWith ("$"%char :: "O"%char :: t') (lit ";")) with false.
  change (str_eqb ("$"%char :: "O"%char :: t') []) with false.
  change (startsWith ("$"%char :: "O"%char :: t') (lit "$TTL")) with false.
  rewrite <- Et', <- Et. simpl.
  apply Nat.ltb_lt in Hlen.
  destruct (split_ws (trim line)) as [|p0 [|p1 ps]]; simpl in *;
    [reflexivity | reflexivity | lia].
Qed.

Lemma parse_lines_throw (lines : list jsstring) :
  forall st e,
    parse_lines st lines = Throw e ->
    e = undefined_replace /\ existsb bare_origin lines = true.
Proof.
  induction lines as [|line lines IH]; intros st e; simpl; [discriminate|].
  destruct (bare_origin line) eqn:Hb.
  - rewrite (parse_line_throws st line Hb). intros [= <-]. now split.
  - destruct (parse_line_returns st line Hb) as (st' & E). rewrite E.
    simpl. apply IH.
Qed.

Lemma parse_lines_bare_origin (lines : list jsstring) :
  forall st,
    existsb bare_origin lines = true ->
    parse_lines st lines = Throw undefined_replace.
Proof.
  induction lines as [|line lines IH]; intros st; simpl; [discriminate|].
  destruct (bare_origin line) eqn:Hb.
  - intros _. now rewrite (parse_line_throws st line Hb).
  - destruct (parse_line_returns st line Hb) as (st' & E). rewrite E.
    simpl. apply IH.
Qed.

(** X8. [parseZoneFile] fails on one kind of input only: a file with a
    line that is an [$ORIGIN] directive without a name.  It then throws
    the [TypeError] of [undefined.replace], so that [importZoneFile]
    imports nothing and sends no request, whatever records the other
    lines hold; on every other file the parser returns. *)
Theorem parseZoneFile_fails_on_bare_origin_only :
  forall content : jsstring,
    (existsb bare_origin (split LF content) = true
     -> parseZoneFile content = Throw undefined_replace
        /\ forall (W : Type) (env : Env W) (zoneId : option jsstring) (w : W),
            importZoneFile env content zoneId w
            = (Return (zone_file_rejected undefined_replace), w))
    /\ (existsb bare_origin (split LF content) = false
        -> exists parsed, parseZoneFile content = Return parsed).
Proof.
  intros content. split.
  - intros H.
    assert (E : parseZoneFile content = Throw undefined_replace).
    { unfold parseZoneFile.
      now rewrite (parse_lines_bare_origin (split LF content) _ H). }
    split; [exact E|]. intros W env zoneId w.
    unfold importZoneFile. now rewrite E.
  - intros H. unfold parseZoneFile.
    destruct (parse_lines _ (split LF content)) as [st|e] eqn:E.
    + eexists; reflexivity.
    + apply parse_lines_throw in E. destruct E as [_ E]. congruence.
Qed.

Lemma parseZoneFile_fails_on_bare_origin_only_witness :
  parseZoneFile (lit "www 300 IN A 192.0.2.1" ++ [LF] ++ lit "$ORIGIN")
  = Throw undefined_replace
  /\ importZoneFile Demo.env
       (lit "www 300 IN A 192.0.2.1" ++ [LF] ++ lit "$ORIGIN") None []
     = (Return (zone_file_rejected undefined_replace), []).
Proof.
  destruct (parseZoneFile_fails_on_bare_origin_only
              (lit "www 300 IN A 192.0.2.1" ++ [LF] ++ lit "$ORIGIN"))
    as [H _].
  destruct (H eq_refl) as [E I]. split; [exact E | apply I].
Defined.

Lemma truthy_ttl_set (n : number) : truthy n = true -> ttl_set n.
Proof.
  destruct n as [|z]; simpl; [discriminate|].
  intros H. apply negb_true_iff in H. apply Z.eqb_neq in H.
  now exists z.
Qed.

Lemma num_or_ttl_set (a b : number) : ttl_set b -> ttl_set (num_or a b).
Proof.
  intros Hb. unfold num_or. destruct (truthy a) eqn:E;
    [now apply truthy_ttl_set | exact Hb].
Qed.

Lemma zoneFileTypes_not_PTR (ty : DnsRecordType.t) :
  arr_includes zoneFileTypes (DnsRecordType.toString ty) = true ->
  ty <> DnsRecordType.PTR.
Proof. intros H ->. discriminate. Qed.

Lemma of_string_spells (s : jsstring) (ty : DnsRecordType.t) :
  DnsRecordType.of_string s = Some ty -> DnsRecordType.toString ty = s.
Proof.
  unfold DnsRecordType.of_string. intros H.
  apply find_some in H. destruct H as [_ H]. now apply str_eqb_eq.
Qed.

Lemma parse_line_shape (st st' : zone_parser) (line : jsstring) :
  ttl_set (defaultTtl st) ->
  Forall parsed_shape (records st) ->
  parse_line st line = Return st' ->
  ttl_set (defaultTtl st') /\ Forall parsed_shape (records st').
Proof.
  intros Httl Hrecords. unfold parse_line.
  destruct (startsWith (trim line) (lit ";") || str_eqb (trim line) []).
  { intros [= <-]. now split. }
  destruct (startsWith (trim line) (lit "$TTL")).
  { intros [= <-]. simpl. split; [|exact Hrecords].
    apply num_or_ttl_set. exists 300. split; [lia | reflexivity]. }
  destruct (startsWith (trim line) (lit "$ORIGIN")).
  { destruct (nth_error (split_ws (trim line)) 1); [|discriminate].
    intros [= <-]. now split. }
  destruct (4 <=? length (split_ws (trim line)))%nat.
  2:{ intros [= <-]. now split. }
  destruct (arr_includes zoneFileTypes _) eqn:Hty.
  2:{ intros [= <-]. now split. }
  destruct (DnsRecordType.of_string _) as [ty|] eqn:Hof.
  2:{ intros [= <-]. now split. }
  intros [= <-]. simpl. split; [exact Httl|].
  apply Forall_app. split; [exact Hrecords|].
  constructor; [|constructor].
  apply of_string_spells in Hof.
  split; [reflexivity|]. split.
  { simpl. apply zoneFileTypes_not_PTR. now rewrite Hof. }
  split.
  { simpl. destruct (num_or_ttl_set
                       (parseInt (nth 1 (split_ws (trim line)) []))
                       (defaultTtl st) Httl) as (z & Hz & E).
    exists z. now split. }
  simpl. rewrite <- Hof.
  destruct ty; simpl; try (intros H; now contradiction H); reflexivity.
Qed.

Lemma parse_lines_shape (lines : list jsstring) :
  forall st st',
    ttl_set (defaultTtl st) ->
    Forall parsed_shape (records st) ->
    parse_lines st lines = Return st' ->
    Forall parsed_shape (records st').
Proof.
  induction lines as [|line lines IH]; intros st st' Httl Hrecords; simpl.
  - now intros [= <-].
  - destruct (parse_line st line) as [st1|e] eqn:E; [|discriminate].
    destruct (parse_line_shape st st1 line Httl Hrecords E) as [H1 H2].
    now apply IH.
Qed.

(** X9. Every record that [parseZoneFile] returns is not proxied, has a
    type other than PTR, has a time to live that is a number other than
    zero (a missing, zero or unreadable TTL column takes the default in
    force, and a [$TTL] directive that is zero or unreadable sets the
    default to 300), and has a priority only when it is an MX record. *)
Theorem parsed_records_shape :
  forall (content : jsstring) (parsed : list CreateDnsRecord.t),
    parseZoneFile content = Return parsed ->
    Forall parsed_shape parsed.
Proof.
  intros content parsed. unfold parseZoneFile.
  destruct (parse_lines _ (split LF content)) as [st|e] eqn:E;
    [|discriminate].
  intros [= <-].
  apply (parse_lines_shape (split LF content)
           {| records := []; defaultTtl := Num 300; origin := [] |} st);
    [| constructor | exact E].
  exists 300. split; [lia | reflexivity].
Qed.

Lemma parsed_records_shape_witness :
  exists parsed,
    parseZoneFile
      (lit "$TTL 0" ++ [LF]
         ++ lit "www 0 IN A 192.0.2.1" ++ [LF]
         ++ lit "mail x IN MX 10 mx.example.com." ++ [LF]
         ++ lit "4.3.2.1 300 IN PTR host.example.com.")
    = Return parsed
    /\ length parsed = 2%nat
    /\ Forall parsed_shape parsed.
Proof.
  eexists. split; [vm_compute; reflexivity|]. split; [reflexivity|].
  apply (parsed_records_shape
           (lit "$TTL 0" ++ [LF]
              ++ lit "www 0 IN A 192.0.2.1" ++ [LF]
              ++ lit "mail x IN MX 10 mx.example.com." ++ [LF]
              ++ lit "4.3.2.1 300 IN PTR host.example.com.")).
  vm_compute. reflexivity.
Defined.

Lemma split_no_sep (s : jsstring) :
  no_lf s = true -> split LF s = [s].
Proof.
  induction s as [|c s IH]; simpl; [reflexivity|].
  intros H. apply andb_prop in H. destruct H as [Hc Hs].
  apply negb_true_iff in Hc. rewrite Hc, (IH Hs). reflexivity.
Qed.

Lemma split_join_lines (lines : list jsstring) :
  lines <> [] ->
  Forall (fun l => no_lf l = true) lines ->
  split LF (join [LF] lines) = lines.
Proof.
  induction lines as [|l lines IH]; [contradiction|]. intros _ H.
  inversion H as [|? ? Hl Hrest]; subst.
  destruct lines as [|l' lines'].
  - simpl. now apply split_no_sep.
  - change (join [LF] (l :: l' :: lines'))
      with (l ++ LF :: join [LF] (l' :: lines')).
    rewrite (split_line _ _ Hl). f_equal. apply IH; [discriminate | exact Hrest].
Qed.

Lemma parse_line_skips (st : zone_parser) (line : jsstring) :
  skipped_line line = true -> parse_line st line = Return st.
Proof. unfold skipped_line, parse_line. now intros ->. Qed.

Lemma parse_lines_skip (l1 l2 : list jsstring) (line : jsstring) :
  skipped_line line = true ->
  forall st, parse_lines st (l1 ++ line :: l2) = parse_lines st (l1 ++ l2).
Proof.
  intros Hskip. induction l1 as [|x l1 IH]; intros st; simpl.
  - now rewrite (parse_line_skips st line Hskip).
  - destruct (parse_line st x); [apply IH | reflexivity].
Qed.

(** X10. Comment lines and blank lines mean nothing to the parser: a
    zone file from which one such line is taken away parses to the same
    records, or fails in the same way. *)
Theorem comments_and_blank_lines_are_skipped :
  forall (before after : list jsstring) (line : jsstring),
    skipped_line line = true ->
    Forall (fun l => no_lf l = true) (before ++ line :: after) ->
    parseZoneFile (join [LF] (before ++ line :: after))
    = parseZoneFile (join [LF] (before ++ after)).
Proof.
  intros before after line Hskip Hlines.
  assert (Hrest : Forall (fun l => no_lf l = true) (before ++ after)).
  { apply Forall_app in Hlines. destruct Hlines as [Hb Ha].
    inversion Ha; subst. now apply Forall_app. }
  unfold parseZoneFile.
  rewrite (split_join_lines (before ++ line :: after));
    [| now destruct before | exact Hlines].
  rewrite (parse_lines_skip before after line Hskip).
  destruct (before ++ after) as [|l ls] eqn:E.
  - reflexivity.
  - rewrite (split_join_lines (l :: ls)); [reflexivity | discriminate | exact Hrest].
Qed.

Lemma comments_and_blank_lines_are_skipped_witness :
  parseZoneFile
    (join [LF] [ lit "$ORIGIN example.com."; lit "  ; the web server";
                 lit "www 300 IN A 192.0.2.1" ])
  = parseZoneFile
      (join [LF] [ lit "$ORIGIN example.com."; lit "www 300 IN A 192.0.2.1" ]).
Proof.
  apply (comments_and_blank_lines_are_skipped
           [lit "$ORIGIN example.com."] [lit "www 300 IN A 192.0.2.1"]
           (lit "  ; the web server")).
  - reflexivity.
  - repeat constructor.
Defined.

(* ================================================================= *)
(** ** The tool handlers *)

Section HandlerFacts.
Context {W : Type} (env : Env W) (config : option ServerConfig.t).

Lemma unconfigured_none :
  unconfigured config -> configureApiIfNeeded env config = None.
Proof.
  unfold unconfigured, configureApiIfNeeded.
  destruct config as [c|]; [|reflexivity].
  intros [-> | ->]; simpl; [reflexivity|].
  now rewrite andb_false_r.
Qed.

Lemma configured_some (c : ServerConfig.t) :
  configured config c ->
  configureApiIfNeeded env config = Some (with_config env (configure c)).
Proof.
  unfold configured, configureApiIfNeeded. intros (-> & Ht & Hz).
  apply str_eqb_neq in Ht, Hz. now rewrite Ht, Hz.
Qed.

Lemma handler_unconfigured {A : Type} (failure : jsstring) (args : option A)
      (first : jsstring) (body : Env W -> A -> Async W ToolResult.t)
      (w : W) :
  unconfigured config ->
  handler env config failure args first body w
  = (Return configuration_incomplete, w).
Proof.
  intros H. unfold handler. run_async. now rewrite (unconfigured_none H).
Qed.

(** What the frame makes of the body: its answer, or the text of what
    it threw; and without arguments the text of the [TypeError]. *)
Lemma handler_configured {A : Type} (c : ServerConfig.t)
      (failure : jsstring) (args : option A) (first : jsstring)
      (body : Env W -> A -> Async W ToolResult.t) (w : W) :
  configured config c ->
  handler env config failure args first body w
  = match args with
    | None =>
        (Return
           (text_result (failure ++ error_message (undefined_read first))),
         w)
    | Some given =>
        match body (with_config env (configure c)) given w with
        | (Return r, w') => (Return r, w')
        | (Throw e, w') =>
            (Return (text_result (failure ++ error_message e)), w')
        end
    end.
Proof.
  intros H. unfold handler. run_async. rewrite (configured_some c H).
  now destruct args.
Qed.

Lemma handler_answers {A : Type} (failure : jsstring) (args : option A)
      (first : jsstring) (body : Env W -> A -> Async W ToolResult.t)
      (w : W) :
  (forall api given v r v',
      body api given v = (Return r, v') -> exists text, r = text_result text) ->
  exists text w',
    handler env config failure args first body w
    = (Return (text_result text), w').
Proof.
  intros Hbody. unfold handler. run_async.
  destruct (configureApiIfNeeded env config) as [api|].
  - destruct args as [given|].
    + destruct (body api given w) as [[r|e] w'] eqn:E.
      * destruct (Hbody _ _ _ _ _ E) as (text & ->). now exists text, w'.
      * eexists _, w'. reflexivity.
    + eexists _, w. reflexivity.
  - eexists _, w. reflexivity.
Qed.

End HandlerFacts.

(** X11. Without a complete configuration (no configuration, an empty
    token, or an empty zone id) each of these nine handlers answers that
    the configuration is incomplete and sends no request, whatever the
    arguments of the call are and also when there are none -- also the
    handlers of the tools that take the zone id as an argument, and also
    when it is only the zone id that is missing. *)
Theorem handlers_refuse_without_configuration :
  forall (W : Type) (env : Env W) (config : option ServerConfig.t) (w : W),
    unconfigured config ->
    (forall args,
        handleExportDnsRecords env config args w
        = (Return configuration_incomplete, w))
    /\ (forall args,
           handleImportDnsRecords env config args w
           = (Return configuration_incomplete, w))
    /\ (forall args,
           handleValidateZoneSetup env config args w
           = (Return configuration_incomplete, w))
    /\ (forall args,
           handleStartDomainMigration env config args w
           = (Return configuration_incomplete, w))
    /\ (forall args,
           handleDetectDnsRecords env config args w
           = (Return configuration_incomplete, w))
    /\ (forall args,
           handleReplicateDnsRecords env config args w
           = (Return configuration_incomplete, w))
    /\ (forall args,
           handleImportZoneFile env config args w
           = (Return configuration_incomplete, w))
    /\ (forall args,
           handleExportZoneFile env config args w
           = (Return configuration_incomplete, w))
    /\ (forall args,
           handleMigrateDomainWithDetection env config args w
           = (Return configuration_incomplete, w)).
Proof.
  intros W env config w H.
  repeat split; intros; now apply handler_unconfigured.
Qed.

(** A token and a zone id as argument, but no configured zone id. *)
Lemma handlers_refuse_without_configuration_witness :
  handleImportDnsRecords
    Demo.env
    (Some {| ServerConfig.cloudflareApiToken := lit "token";
             ServerConfig.cloudflareZoneId := [];
             ServerConfig.cloudflareEmail := None |})
    (Some {| ImportDnsRecordsArgs.records := Demo.example_records;
             ImportDnsRecordsArgs.zoneId := Some (lit "zoneB") |}) []
  = (Return configuration_incomplete, []).
Proof.
  apply (handlers_refuse_without_configuration
           Demo.world Demo.env
           (Some {| ServerConfig.cloudflareApiToken := lit "token";
                    ServerConfig.cloudflareZoneId := [];
                    ServerConfig.cloudflareEmail := None |})
           []).
  right. reflexivity.
Defined.

(** X12. When the zone cannot be created, the handler of
    [migrate_domain_with_detection] does not show the failure: the
    migration returns the empty object as its zone, the handler reads
    [name_servers.join] of it, and the answer is the [TypeError] of that,
    whatever the reason of the failure was. *)
Theorem migration_handler_hides_the_failure :
  forall (W : Type) (env : Env W) (config : option ServerConfig.t)
         (c : ServerConfig.t) (domain : jsstring)
         (zoneType : option jsstring) (e : exn) (w w1 : W),
    configured config c ->
    createZone (with_config env (configure c))
               {| CreateZone.name := domain;
                  CreateZone.type := str_or zoneType (lit "full");
                  CreateZone.jump_start := false |} w
    = (Throw e, w1) ->
    handleMigrateDomainWithDetection
      env config
      (Some {| MigrateArgs.domain := domain;
               MigrateArgs.zoneType := zoneType |}) w
    = (Return
         (text_result
            (lit "❌ Error in domain migration with detection: Cannot read properties of undefined (reading 'join')")),
       w1).
Proof.
  intros W env config c domain zoneType e w w1 Hc Hcreate.
  unfold handleMigrateDomainWithDetection.
  rewrite (handler_configured env config c _ _ _ _ _ Hc).
  cbn [MigrateArgs.domain MigrateArgs.zoneType].
  unfold migrateDomainWithDetection. run_async. rewrite Hcreate.
  reflexivity.
Qed.

Lemma migration_handler_hides_the_failure_witness :
  handleMigrateDomainWithDetection
    Demo.env
    (Some {| ServerConfig.cloudflareApiToken := lit "token";
             ServerConfig.cloudflareZoneId := lit "zoneA";
             ServerConfig.cloudflareEmail := None |})
    (Some {| MigrateArgs.domain := lit "taken.example";
             MigrateArgs.zoneType := None |}) []
  = (Return
       (text_result
          (lit "❌ Error in domain migration with detection: Cannot read properties of undefined (reading 'join')")),
     [lit "POST " ++ Demo.zones_url]).
Proof.
  apply (migration_handler_hides_the_failure
           Demo.world Demo.env _
           {| ServerConfig.cloudflareApiToken := lit "token";
              ServerConfig.cloudflareZoneId := lit "zoneA";
              ServerConfig.cloudflareEmail := None |}
           (lit "taken.example") None
           (JsError (lit "Failed to parse zone creation response: API Error: zone already exists"))).
  - split; [reflexivity|]. split; discriminate.
  - reflexivity.
Defined.

(** X13. Once configured, the handler of [validate_zone_setup] validates
    whenever the call has arguments: the zone is the one of the argument
    or, without one, the configured zone, the validation returns, and the
    answer is the text of its result.  The text that no zone id is there
    is never given, and the text that the validation failed is given for
    a call without arguments only, where it carries the [TypeError] of
    reading [args.zoneId] and nothing has been sent. *)
Theorem validation_handler_validates_what_it_is_given :
  forall (W : Type) (env : Env W) (config : option ServerConfig.t)
         (c : ServerConfig.t) (args : option ZoneIdArgs.t) (w : W),
    configured config c ->
    match args with
    | Some given =>
        exists validation w',
          validateZoneSetup
            (with_config env (configure c))
            (str_or (ZoneIdArgs.zoneId given)
                    (ServerConfig.cloudflareZoneId c)) w
          = (Return validation, w')
          /\ handleValidateZoneSetup env config args w
             = (Return (text_result (validation_text validation)), w')
    | None =>
        handleValidateZoneSetup env config args w
        = (Return
             (text_result
                (lit "❌ Error validating zone setup: Cannot read properties of undefined (reading 'zoneId')")),
           w)
    end.
Proof.
  intros W env config c args w Hc.
  unfold handleValidateZoneSetup.
  rewrite (handler_configured env config c _ _ _ _ _ Hc).
  destruct args as [[zoneId]|]; [|reflexivity].
  cbn [ZoneIdArgs.zoneId].
  destruct (validateZoneSetup_returns
              (with_config env (configure c))
              (str_or zoneId (ServerConfig.cloudflareZoneId c)) w)
    as (validation & w' & E).
  exists validation, w'. split; [exact E|].
  destruct Hc as (-> & _ & Hz).
  assert (Ht : str_eqb (str_or zoneId (ServerConfig.cloudflareZoneId c)) []
               = false) by now apply str_or_configured.
  unfold str_or in *. run_async.
  destruct zoneId as [[|z zs]|]; rewrite Ht, E; reflexivity.
Qed.

(** A call with an empty arguments object, in the world of the examples. *)
Lemma validation_handler_validates_what_it_is_given_witness :
  exists validation w',
    validateZoneSetup Demo.env (lit "zoneA") [] = (Return validation, w')
    /\ handleValidateZoneSetup
         Demo.env
         (Some {| ServerConfig.cloudflareApiToken := lit "token";
                  ServerConfig.cloudflareZoneId := lit "zoneA";
                  ServerConfig.cloudflareEmail := None |})
         (Some {| ZoneIdArgs.zoneId := None |}) []
       = (Return (text_result (validation_text validation)), w').
Proof.
  apply (validation_handler_validates_what_it_is_given
           Demo.world Demo.env _
           {| ServerConfig.cloudflareApiToken := lit "token";
              ServerConfig.cloudflareZoneId := lit "zoneA";
              ServerConfig.cloudflareEmail := None |}
           (Some {| ZoneIdArgs.zoneId := None |}) []).
  split; [reflexivity|]. split; discriminate.
Defined.

(** The same call without arguments. *)
Example validation_without_arguments :
  handleValidateZoneSetup
    Demo.env
    (Some {| ServerConfig.cloudflareApiToken := lit "token";
             ServerConfig.cloudflareZoneId := lit "zoneA";
             ServerConfig.cloudflareEmail := None |})
    None []
  = (Return
       (text_result
          (lit "❌ Error validating zone setup: Cannot read properties of undefined (reading 'zoneId')")),
     []).
Proof. vm_compute. reflexivity. Qed.

(** X14. Once configured, the handler of [replicate_dns_records] answers
    a call that has arguments with the text of a replication, which opens
    with "DNS Record Replication Complete!": also when detection found
    nothing and when the replication failed as a whole, which show only
    in the counts and in the list of errors.  Its own error text is given
    for a call without arguments only, where it carries the [TypeError]
    of reading [args.sourceDomain] and nothing has been sent. *)
Theorem replication_handler_reports_completion :
  forall (W : Type) (env : Env W) (config : option ServerConfig.t)
         (c : ServerConfig.t) (args : option ReplicateArgs.t) (w : W),
    configured config c ->
    match args with
    | Some given =>
        exists replication w' rest,
          replicateDnsRecords (with_config env (configure c))
                              (ReplicateArgs.sourceDomain given)
                              (ReplicateArgs.targetZoneId given) w
          = (Return replication, w')
          /\ handleReplicateDnsRecords env config args w
             = (Return
                  (text_result
                     (replication_text (ReplicateArgs.sourceDomain given)
                                       replication)),
                w')
          /\ replication_text (ReplicateArgs.sourceDomain given) replication
             = lit "✅ DNS Record Replication Complete!" ++ rest
    | None =>
        handleReplicateDnsRecords env config args w
        = (Return
             (text_result
                (lit "❌ Error replicating DNS records: Cannot read properties of undefined (reading 'sourceDomain')")),
           w)
    end.
Proof.
  intros W env config c args w Hc.
  unfold handleReplicateDnsRecords.
  rewrite (handler_configured env config c _ _ _ _ _ Hc).
  destruct args as [[sourceDomain targetZoneId]|]; [|reflexivity].
  cbn [ReplicateArgs.sourceDomain ReplicateArgs.targetZoneId].
  destruct (replicate_returns
              (detectDnsRecords (with_config env (configure c)))
              (importDnsRecords (with_config env (configure c)))
              sourceDomain targetZoneId w) as (replication & w' & E).
  exists replication, w'. eexists. split; [exact E|]. split.
  - run_async. unfold replicateDnsRecords. now rewrite E.
  - unfold replication_text. rewrite <- !app_assoc. reflexivity.
Qed.

(** Nothing is found for [nothing.example]. *)
Lemma replication_handler_reports_completion_witness :
  fst (handleReplicateDnsRecords
         Demo.env
         (Some {| ServerConfig.cloudflareApiToken := lit "token";
                  ServerConfig.cloudflareZoneId := lit "zoneA";
                  ServerConfig.cloudflareEmail := None |})
         (Some {| ReplicateArgs.sourceDomain := lit "nothing.example";
                  ReplicateArgs.targetZoneId := None |}) [])
  = Return
      (text_result
         (lit "✅ DNS Record Replication Complete!" ++ [LF; LF]
            ++ lit "🔍 Detected 0 record(s) from nothing.example" ++ [LF]
            ++ lit "📥 Successfully replicated 0 record(s)" ++ [LF; LF]
            ++ lit "⚠️ Errors encountered:" ++ [LF]
            ++ lit "  • No DNS records detected for the domain")).
Proof.
  destruct (replication_handler_reports_completion
              Demo.world Demo.env
              (Some {| ServerConfig.cloudflareApiToken := lit "token";
                       ServerConfig.cloudflareZoneId := lit "zoneA";
                       ServerConfig.cloudflareEmail := None |})
              {| ServerConfig.cloudflareApiToken := lit "token";
                 ServerConfig.cloudflareZoneId := lit "zoneA";
                 ServerConfig.cloudflareEmail := None |}
              (Some {| ReplicateArgs.sourceDomain := lit "nothing.example";
                       ReplicateArgs.targetZoneId := None |}) [])
    as (replication & w' & rest & E & H & _).
  { split; [reflexivity|]. split; discriminate. }
  rewrite H. vm_compute in E. injection E as <- <-. reflexivity.
Defined.

(** The same tool called without arguments. *)
Example replication_without_arguments :
  handleReplicateDnsRecords
    Demo.env
    (Some {| ServerConfig.cloudflareApiToken := lit "token";
             ServerConfig.cloudflareZoneId := lit "zoneA";
             ServerConfig.cloudflareEmail := None |})
    None []
  = (Return
       (text_result
          (lit "❌ Error replicating DNS records: Cannot read properties of undefined (reading 'sourceDomain')")),
     []).
Proof. vm_compute. reflexivity. Qed.

Ltac answer_is_text :=
  let H := fresh "H" in
  intros ? ? ? ? ? H; run_async;
  repeat match type of H with
         | context [match ?x with _ => _ end] => destruct x eqn:?
         end;
  try discriminate;
  injection H as <- _; eexists; reflexivity.

(** X15. No handler throws: each of the ten handlers answers with one
    text, in every state of the world, whatever the arguments of the
    call are (also when there are none) and whatever the operation
    behind it does.  An error of the operation is the text of the
    answer. *)
Theorem handlers_always_answer :
  forall (W : Type) (env : Env W) (config : option ServerConfig.t) (w : W),
    (forall args,
        exists text w',
          handleExportDnsRecords env config args w
          = (Return (text_result text), w'))
    /\ (forall args,
           exists text w',
             handleImportDnsRecords env config args w
             = (Return (text_result text), w'))
    /\ (forall args,
           exists text w',
             handleCheckNameserverPropagation env args w
             = (Return (text_result text), w'))
    /\ (forall args,
           exists text w',
             handleValidateZoneSetup env config args w
             = (Return (text_result text), w'))
    /\ (forall args,
           exists text w',
             handleStartDomainMigration env config args w
             = (Return (text_result text), w'))
    /\ (forall args,
           exists text w',
             handleDetectDnsRecords env config args w
             = (Return (text_result text), w'))
    /\ (forall args,
           exists text w',
             handleReplicateDnsRecords env config args w
             = (Return (text_result text), w'))
    /\ (forall args,
           exists text w',
             handleImportZoneFile env config args w
             = (Return (text_result text), w'))
    /\ (forall args,
           exists text w',
             handleExportZoneFile env config args w
             = (Return (text_result text), w'))
    /\ (forall args,
           exists text w',
             handleMigrateDomainWithDetection env config args w
             = (Return (text_result text), w')).
Proof.
  intros W env config w.
  repeat split; intros;
    try (apply handler_answers; answer_is_text).
  unfold handleCheckNameserverPropagation. run_async.
  destruct args as [[domain nameservers]|]; [|eexists _, w; reflexivity].
  cbn [PropagationArgs.domain PropagationArgs.nameservers].
  destruct (checkNameserverPropagation env domain nameservers w)
    as [[b|e] w']; eexists _, w'; reflexivity.
Qed.

(* ================================================================= *)
(** ** What a schema lets through *)

Lemma parse_object (shape : list (jsstring * Zod.schema)) (input : Value.t) :
  Zod.parse (Zod.z_object shape) input
  = match input with
    | Value.Object _ => option_map Value.Object (object_members input shape)
    | _ => None
    end.
Proof.
  destruct input; try reflexivity.
  cbn [Zod.parse]. f_equal.
  induction shape as [|[key member] rest IH]; [reflexivity|].
  cbn [object_members]. rewrite <- IH. reflexivity.
Qed.

Lemma parse_union (options : list Zod.schema) (input : Value.t) :
  Zod.parse (Zod.z_union options) input = first_accepted input options.
Proof.
  cbn [Zod.parse].
  induction options as [|candidate rest IH]; [reflexivity|].
  cbn [first_accepted]. rewrite <- IH. reflexivity.
Qed.

Lemma parse_array (item : Zod.schema) (input : Value.t) :
  Zod.parse (Zod.z_array item) input
  = match input with
    | Value.Array items =>
        option_map Value.Array (Zod.all_of (Zod.parse item) items)
    | _ => None
    end.
Proof. reflexivity. Qed.

Lemma parse_optional (inner : Zod.schema) (input : Value.t) :
  Zod.parse (Zod.z_optional inner) input
  = match input with
    | Value.Undefined => Some Value.Undefined
    | _ => Zod.parse inner input
    end.
Proof. reflexivity. Qed.

Lemma get_cons (key k : jsstring) (v : Value.t)
      (members : list (jsstring * Value.t)) :
  Value.get key (Value.Object ((k, v) :: members))
  = if str_eqb k key then v else Value.get key (Value.Object members).
Proof. unfold Value.get. simpl. now destruct (str_eqb k key). Qed.

Lemma has_cons (key k : jsstring) (v : Value.t)
      (members : list (jsstring * Value.t)) :
  Value.has key (Value.Object ((k, v) :: members))
  = str_eqb k key || Value.has key (Value.Object members).
Proof. reflexivity. Qed.

Lemma get_missing (key : jsstring) (members : list (jsstring * Value.t)) :
  Value.has key (Value.Object members) = false ->
  Value.get key (Value.Object members) = Value.Undefined.
Proof.
  induction members as [|[k v] members IH]; [reflexivity|].
  rewrite has_cons, get_cons. intros H. apply orb_false_iff in H.
  destruct H as [-> H]. now apply IH.
Qed.

(** An object schema sets no member outside its shape. *)
Lemma object_members_keys (input : Value.t)
      (shape : list (jsstring * Zod.schema)) :
  forall out key,
    object_members input shape = Some out ->
    existsb (fun kv => str_eqb (fst kv) key) shape = false ->
    Value.has key (Value.Object out) = false.
Proof.
  induction shape as [|[k member] rest IH]; intros out key.
  - now intros [= <-].
  - cbn [object_members existsb fst].
    destruct (Zod.parse member (Value.get k input)) as [v|]; [|discriminate].
    destruct (object_members input rest) as [out'|]; [|discriminate].
    intros Hout Hkey. apply orb_false_iff in Hkey. destruct Hkey as [Hk Hrest].
    specialize (IH out' key eq_refl Hrest).
    assert (Hcons : Value.has key (Value.Object ((k, v) :: out')) = false)
      by (rewrite has_cons, Hk; exact IH).
    destruct v; try (injection Hout as <-; exact Hcons).
    destruct (Value.has k input); injection Hout as <-;
      [exact Hcons | exact IH].
Qed.

(** What an object schema makes of a member of its shape. *)
Lemma object_members_get (input : Value.t)
      (shape : list (jsstring * Zod.schema)) :
  forall out,
    object_members input shape = Some out ->
    distinct_keys shape = true ->
    forall key member,
      In (key, member) shape ->
      exists v,
        Zod.parse member (Value.get key input) = Some v
        /\ Value.get key (Value.Object out) = v.
Proof.
  induction shape as [|[k m] rest IH]; intros out Hout Hdistinct key member Hin;
    [contradiction|].
  cbn [object_members] in Hout. cbn [distinct_keys] in Hdistinct.
  apply andb_prop in Hdistinct. destruct Hdistinct as [Hk Hrest].
  apply negb_true_iff in Hk.
  destruct (Zod.parse m (Value.get k input)) as [v|] eqn:Ev; [|discriminate].
  destruct (object_members input rest) as [out'|] eqn:Eo; [|discriminate].
  assert (Hmissing : Value.get k (Value.Object out') = Value.Undefined).
  { apply get_missing. now apply (object_members_keys input rest). }
  destruct Hin as [[= <- <-] | Hin].
  - exists v. split; [exact Ev|].
    destruct v;
      try (injection Hout as <-; rewrite get_cons, str_eqb_refl; reflexivity).
    destruct (Value.has k input); injection Hout as <-.
    + now rewrite get_cons, str_eqb_refl.
    + exact Hmissing.
  - destruct (IH out' eq_refl Hrest key member Hin) as (v' & Ev' & Eg).
    exists v'. split; [exact Ev'|].
    assert (Hne : str_eqb k key = false).
    { destruct (str_eqb k key) eqn:E; [|reflexivity].
      apply str_eqb_eq in E. subst key.
      assert (existsb (fun kv => str_eqb (fst kv) k) rest = true).
      { apply existsb_exists. exists (k, member).
        split; [exact Hin | apply str_eqb_refl]. }
      congruence. }
    assert (Hcons : Value.get key (Value.Object ((k, v) :: out')) = v')
      by (rewrite get_cons, Hne; exact Eg).
    destruct v; try (injection Hout as <-; exact Hcons).
    destruct (Value.has k input); injection Hout as <-;
      [exact Hcons | exact Eg].
Qed.

(** The same, for a schema that is an object schema with distinct
    keys. *)
Lemma parse_member (shape : list (jsstring * Zod.schema))
      (input out : Value.t) (key : jsstring) (member : Zod.schema) :
  Zod.parse (Zod.z_object shape) input = Some out ->
  distinct_keys shape = true ->
  In (key, member) shape ->
  Zod.parse member (Value.get key input) = Some (Value.get key out).
Proof.
  rewrite parse_object. destruct input; try discriminate.
  destruct (object_members _ shape) as [ms|] eqn:E; [|discriminate].
  intros [= <-] Hdistinct Hin.
  destruct (object_members_get _ shape ms E Hdistinct key member Hin)
    as (v & Ev & Eg).
  now rewrite Eg.
Qed.

Lemma parse_object_is_object (shape : list (jsstring * Zod.schema))
      (input out : Value.t) :
  Zod.parse (Zod.z_object shape) input = Some out ->
  exists members, out = Value.Object members.
Proof.
  rewrite parse_object. destruct input; try discriminate.
  destruct (object_members _ shape) as [ms|]; [|discriminate].
  intros [= <-]. now exists ms.
Qed.

Lemma parse_enum (values : list jsstring) (input out : Value.t) :
  Zod.parse (Zod.z_enum values) input = Some out ->
  exists x, out = Value.Str x /\ In x values.
Proof.
  cbn [Zod.parse]. destruct input; try discriminate.
  destruct (arr_includes values s) eqn:E; [|discriminate].
  intros [= <-]. exists s. split; [reflexivity | now apply arr_includes_In].
Qed.

Lemma parse_string (input out : Value.t) :
  Zod.parse Zod.z_string input = Some out -> exists x, out = Value.Str x.
Proof.
  cbn [Zod.parse]. destruct input; try discriminate.
  intros [= <-]. now eexists.
Qed.

Lemma parse_number (input out : Value.t) :
  Zod.parse Zod.z_number input = Some out ->
  exists z, out = Value.Number (Num z).
Proof.
  cbn [Zod.parse]. destruct input as [| | | [|z] | | |]; try discriminate.
  intros [= <-]. now eexists.
Qed.

Lemma parse_boolean (input out : Value.t) :
  Zod.parse Zod.z_boolean input = Some out -> exists b, out = Value.Bool b.
Proof.
  cbn [Zod.parse]. destruct input; try discriminate.
  intros [= <-]. now eexists.
Qed.

Lemma all_of_Forall2 {T U} (f : T -> option U) (xs : list T) :
  forall ys, Zod.all_of f xs = Some ys -> Forall2 (fun x y => f x = Some y) xs ys.
Proof.
  induction xs as [|x xs IH]; intros ys; simpl.
  - intros [= <-]. constructor.
  - destruct (f x) as [y|] eqn:E; [|discriminate].
    destruct (Zod.all_of f xs) as [ys'|]; [|discriminate].
    intros [= <-]. constructor; [exact E | now apply IH].
Qed.

(** The members of a validated record. *)
Lemma validated_record_members (r : Value.t) :
  validated_record r -> record_members r.
Proof.
  intros (input & H).
  assert (D : distinct_keys
                [ (lit "id", Zod.z_string);
                  (lit "zone_id", Zod.z_optional Zod.z_string);
                  (lit "zone_name", Zod.z_optional Zod.z_string);
                  (lit "name", Zod.z_string);
                  (lit "type", Schema.DnsRecordType);
                  (lit "content", Zod.z_string);
                  (lit "proxied", Zod.z_optional Zod.z_boolean);
                  (lit "ttl", Zod.z_number);
                  (lit "priority", Zod.z_optional Zod.z_number);
                  (lit "created_on", Zod.z_string);
                  (lit "modified_on", Zod.z_string);
                  (lit "meta",
                   Zod.z_optional
                     (Zod.z_object
                        [ (lit "auto_added", Zod.z_optional Zod.z_boolean);
                          (lit "managed_by_apps", Zod.z_optional Zod.z_boolean);
                          (lit "managed_by_argo_tunnel",
                           Zod.z_optional Zod.z_boolean) ])) ] = true)
    by reflexivity.
  unfold Schema.CloudflareDnsRecord in H.
  pose proof (parse_member _ _ _ (lit "id") Zod.z_string H D) as Hid.
  pose proof (parse_member _ _ _ (lit "name") Zod.z_string H D) as Hname.
  pose proof (parse_member _ _ _ (lit "type") Schema.DnsRecordType H D)
    as Htype.
  pose proof (parse_member _ _ _ (lit "content") Zod.z_string H D)
    as Hcontent.
  pose proof (parse_member _ _ _ (lit "ttl") Zod.z_number H D) as Httl.
  repeat split.
  - apply parse_string in Hid; [exact Hid | simpl; tauto].
  - apply parse_string in Hname; [exact Hname | simpl; tauto].
  - apply parse_enum in Htype; [exact Htype | simpl; tauto].
  - apply parse_string in Hcontent; [exact Hcontent | simpl; tauto].
  - apply parse_number in Httl; [exact Httl | simpl; tauto].
Qed.

(** What the envelope schema leaves as [result]: nothing, [null], an
    array of validated records, or one validated record. *)
Lemma envelope_result (raw data : Value.t) :
  Zod.parse Schema.CloudflareApiResponse raw = Some data ->
  Value.get (lit "result") data = Value.Undefined
  \/ Value.get (lit "result") data = Value.Null
  \/ (exists items,
         Value.get (lit "result") data = Value.Array items
         /\ Forall validated_record items)
  \/ (validated_record (Value.get (lit "result") data)
      /\ exists members,
          Value.get (lit "result") data = Value.Object members).
Proof.
  intros H. unfold Schema.CloudflareApiResponse in H.
  eapply parse_member with (key := lit "result") in H;
    [| reflexivity | simpl; tauto].
  remember (Value.get (lit "result") data) as result eqn:Er. clear Er.
  rewrite parse_optional in H.
  assert (U : Zod.parse
                (Zod.z_union [ Zod.z_array Schema.CloudflareDnsRecord;
                               Schema.CloudflareDnsRecord; Zod.z_null ])
                (Value.get (lit "result") raw) = Some result
              -> result = Value.Null
                 \/ (exists items,
                        result = Value.Array items
                        /\ Forall validated_record items)
                 \/ (validated_record result
                     /\ exists members, result = Value.Object members)).
  { clear H. rewrite parse_union. cbn [first_accepted].
    rewrite parse_array.
    destruct (Value.get (lit "result") raw) as [| |b|z|s|items|members] eqn:Eg.
    - cbn [Zod.parse Schema.CloudflareDnsRecord]. discriminate.
    - cbn [Zod.parse Schema.CloudflareDnsRecord]. intros [= <-]. now left.
    - cbn [Zod.parse Schema.CloudflareDnsRecord]. discriminate.
    - cbn [Zod.parse Schema.CloudflareDnsRecord]. discriminate.
    - cbn [Zod.parse Schema.CloudflareDnsRecord]. discriminate.
    - destruct (Zod.all_of _ items) as [ys|] eqn:Ea.
      + intros [= <-]. right. left. exists ys. split; [reflexivity|].
        apply all_of_Forall2 in Ea.
        clear Eg. induction Ea as [|x y xs ys' Hxy _ IH]; constructor.
        * now exists x.
        * exact IH.
      + cbn [option_map Zod.parse Schema.CloudflareDnsRecord]. discriminate.
    - cbn [option_map].
      destruct (Zod.parse Schema.CloudflareDnsRecord (Value.Object members))
        as [r|] eqn:Ep.
      + intros [= <-]. right. right. split.
        * now exists (Value.Object members).
        * unfold Schema.CloudflareDnsRecord in Ep.
          now apply parse_object_is_object in Ep.
      + cbn [Zod.parse]. discriminate. }
  destruct (Value.get (lit "result") raw); try (right; apply U; exact H).
  injection H as <-. now left.
Qed.

(* ================================================================= *)
(** ** The operations on the wire *)

Lemma Forall_filter {T} (P : T -> Prop) (f : T -> bool) (xs : list T) :
  Forall P xs -> Forall P (filter f xs).
Proof.
  induction 1 as [|x xs Hx _ IH]; simpl; [constructor|].
  destruct (f x); [now constructor | exact IH].
Qed.

Section WireFacts.
Context {W : Type} (world : Wire.World W).

Lemma wire_parse_return (s : Zod.schema) (input v : Value.t) :
  Wire.parse world s input = Return v -> Zod.parse s input = Some v.
Proof.
  unfold Wire.parse. destruct (Zod.parse s input); [|discriminate].
  now intros [= ->].
Qed.

Lemma rethrow_return {T} (prefix : jsstring) (block : outcome T) (v : T) :
  Wire.rethrow prefix block = Return v -> block = Return v.
Proof. destruct block; [now intros [= ->] | discriminate]. Qed.

(** What [listDnsRecords] and [findDnsRecords] return of a response. *)
Lemma records_of_validated (rawData : Value.t) (records : list Value.t) :
  Wire.records_of world rawData = Return records ->
  Forall validated_record records.
Proof.
  unfold Wire.records_of.
  destruct (Wire.parse world Schema.CloudflareApiResponse rawData)
    as [data|e] eqn:E; [|discriminate].
  apply wire_parse_return in E.
  destruct (negb (Value.truthy (Value.get (lit "success") data)));
    [discriminate|].
  destruct (envelope_result rawData data E)
    as [-> | [-> | [(items & -> & Hitems) | (Hrecord & members & Hobject)]]].
  - intros [= <-]. constructor.
  - intros [= <-]. constructor.
  - cbn [Value.truthy negb Value.isArray Value.elements]. intros [= <-].
    now apply Forall_filter.
  - rewrite Hobject in *.
    cbn [Value.truthy negb Value.isArray filter Value.not_null].
    intros [= <-]. constructor; [exact Hrecord | constructor].
Qed.

(** What [getDnsRecord], [createDnsRecord] and [updateDnsRecord] return
    of a response. *)
Lemma record_of_validated (failure : jsstring) (rawData r : Value.t) :
  Wire.record_of world failure rawData = Return r -> validated_record r.
Proof.
  unfold Wire.record_of.
  destruct (Wire.parse world Schema.CloudflareApiResponse rawData)
    as [data|e] eqn:E; [|discriminate].
  apply wire_parse_return in E.
  destruct (negb (Value.truthy (Value.get (lit "success") data)));
    [discriminate|].
  destruct (envelope_result rawData data E)
    as [-> | [-> | [(items & -> & Hitems) | (Hrecord & members & Hobject)]]];
    try discriminate.
  rewrite Hobject in *.
  cbn [Value.truthy negb Value.isArray orb]. now intros [= <-].
Qed.

(** The three steps that every operation ends with. *)
Lemma decoded (endpoint method : jsstring) (body : option Value.t)
      (useZoneId : bool) {T} (decode : Value.t -> outcome T) (w w' : W)
      (v : T) :
  (response <- Wire.api world endpoint method body useZoneId ;;
   rawData <- lift (Response.json response) ;;
   lift (decode rawData)) w = (Return v, w') ->
  exists rawData, decode rawData = Return v.
Proof.
  run_async.
  destruct (Wire.api world endpoint method body useZoneId w)
    as [[response|e] w1]; [|discriminate].
  destruct (Response.json response) as [rawData|e]; [|discriminate].
  destruct (decode rawData) as [x|e] eqn:E; [|discriminate].
  intros [= <- <-]. now exists rawData.
Qed.

End WireFacts.

(** X16. What the record operations return has passed the record
    schema: every record that [listDnsRecords], [findDnsRecords],
    [getDnsRecord], [createDnsRecord] or [updateDnsRecord] returns has
    an [id], a [name] and a [content] that are strings, a [type] that is
    one of the nine record types, and a [ttl] that is a number -- the
    members that the handlers print. *)
Theorem record_operations_return_validated_records :
  forall (W : Type) (world : Wire.World W) (w : W),
    (forall records w',
        Wire.listDnsRecords world w = (Return records, w') ->
        Forall record_members records)
    /\ (forall name type records w',
           Wire.findDnsRecords world name type w = (Return records, w') ->
           Forall record_members records)
    /\ (forall recordId r w',
           Wire.getDnsRecord world recordId w = (Return r, w') ->
           record_members r)
    /\ (forall record r w',
           Wire.createDnsRecord world record w = (Return r, w') ->
           record_members r)
    /\ (forall recordId updates r w',
           Wire.updateDnsRecord world recordId updates w = (Return r, w') ->
           record_members r).
Proof.
  intros W world w.
  assert (Hlist : forall records,
             (exists rawData,
                 Wire.rethrow (lit "Failed to parse API response: ")
                              (Wire.records_of world rawData)
                 = Return records) ->
             Forall record_members records).
  { intros records (rawData & E). apply rethrow_return in E.
    apply records_of_validated in E.
    eapply Forall_impl; [|exact E].
    intros r. apply validated_record_members. }
  assert (Hone : forall failure r,
             (exists rawData,
                 Wire.record_of world failure rawData = Return r) ->
             record_members r).
  { intros failure r (rawData & E).
    apply validated_record_members. now apply record_of_validated in E. }
  split; [|split; [|split; [|split]]].
  - intros records w' E. apply Hlist.
    unfold Wire.listDnsRecords in E. now apply decoded in E.
  - intros name type records w' E. apply Hlist.
    unfold Wire.findDnsRecords in E. now apply decoded in E.
  - intros recordId r w' E. apply (Hone (lit "DNS record not found")).
    unfold Wire.getDnsRecord in E. now apply decoded in E.
  - intros record r w' E. apply (Hone (lit "Failed to create DNS record")).
    unfold Wire.createDnsRecord in E. unfold bind at 1 in E.
    unfold lift at 1 in E.
    destruct (Wire.parse world Schema.CreateDnsRecordRequest record);
      [|discriminate].
    now apply decoded in E.
  - intros recordId updates r w' E.
    apply (Hone (lit "Failed to update DNS record")).
    unfold Wire.updateDnsRecord in E. unfold bind at 1 in E.
    unfold lift at 1 in E.
    destruct (Wire.parse world Schema.UpdateDnsRecordRequest updates);
      [|discriminate].
    now apply decoded in E.
Qed.

(** The one record of the examples, listed: what the schema does not
    know ([proxiable]) is gone. *)
Lemma record_operations_return_validated_records_witness :
  exists r,
    fst (Wire.listDnsRecords (WireDemo.provider (lit "token")) []) = Return [r]
    /\ record_members r
    /\ Value.has (lit "proxiable") r = false.
Proof.
  eexists. split; [vm_compute; reflexivity|]. split.
  - destruct (record_operations_return_validated_records
                WireDemo.world (WireDemo.provider (lit "token")) [])
      as [H _].
    eapply Forall_inv. eapply H. vm_compute. reflexivity.
  - reflexivity.
Defined.

(** No value is a record for [CloudflareDnsRecord] and a zone for
    [CloudflareZone]: the one wants a [type] among the record types,
    the other [full] or [partial]. *)
Lemma validated_record_is_no_zone (r z : Value.t) :
  validated_record r -> Zod.parse Schema.CloudflareZone r = Some z -> False.
Proof.
  intros Hr Hz. apply validated_record_members in Hr.
  destruct Hr as (_ & _ & (type & Etype & Hin) & _).
  unfold Schema.CloudflareZone in Hz.
  eapply parse_member with (key := lit "type") in Hz;
    [| reflexivity | simpl; tauto].
  rewrite Etype in Hz. cbn [Zod.parse] in Hz.
  match type of Hz with
  | (if ?b then _ else _) = _ => destruct b eqn:E; [|discriminate]
  end.
  simpl in Hin.
  repeat (destruct Hin as [<- | Hin]; [discriminate|]).
  contradiction.
Qed.

Section ZoneFacts.
Context {W : Type} (world : Wire.World W).

Lemma zone_of_never_returns (failure : jsstring) (rawData z : Value.t) :
  Wire.zone_of world failure rawData = Return z -> False.
Proof.
  unfold Wire.zone_of.
  destruct (Wire.parse world Schema.CloudflareApiResponse rawData)
    as [data|e] eqn:E; [|discriminate].
  apply wire_parse_return in E.
  destruct (negb (Value.truthy (Value.get (lit "success") data)));
    [discriminate|].
  destruct (envelope_result rawData data E)
    as [-> | [-> | [(items & -> & Hitems) | (Hrecord & members & Hobject)]]];
    try discriminate.
  remember (Value.get (lit "result") data) as result.
  assert (Ht : Value.truthy result = true) by now rewrite Hobject.
  assert (Ha : Value.isArray result = false) by now rewrite Hobject.
  rewrite Ht, Ha. cbn [negb orb].
  intros H. apply wire_parse_return in H.
  exact (validated_record_is_no_zone result z Hrecord H).
Qed.

Lemma zones_of_returns_nothing (zones zs : list Value.t) :
  Forall validated_record zones ->
  Wire.zones_of world zones = Return zs ->
  zones = [] /\ zs = [].
Proof.
  destruct zones as [|zone rest]; simpl.
  - intros _ [= <-]. now split.
  - intros H. inversion H as [|? ? Hzone _]; subst.
    destruct (Wire.parse world Schema.CloudflareZone zone) as [z|e] eqn:E;
      [|discriminate].
    apply wire_parse_return in E.
    destruct (validated_record_is_no_zone zone z Hzone E).
Qed.

Lemma zone_decoding_throws (endpoint method : jsstring)
      (body : option Value.t) (prefix failure : jsstring) (w : W) :
  exists e w',
    (response <- Wire.api world endpoint method body false ;;
     rawData <- lift (Response.json response) ;;
     lift (Wire.rethrow prefix (Wire.zone_of world failure rawData))) w
    = (Throw e, w').
Proof.
  destruct ((response <- Wire.api world endpoint method body false ;;
             rawData <- lift (Response.json response) ;;
             lift (Wire.rethrow prefix
                     (Wire.zone_of world failure rawData))) w)
    as [[z|e] w'] eqn:E.
  - apply decoded in E. destruct E as (rawData & E).
    apply rethrow_return in E.
    destruct (zone_of_never_returns failure rawData z E).
  - now exists e, w'.
Qed.

Lemma createZone_throws (zoneData : Value.t) (w : W) :
  exists e w', Wire.createZone world zoneData w = (Throw e, w').
Proof.
  unfold Wire.createZone. unfold bind at 1. unfold lift at 1.
  destruct (Wire.parse world Schema.CreateZoneRequest zoneData) as [v|e].
  - apply zone_decoding_throws.
  - now exists e, w.
Qed.

Lemma getZone_throws (zoneId : option jsstring) (w : W) :
  exists e w', Wire.getZone world zoneId w = (Throw e, w').
Proof.
  unfold Wire.getZone.
  destruct (str_eqb _ []);
    [eexists _, w; reflexivity | apply zone_decoding_throws].
Qed.

Lemma listZones_empty (name : option jsstring) (zones : list Value.t)
      (w w' : W) :
  Wire.listZones world name w = (Return zones, w') -> zones = [].
Proof.
  intros E. unfold Wire.listZones in E.
  apply decoded in E. destruct E as (rawData & E).
  apply rethrow_return in E.
  destruct (Wire.parse world Schema.CloudflareApiResponse rawData)
    as [data|e] eqn:Ep; [|discriminate].
  apply wire_parse_return in Ep.
  destruct (negb (Value.truthy (Value.get (lit "success") data)));
    [discriminate|].
  destruct (envelope_result rawData data Ep)
    as [Er | [Er | [(items & Er & Hitems) | (Hrecord & members & Hobject)]]].
  - rewrite Er in E. now injection E as <-.
  - rewrite Er in E. now injection E as <-.
  - rewrite Er in E.
    cbn [Value.truthy negb Value.isArray Value.elements] in E.
    apply zones_of_returns_nothing in E; [tauto|].
    now apply Forall_filter.
  - remember (Value.get (lit "result") data) as result.
    assert (Ht : Value.truthy result = true) by now rewrite Hobject.
    assert (Ha : Value.isArray result = false) by now rewrite Hobject.
    assert (Hn : Value.not_null result = true) by now rewrite Hobject.
    rewrite Ht, Ha in E. cbn [negb filter] in E. rewrite Hn in E.
    apply zones_of_returns_nothing in E; [destruct E; discriminate|].
    constructor; [exact Hrecord | constructor].
Qed.

End ZoneFacts.

(** X17. The zone operations cannot succeed.  The envelope schema lets
    a [result] through only as a DNS record (or an array of them, or
    [null]), and no DNS record passes the zone schema; so [createZone]
    and [getZone] never return a zone, whatever the provider answers,
    and [listZones] never returns anything but the empty list. *)
Theorem zone_operations_never_return :
  forall (W : Type) (world : Wire.World W) (w : W),
    (forall zoneData, exists e w',
          Wire.createZone world zoneData w = (Throw e, w'))
    /\ (forall zoneId, exists e w',
             Wire.getZone world zoneId w = (Throw e, w'))
    /\ (forall name zones w',
           Wire.listZones world name w = (Return zones, w') -> zones = []).
Proof.
  intros W world w. split; [|split].
  - intros zoneData. apply createZone_throws.
  - intros zoneId. apply getZone_throws.
  - intros name zones w' E. exact (listZones_empty world name zones w w' E).
Qed.

(** The one list of zones that gets through is the empty one. *)
Lemma zone_operations_never_return_witness :
  fst (Wire.listZones (WireDemo.provider (lit "token"))
                      (Some (lit "nothing.example")) [])
  = Return [].
Proof.
  destruct (Wire.listZones (WireDemo.provider (lit "token"))
                           (Some (lit "nothing.example")) [])
    as [[zones|e] w'] eqn:E.
  - destruct (zone_operations_never_return
                WireDemo.world (WireDemo.provider (lit "token")) [])
      as (_ & _ & H).
    simpl. f_equal. exact (H _ _ _ E).
  - vm_compute in E. discriminate.
Defined.

(** The provider of the examples describes [zoneA] as the provider's
    documentation does; [getZone] throws on it. *)
Example getZone_of_an_existing_zone :
  WireDemo.respond
    (request_of (Wire.cloudflareConfig (WireDemo.provider (lit "token")))
                (lit "zones/zoneA") (lit "GET") None false)
  = WireDemo.answer
      (WireDemo.success (WireDemo.zone (lit "zoneA") (lit "example.com")))
  /\ fst (Wire.getZone (WireDemo.provider (lit "token")) None [])
     = Throw (JsError (lit "Failed to parse zone response: [ZodError]")).
Proof. split; vm_compute; reflexivity. Qed.

(* ================================================================= *)
(** ** Validation of a zone, down to [fetch] *)

Section ValidationFacts.
Context {W : Type} (world : Wire.World W).

(** Validation ends where it reads the zone. *)
Lemma validateZoneSetup_fails (zoneId : jsstring) (w : W) :
  exists e w',
    Wire.getZone world (Some zoneId) w = (Throw e, w')
    /\ Wire.validateZoneSetup world zoneId w
       = (Return (validation_failed [] e), w').
Proof.
  destruct (getZone_throws world (Some zoneId) w) as (e & w' & E).
  exists e, w'. split; [exact E|].
  unfold Wire.validateZoneSetup. run_async. now rewrite E.
Qed.

End ValidationFacts.

(** C3, on the code.  [validateZoneSetup] never gets to its three
    checks.  It reads the zone first, with [getZone], and [getZone]
    throws whatever the provider answers, because the schema of the
    response envelope does not admit a zone as [result]; the [catch]
    clause makes one issue of that.  So for every zone id and every
    provider the result is [valid = false] with exactly one issue,
    "Failed to validate zone: ...", and the world is left as [getZone]
    left it: the records are not asked for.  In particular for [zoneB]
    of the example, a zone by the zone schema that is pending, has name
    servers and holds no record: one request, one issue, where the status
    and the empty record list are due as two. *)
Theorem validation_stops_at_the_zone :
  (forall (W : Type) (world : Wire.World W) (zoneId : jsstring) (w : W),
      exists e w',
        Wire.getZone world (Some zoneId) w = (Throw e, w')
        /\ Wire.validateZoneSetup world zoneId w
           = (Return
                {| ValidationResult.valid := false;
                   ValidationResult.issues :=
                     [lit "Failed to validate zone: " ++ error_message e] |},
              w'))
  /\ Zod.parse Schema.CloudflareZone PendingDemo.zone = Some PendingDemo.zone
  /\ Value.get (lit "status") PendingDemo.zone = Value.Str (lit "pending")
  /\ Wire.listDnsRecords PendingDemo.provider []
     = (Return [], [PendingDemo.get_dns_records])
  /\ Wire.validateZoneSetup PendingDemo.provider (lit "zoneB") []
     = (Return
          {| ValidationResult.valid := false;
             ValidationResult.issues :=
               [lit "Failed to validate zone: Failed to parse zone response: [ZodError]"] |},
        [PendingDemo.get_zone]).
Proof.
  split; [|repeat split; vm_compute; reflexivity].
  intros W world zoneId w. apply validateZoneSetup_fails.
Qed.

(* ================================================================= *)
(** ** Zone settings *)

Lemma object_members_absent (input : Value.t)
      (shape : list (jsstring * Zod.schema)) :
  Forall (fun km =>
            Value.has (fst km) input = false
            /\ Value.get (fst km) input = Value.Undefined
            /\ exists inner, snd km = Zod.z_optional inner) shape ->
  object_members input shape = Some [].
Proof.
  induction 1 as [|[key member] rest (Hhas & Hget & inner & Hm) _ IH];
    [reflexivity|].
  simpl in Hhas, Hget, Hm. subst member.
  cbn [object_members]. rewrite Hget, IH, parse_optional, Hhas. reflexivity.
Qed.

(** A validated record has no member outside the record schema. *)
Lemma validated_record_keys (r : Value.t) (key : jsstring) :
  validated_record r ->
  existsb (fun kv => str_eqb kv key)
          [ lit "id"; lit "zone_id"; lit "zone_name"; lit "name"; lit "type";
            lit "content"; lit "proxied"; lit "ttl"; lit "priority";
            lit "created_on"; lit "modified_on"; lit "meta" ] = false ->
  Value.has key r = false /\ Value.get key r = Value.Undefined.
Proof.
  intros (input & H) Hkey. unfold Schema.CloudflareDnsRecord in H.
  rewrite parse_object in H. destruct input; try discriminate.
  match type of H with
  | option_map _ (object_members ?i ?shape) = _ =>
      destruct (object_members i shape) as [ms|] eqn:E; [|discriminate];
        pose proof (object_members_keys i shape ms key E) as K
  end.
  injection H as <-.
  assert (Hhas : Value.has key (Value.Object ms) = false).
  { apply K. cbn [existsb fst] in *. exact Hkey. }
  split; [exact Hhas | now apply get_missing].
Qed.

(** No member of a validated record is a zone setting. *)
Lemma validated_record_has_no_setting (r z : Value.t) :
  validated_record r ->
  Zod.parse Schema.ZoneSettings r = Some z -> z = Value.Object [].
Proof.
  intros Hr Hz. unfold Schema.ZoneSettings in Hz.
  rewrite parse_object in Hz.
  destruct r; try discriminate.
  rewrite object_members_absent in Hz; [now injection Hz as <-|].
  repeat (constructor;
          [ cbn [fst snd];
            match goal with
            | |- Value.has ?key _ = false /\ _ =>
                destruct (validated_record_keys _ key Hr eq_refl)
                  as [Hhas Hget]
            end;
            split; [exact Hhas|]; split; [exact Hget|];
            eexists; reflexivity |]).
  constructor.
Qed.

(** X18. [updateZoneSettings] can only return the empty object: the
    envelope schema lets a [result] through only as a DNS record, the
    settings schema then strips it of every member, and what the
    provider has made of the settings is lost. *)
Theorem updateZoneSettings_returns_the_empty_object :
  forall (W : Type) (world : Wire.World W) (settings : Value.t)
         (zoneId : option jsstring) (w w' : W) (result : Value.t),
    Wire.updateZoneSettings world settings zoneId w = (Return result, w') ->
    result = Value.Object [].
Proof.
  intros W world settings zoneId w w' result.
  unfold Wire.updateZoneSettings.
  destruct (str_eqb _ []); [discriminate|].
  unfold bind at 1. unfold lift at 1.
  destruct (Wire.parse world Schema.ZoneSettings settings) as [validated|e];
    [|discriminate].
  intros E. apply decoded in E. destruct E as (rawData & E).
  apply rethrow_return in E.
  destruct (Wire.parse world Schema.CloudflareApiResponse rawData)
    as [data|e] eqn:Ep; [|discriminate].
  apply wire_parse_return in Ep.
  destruct (negb (Value.truthy (Value.get (lit "success") data)));
    [discriminate|].
  destruct (envelope_result rawData data Ep)
    as [Er | [Er | [(items & Er & Hitems) | (Hrecord & members & Hobject)]]];
    try (rewrite Er in E; discriminate).
  remember (Value.get (lit "result") data) as r.
  assert (Ht : Value.truthy r = true) by now rewrite Hobject.
  assert (Ha : Value.isArray r = false) by now rewrite Hobject.
  rewrite Ht, Ha in E. cbn [negb orb] in E.
  apply wire_parse_return in E.
  exact (validated_record_has_no_setting r result Hrecord E).
Qed.

Lemma updateZoneSettings_returns_the_empty_object_witness :
  fst (Wire.updateZoneSettings
         (WireDemo.provider (lit "token"))
         (Value.Object [ (lit "ssl", Value.Str (lit "strict")) ]) None [])
  = Return (Value.Object []).
Proof.
  destruct (Wire.updateZoneSettings
              (WireDemo.provider (lit "token"))
              (Value.Object [ (lit "ssl", Value.Str (lit "strict")) ]) None [])
    as [[result|e] w'] eqn:E.
  - simpl. f_equal.
    exact (updateZoneSettings_returns_the_empty_object
             WireDemo.world (WireDemo.provider (lit "token"))
             (Value.Object [ (lit "ssl", Value.Str (lit "strict")) ])
             None [] w' result E).
  - vm_compute in E. discriminate.
Defined.

(* ================================================================= *)
(** ** [api]: the request, and what becomes of a failure *)

Section ApiFacts.
Context {W : Type} (world : Wire.World W).

Lemma api_without_token (endpoint method : jsstring) (body : option Value.t)
      (useZoneId : bool) (w : W) :
  Config.apiToken (Wire.cloudflareConfig world) = [] ->
  exists e, Wire.api world endpoint method body useZoneId w = (Throw e, w).
Proof.
  intros Htoken. unfold Wire.api, Wire.api_try, Wire.getHeaders.
  rewrite Htoken.
  destruct (useZoneId && str_eqb _ []); eexists; reflexivity.
Qed.

Lemma undecoded (endpoint method : jsstring) (body : option Value.t)
      (useZoneId : bool) {T} (decode : Response.t -> Async W T) (w : W) :
  Config.apiToken (Wire.cloudflareConfig world) = [] ->
  exists e,
    (response <- Wire.api world endpoint method body useZoneId ;;
     decode response) w = (Throw e, w).
Proof.
  intros Htoken.
  destruct (api_without_token endpoint method body useZoneId w Htoken)
    as (e & E).
  exists e. unfold bind. now rewrite E.
Qed.

Lemma validated_then {T} (s : Zod.schema) (input : Value.t)
      (rest : Value.t -> Async W T) (w : W) :
  (forall v, exists e, rest v w = (Throw e, w)) ->
  exists e, (v <- lift (Wire.parse world s input) ;; rest v) w = (Throw e, w).
Proof.
  intros H. unfold bind at 1. unfold lift at 1.
  destruct (Wire.parse world s input) as [v|e]; [apply H | now exists e].
Qed.

End ApiFacts.

(** X19. Without a token nothing is sent: each of the ten operations
    throws and leaves the world as it was, whatever its arguments. *)
Theorem no_request_without_token :
  forall (W : Type) (world : Wire.World W) (w : W),
    Config.apiToken (Wire.cloudflareConfig world) = [] ->
    (exists e, Wire.listDnsRecords world w = (Throw e, w))
    /\ (forall recordId,
           exists e, Wire.getDnsRecord world recordId w = (Throw e, w))
    /\ (forall record,
           exists e, Wire.createDnsRecord world record w = (Throw e, w))
    /\ (forall recordId updates,
           exists e,
             Wire.updateDnsRecord world recordId updates w = (Throw e, w))
    /\ (forall recordId,
           exists e, Wire.deleteDnsRecord world recordId w = (Throw e, w))
    /\ (forall name type,
           exists e, Wire.findDnsRecords world name type w = (Throw e, w))
    /\ (forall zoneData,
           exists e, Wire.createZone world zoneData w = (Throw e, w))
    /\ (forall zoneId,
           exists e, Wire.getZone world zoneId w = (Throw e, w))
    /\ (forall name,
           exists e, Wire.listZones world name w = (Throw e, w))
    /\ (forall settings zoneId,
           exists e,
             Wire.updateZoneSettings world settings zoneId w = (Throw e, w)).
Proof.
  intros W world w Htoken.
  repeat split; intros.
  - now apply undecoded.
  - now apply undecoded.
  - apply validated_then. intros v. now apply undecoded.
  - apply validated_then. intros v. now apply undecoded.
  - now apply undecoded.
  - now apply undecoded.
  - apply validated_then. intros v. now apply undecoded.
  - unfold Wire.getZone. destruct (str_eqb _ []);
      [eexists; reflexivity | now apply undecoded].
  - now apply undecoded.
  - unfold Wire.updateZoneSettings. destruct (str_eqb _ []);
      [eexists; reflexivity|].
    apply validated_then. intros v. now apply undecoded.
Qed.

Lemma no_request_without_token_witness :
  Wire.listDnsRecords (WireDemo.provider []) []
  = (Throw (JsError (lit "Cloudflare API error: Cloudflare API Token not configured")),
     []).
Proof.
  destruct (no_request_without_token
              WireDemo.world (WireDemo.provider []) [] eq_refl)
    as [(e & E) _].
  rewrite E. vm_compute in E. injection E as <-. reflexivity.
Defined.

(** X20. With a token (and, where the operation is on a zone, a zone
    id) [api] sends exactly one request, the one put together from its
    arguments and carrying the token as bearer.  It returns the response
    when that is [ok].  A response that is not [ok] becomes an error
    whose message has the prefix twice; an abort becomes "request timed
    out"; any other [Error] keeps its message behind the prefix; and
    what is no [Error] is thrown on as it is. *)
Theorem api_sends_one_request :
  forall (W : Type) (world : Wire.World W) (endpoint method : jsstring)
         (body : option Value.t) (useZoneId : bool) (w : W),
    Config.apiToken (Wire.cloudflareConfig world) <> [] ->
    (useZoneId = true -> Config.zoneId (Wire.cloudflareConfig world) <> []) ->
    Wire.api world endpoint method body useZoneId w
    = match Wire.fetch world
              (request_of (Wire.cloudflareConfig world)
                          endpoint method body useZoneId) w with
      | (Wire.Fulfilled response, w') =>
          if Response.ok response then (Return response, w')
          else
            (Throw (JsError
                      (lit "Cloudflare API error: Cloudflare API error: "
                         ++ toString (Num (Response.status response))
                         ++ lit " " ++ Response.statusText response)), w')
      | (Wire.Rejected (Wire.ErrorObject name message), w') =>
          if str_eqb name (lit "AbortError") then
            (Throw (JsError (lit "Cloudflare API request timed out")), w')
          else
            (Throw (JsError (lit "Cloudflare API error: " ++ message)), w')
      | (Wire.Rejected Wire.OtherValue, w') => (Throw JsValue, w')
      end.
Proof.
  intros W world endpoint method body useZoneId w Htoken Hzone.
  unfold Wire.api, Wire.api_try, Wire.getHeaders, request_of.
  apply str_eqb_neq in Htoken. rewrite Htoken.
  assert (Hz : useZoneId
               && str_eqb (Config.zoneId (Wire.cloudflareConfig world)) []
               = false).
  { destruct useZoneId; [|reflexivity].
    simpl. apply str_eqb_neq. now apply Hzone. }
  rewrite Hz.
  destruct (Wire.fetch world _ w) as [[response|[name message|]] w'].
  - destruct (Response.ok response); reflexivity.
  - unfold Wire.api_catch. destruct (str_eqb name (lit "AbortError"));
      reflexivity.
  - reflexivity.
Qed.

(** A record that is not there. *)
Lemma api_sends_one_request_witness :
  Wire.getDnsRecord (WireDemo.provider (lit "token")) (lit "r2") []
  = (Throw (JsError (lit "Cloudflare API error: Cloudflare API error: 404 Not Found")),
     [ {| Request.url :=
            lit "https://api.cloudflare.com/client/v4/zones/zoneA/dns_records/r2";
          Request.method := lit "GET";
          Request.headers :=
            [ (lit "Authorization", lit "Bearer token");
              (lit "Content-Type", lit "application/json") ];
          Request.body := None |} ]).
Proof.
  unfold Wire.getDnsRecord, bind at 1.
  rewrite (api_sends_one_request
             WireDemo.world (WireDemo.provider (lit "token"))
             (lit "dns_records/" ++ lit "r2") (lit "GET") None true []);
    [reflexivity | discriminate | discriminate].
Defined.

(* ================================================================= *)
(** ** What is sent to create a record, and what a deletion answers *)

Lemma has_In (key : jsstring) (members : list (jsstring * Value.t)) :
  Value.has key (Value.Object members) = true -> In key (map fst members).
Proof.
  unfold Value.has. rewrite existsb_exists. intros ((k & v) & Hin & E).
  apply str_eqb_eq in E. simpl in E. subst k.
  apply in_map_iff. now exists (key, v).
Qed.

(** X21. [createDnsRecord] validates before it sends.  A record that
    the request schema rejects is answered with the [ZodError] and no
    request.  For any other record, with token and zone configured, the
    one request that is sent carries the validated record as its body:
    it has a [ttl] that is a number (1 when the record had none), and no
    member other than [type], [name], [content], [ttl], [priority] and
    [proxied]. *)
Theorem createDnsRecord_sends_a_validated_body :
  forall (W : Type) (world : Wire.World W) (record : Value.t) (w : W),
    Config.apiToken (Wire.cloudflareConfig world) <> [] ->
    Config.zoneId (Wire.cloudflareConfig world) <> [] ->
    match Zod.parse Schema.CreateDnsRecordRequest record with
    | None =>
        Wire.createDnsRecord world record w
        = (Throw (JsError (Wire.ZodError_message
                             world Schema.CreateDnsRecordRequest record)), w)
    | Some body =>
        snd (Wire.createDnsRecord world record w)
        = snd (Wire.fetch world
                 (request_of (Wire.cloudflareConfig world)
                             (lit "dns_records") (lit "POST") (Some body)
                             true) w)
        /\ (exists ttl, Value.get (lit "ttl") body = Value.Number (Num ttl))
        /\ (Value.get (lit "ttl") record = Value.Undefined
            -> Value.get (lit "ttl") body = Value.Number (Num 1))
        /\ (forall key,
               Value.has key body = true ->
               In key [ lit "type"; lit "name"; lit "content"; lit "ttl";
                        lit "priority"; lit "proxied" ])
    end.
Proof.
  intros W world record w Htoken Hzone.
  destruct (Zod.parse Schema.CreateDnsRecordRequest record) as [body|] eqn:E.
  2:{ unfold Wire.createDnsRecord, bind, lift, Wire.parse. now rewrite E. }
  split; [|split; [|split]].
  - unfold Wire.createDnsRecord, bind, lift, Wire.parse. rewrite E.
    unfold Wire.api, Wire.api_try, Wire.getHeaders, request_of.
    apply str_eqb_neq in Htoken, Hzone. rewrite Htoken, Hzone.
    cbn [andb].
    destruct (Wire.fetch world _ w) as [[response|error] w']; cbn [snd].
    + destruct (Response.ok response); cbn [negb]; [|reflexivity].
      destruct (Response.json response) as [rawData|e]; [|reflexivity].
      destruct (Wire.record_of world _ rawData); reflexivity.
    + reflexivity.
  - unfold Schema.CreateDnsRecordRequest in E.
    eapply parse_member with (key := lit "ttl") in E;
      [| reflexivity | simpl; tauto].
    cbn [Zod.parse] in E.
    destruct (Value.get (lit "ttl") record) as [| | | [|z] | | |];
      try discriminate;
      injection E as E; eexists; symmetry; exact E.
  - intros Habsent. unfold Schema.CreateDnsRecordRequest in E.
    eapply parse_member with (key := lit "ttl") in E;
      [| reflexivity | simpl; tauto].
    rewrite Habsent in E. cbn [Zod.parse] in E.
    injection E as E. symmetry. exact E.
  - intros key Hhas. unfold Schema.CreateDnsRecordRequest in E.
    rewrite parse_object in E. destruct record; try discriminate.
    match type of E with
    | option_map _ (object_members ?i ?shape) = _ =>
        destruct (object_members i shape) as [ms|] eqn:Em; [|discriminate];
          pose proof (object_members_keys i shape ms key Em) as K
    end.
    injection E as <-.
    match type of K with
    | ?b = false -> _ => destruct b eqn:Eb; [|rewrite K in Hhas; congruence]
    end.
    apply existsb_exists in Eb. destruct Eb as ((k & m) & Hin & Ek).
    apply str_eqb_eq in Ek. simpl in Ek. subst k.
    apply (in_map fst) in Hin. exact Hin.
Qed.

(** A record without [ttl] and with a member that the schema does not
    know: the body of the request has the first and not the second. *)
Lemma createDnsRecord_sends_a_validated_body_witness :
  snd (Wire.createDnsRecord
         (WireDemo.provider (lit "token"))
         (Value.Object [ (lit "type", Value.Str (lit "A"));
                         (lit "name", Value.Str (lit "www"));
                         (lit "content", Value.Str (lit "192.0.2.1"));
                         (lit "comment", Value.Str (lit "the web server")) ])
         [])
  = [ request_of (Wire.cloudflareConfig (WireDemo.provider (lit "token")))
                 (lit "dns_records") (lit "POST")
                 (Some (Value.Object
                          [ (lit "type", Value.Str (lit "A"));
                            (lit "name", Value.Str (lit "www"));
                            (lit "content", Value.Str (lit "192.0.2.1"));
                            (lit "ttl", Value.Number (Num 1)) ]))
                 true ].
Proof.
  pose proof (createDnsRecord_sends_a_validated_body
                WireDemo.world (WireDemo.provider (lit "token"))
                (Value.Object
                   [ (lit "type", Value.Str (lit "A"));
                     (lit "name", Value.Str (lit "www"));
                     (lit "content", Value.Str (lit "192.0.2.1"));
                     (lit "comment", Value.Str (lit "the web server")) ])
                [] ltac:(discriminate) ltac:(discriminate)) as H.
  cbv beta iota in H.
  change (Zod.parse Schema.CreateDnsRecordRequest _)
    with (Some (Value.Object
                  [ (lit "type", Value.Str (lit "A"));
                    (lit "name", Value.Str (lit "www"));
                    (lit "content", Value.Str (lit "192.0.2.1"));
                    (lit "ttl", Value.Number (Num 1)) ])) in H.
  destruct H as [H _]. rewrite H. reflexivity.
Defined.

Lemma envelope_rejects (rawData : Value.t)
      (members : list (jsstring * Value.t)) :
  Value.get (lit "result") rawData = Value.Object members ->
  (forall name,
      Value.get (lit "name") (Value.Object members) <> Value.Str name) ->
  Zod.parse Schema.CloudflareApiResponse rawData = None.
Proof.
  intros Hresult Hname.
  destruct (Zod.parse Schema.CloudflareApiResponse rawData) as [data|] eqn:E;
    [|reflexivity].
  exfalso. unfold Schema.CloudflareApiResponse in E.
  eapply parse_member with (key := lit "result") in E;
    [| reflexivity | simpl; tauto].
  rewrite Hresult, parse_optional, parse_union in E.
  cbn [first_accepted] in E. rewrite parse_array in E.
  destruct (Zod.parse Schema.CloudflareDnsRecord (Value.Object members))
    as [r|] eqn:Er.
  - unfold Schema.CloudflareDnsRecord in Er.
    eapply parse_member with (key := lit "name") in Er;
      [| reflexivity | simpl; tauto].
    cbn [Zod.parse] in Er.
    destruct (Value.get (lit "name") (Value.Object members)) eqn:En;
      try discriminate.
    now apply (Hname s).
  - cbn [Zod.parse] in E. discriminate.
Qed.

(** X22. [deleteDnsRecord] reports a failure when the provider answers
    the deletion with anything but a whole DNS record: a response that
    is [ok] and whose [result] is an object without a [name] that is a
    string -- such as [{id}], the id of what was deleted -- does not
    pass the envelope schema, and the operation throws the [ZodError]
    after the request has been sent. *)
Theorem deleteDnsRecord_rejects_an_id_result :
  forall (W : Type) (world : Wire.World W) (recordId : jsstring) (w w' : W)
         (response : Response.t) (rawData : Value.t)
         (members : list (jsstring * Value.t)),
    Config.apiToken (Wire.cloudflareConfig world) <> [] ->
    Config.zoneId (Wire.cloudflareConfig world) <> [] ->
    Wire.fetch world
      (request_of (Wire.cloudflareConfig world)
                  (lit "dns_records/" ++ recordId) (lit "DELETE") None true)
      w
    = (Wire.Fulfilled response, w') ->
    Response.ok response = true ->
    Response.json response = Return rawData ->
    Value.get (lit "result") rawData = Value.Object members ->
    (forall name,
        Value.get (lit "name") (Value.Object members) <> Value.Str name) ->
    Wire.deleteDnsRecord world recordId w
    = (Throw (JsError (Wire.ZodError_message
                         world Schema.CloudflareApiResponse rawData)), w').
Proof.
  intros W world recordId w w' response rawData members
         Htoken Hzone Hfetch Hok Hjson Hresult Hname.
  unfold Wire.deleteDnsRecord.
  unfold bind, lift, Wire.api, Wire.api_try, Wire.getHeaders.
  apply str_eqb_neq in Htoken, Hzone. rewrite Htoken, Hzone. cbn [andb].
  unfold request_of in Hfetch. rewrite Hfetch, Hok. cbn [negb].
  rewrite Hjson. unfold Wire.parse.
  now rewrite (envelope_rejects rawData members Hresult Hname).
Qed.

Lemma deleteDnsRecord_rejects_an_id_result_witness :
  Wire.deleteDnsRecord (WireDemo.provider (lit "token")) (lit "r1") []
  = (Throw (JsError (lit "[ZodError]")),
     [ request_of (Wire.cloudflareConfig (WireDemo.provider (lit "token")))
                  (lit "dns_records/r1") (lit "DELETE") None true ]).
Proof.
  apply (deleteDnsRecord_rejects_an_id_result
           WireDemo.world (WireDemo.provider (lit "token")) (lit "r1") []
           [ request_of
               (Wire.cloudflareConfig (WireDemo.provider (lit "token")))
               (lit "dns_records/r1") (lit "DELETE") None true ]
           (WireDemo.answer
              (WireDemo.success
                 (Value.Object [ (lit "id", Value.Str (lit "r1")) ])))
           (WireDemo.success
              (Value.Object [ (lit "id", Value.Str (lit "r1")) ]))
           [ (lit "id", Value.Str (lit "r1")) ]);
    try reflexivity; discriminate.
Defined.

(* ================================================================= *)
(** ** Names in query strings *)

Lemma form_urlencode_unit (c : ascii) :
  forallb query_safe (Url.form_urlencode [c]) = true.
Proof.
  destruct c as [[] [] [] [] [] [] [] []]; vm_compute; reflexivity.
Qed.

Lemma encodeURIComponent_unit (c : ascii) :
  forallb query_safe (Url.encodeURIComponent [c]) = true.
Proof.
  destruct c as [[] [] [] [] [] [] [] []]; vm_compute; reflexivity.
Qed.

Lemma flat_map_safe (f : ascii -> jsstring) (s : jsstring) :
  (forall c, forallb query_safe (flat_map f [c]) = true) ->
  forallb query_safe (flat_map f s) = true.
Proof.
  intros H. induction s as [|c s IH]; [reflexivity|].
  cbn [flat_map]. rewrite forallb_app, IH, andb_true_r.
  specialize (H c). cbn [flat_map] in H. now rewrite app_nil_r in H.
Qed.

(** X23. A name or a type that is searched for cannot change the shape
    of the query.  [findDnsRecords] asks for [dns_records] with no
    query when it is given neither name nor type (or empty ones), and
    otherwise with [name=] and [type=] followed by the escaped values;
    [listZones] asks for [zones], or for [zones?name=] and the escaped
    name.  An escaped value holds letters, digits and [*-._!~'()+%]
    only: no [&], [=], [?], [#] or [/]. *)
Theorem queries_are_escaped :
  (forall s : jsstring,
      forallb query_safe (Url.form_urlencode s) = true
      /\ forallb query_safe (Url.encodeURIComponent s) = true)
  /\ (forall name type : option jsstring,
         Wire.find_endpoint name type
         = lit "dns_records"
             ++ match str_or name [], str_or type [] with
                | [], [] => []
                | n, [] => lit "?name=" ++ Url.form_urlencode n
                | [], t => lit "?type=" ++ Url.form_urlencode t
                | n, t =>
                    lit "?name=" ++ Url.form_urlencode n
                      ++ lit "&type=" ++ Url.form_urlencode t
                end)
  /\ (forall name : option jsstring,
         Wire.zones_endpoint name
         = lit "zones"
             ++ match str_or name [] with
                | [] => []
                | n => lit "?name=" ++ Url.encodeURIComponent n
                end).
Proof.
  split; [|split].
  - intros s. split.
    + apply (flat_map_safe _ s). intros c. apply (form_urlencode_unit c).
    + apply (flat_map_safe _ s). intros c. apply (encodeURIComponent_unit c).
  - intros name type. unfold Wire.find_endpoint, Wire.append_if.
    destruct name as [[|n ns]|]; destruct type as [[|t ts]|];
      cbn [str_or app Url.URLSearchParams_toString map join fst snd];
      try reflexivity;
      change (Url.form_urlencode (lit "name")) with (lit "name");
      change (Url.form_urlencode (lit "type")) with (lit "type");
      cbn [lit list_ascii_of_string app str_eqb negb];
      reflexivity.
  - intros name. unfold Wire.zones_endpoint.
    destruct name as [[|n ns]|]; reflexivity.
Qed.

Example a_name_with_an_ampersand :
  Wire.find_endpoint (Some (lit "a&type=TXT")) (Some (lit "A"))
  = lit "dns_records?name=a%26type%3DTXT&type=A"
  /\ resolve_url (lit "a&type=TXT") (lit "A")
     = lit "https://dns.google/resolve?name=a&type=TXT&type=A".
Proof. split; vm_compute; reflexivity. Qed.

(* ================================================================= *)
(** ** The zone tools *)

(** X24. The zone tools never show a zone.  Whatever the provider
    answers and whatever the arguments of the call are (also when there
    are none), the handler of [create_zone] answers that the
    configuration is incomplete or that creating the zone failed; the
    handler of [get_zone] answers one of these two or that no zone was
    found for the domain; and the handler of [list_zones] answers that
    the configuration is incomplete, that listing failed, or that no
    zones match. *)
Theorem zone_tools_never_show_a_zone :
  forall (W : Type) (world : Wire.World W) (config : option ServerConfig.t)
         (toLocaleString : jsstring -> jsstring) (w : W),
    (forall args,
        exists text w',
          ZoneTools.handleCreateZone world config toLocaleString args w
          = (Return (text_result text), w')
          /\ (text = lit "❌ Configuration incomplete. Please configure Cloudflare API Token first."
              \/ exists e,
                  text = lit "❌ Error creating zone: " ++ error_message e))
    /\ (forall args,
           exists text w',
             ZoneTools.handleGetZone world config toLocaleString args w
             = (Return (text_result text), w')
             /\ (text = lit "❌ Configuration incomplete. Please configure Cloudflare API Token first."
                 \/ (exists given d,
                        args = Some given
                        /\ GetZoneArgs.domain given = Some d
                        /\ text = lit "❌ No zone found for domain: " ++ d)
                 \/ exists e,
                     text = lit "❌ Error getting zone: " ++ error_message e))
    /\ (forall args,
           exists text w',
             ZoneTools.handleListZones world config args w
             = (Return (text_result text), w')
             /\ (text = lit "❌ Configuration incomplete. Please configure Cloudflare API Token first."
                 \/ text = lit "No zones found matching the criteria."
                 \/ exists e,
                     text = lit "❌ Error listing zones: "
                              ++ error_message e)).
Proof.
  intros W world config toLocaleString w. split; [|split].
  - intros args.
    unfold ZoneTools.handleCreateZone, ZoneTools.handler. run_async.
    destruct (ZoneTools.configureApiIfNeeded world config) as [api|].
    2:{ eexists _, w. split; [reflexivity | now left]. }
    destruct args as [[name type jump_start]|].
    2:{ eexists _, w. split; [reflexivity|]. right. eexists. reflexivity. }
    cbn [CreateZoneArgs.name CreateZoneArgs.type CreateZoneArgs.jump_start].
    destruct (createZone_throws api
                (Value.Object
                   [ (lit "name", Value.Str name);
                     (lit "type", Value.Str (str_or type (lit "full")));
                     (lit "jump_start",
                      Value.Bool match jump_start with
                                 | Some true => true
                                 | _ => false
                                 end) ]) w)
      as (e & w' & E).
    rewrite E. eexists _, w'. split; [reflexivity|]. right. now exists e.
  - intros args.
    unfold ZoneTools.handleGetZone, ZoneTools.handler. run_async.
    destruct (ZoneTools.configureApiIfNeeded world config) as [api|].
    2:{ eexists _, w. split; [reflexivity | now left]. }
    destruct args as [[zoneId domain]|].
    2:{ eexists _, w. split; [reflexivity|]. right. right.
        eexists. reflexivity. }
    cbn [GetZoneArgs.zoneId GetZoneArgs.domain].
    assert (Hget : forall id,
               exists text w',
                 match
                   match Wire.getZone api id w with
                   | (Return v, w') =>
                       (Return
                          (text_result
                             (ZoneTools.zone_information toLocaleString v)),
                        w')
                   | (Throw e, w') => (Throw e, w')
                   end
                 with
                 | (Return v, w') => (Return v, w')
                 | (Throw e, w') =>
                     (Return
                        (text_result
                           (lit "❌ Error getting zone: "
                              ++ error_message e)), w')
                 end = (Return (text_result text), w')
                 /\ (text = lit "❌ Configuration incomplete. Please configure Cloudflare API Token first."
                     \/ (exists given d,
                            Some {| GetZoneArgs.zoneId := zoneId;
                                    GetZoneArgs.domain := domain |}
                            = Some given
                            /\ GetZoneArgs.domain given = Some d
                            /\ text = lit "❌ No zone found for domain: " ++ d)
                     \/ exists e,
                         text = lit "❌ Error getting zone: "
                                  ++ error_message e)).
    { intros id. destruct (getZone_throws api id w) as (e & w' & E).
      rewrite E. eexists _, w'. split; [reflexivity|]. right. right.
      now exists e. }
    destruct zoneId as [[|c id]|]; destruct domain as [[|c' d]|];
      try apply Hget.
    + match goal with
      | |- context [Wire.listZones api ?x w] =>
          destruct (Wire.listZones api x w) as [[zones|e] w'] eqn:E
      end.
      * pose proof (listZones_empty _ _ _ _ _ E) as ->.
        eexists _, w'. split; [reflexivity|]. right. left.
        eexists _, (c' :: d). split; [reflexivity|]. split; reflexivity.
      * eexists _, w'. split; [reflexivity|]. right. right. now exists e.
    + match goal with
      | |- context [Wire.listZones api ?x w] =>
          destruct (Wire.listZones api x w) as [[zones|e] w'] eqn:E
      end.
      * pose proof (listZones_empty _ _ _ _ _ E) as ->.
        eexists _, w'. split; [reflexivity|]. right. left.
        eexists _, (c' :: d). split; [reflexivity|]. split; reflexivity.
      * eexists _, w'. split; [reflexivity|]. right. right. now exists e.
  - intros args.
    unfold ZoneTools.handleListZones, ZoneTools.handler. run_async.
    destruct (ZoneTools.configureApiIfNeeded world config) as [api|].
    2:{ eexists _, w. split; [reflexivity | now left]. }
    destruct args as [[name]|].
    2:{ eexists _, w. split; [reflexivity|]. right. right.
        eexists. reflexivity. }
    cbn [ListZonesArgs.name].
    destruct (Wire.listZones api name w) as [[zones|e] w'] eqn:E.
    + apply listZones_empty in E. subst zones.
      eexists _, w'. split; [reflexivity|]. right. now left.
    + eexists _, w'. split; [reflexivity|]. right. right. now exists e.
Qed.

(** The zone of the examples is there, and [get_zone] cannot show it. *)
Example get_zone_of_an_existing_zone :
  fst (ZoneTools.handleGetZone
         (WireDemo.provider [])
         (Some {| ServerConfig.cloudflareApiToken := lit "token";
                  ServerConfig.cloudflareZoneId := lit "zoneA";
                  ServerConfig.cloudflareEmail := None |})
         (fun date => date)
         (Some {| GetZoneArgs.zoneId := Some (lit "zoneA");
                  GetZoneArgs.domain := None |}) [])
  = Return
      (text_result
         (lit "❌ Error getting zone: Failed to parse zone response: [ZodError]")).
Proof. vm_compute. reflexivity. Qed.

(* ================================================================= *)
(** ** Name servers and the final dot *)

Lemma endsWith_dot (s : jsstring) :
  endsWith s (lit ".")
  = match rev s with
    | c :: _ => Ascii.eqb "."%char c
    | [] => false
    end.
Proof.
  unfold endsWith. change (rev (lit ".")) with ["."%char].
  destruct (rev s) as [|c t]; [reflexivity|].
  cbn [startsWith]. apply andb_true_r.
Qed.

Lemma lower_char_dot (c : ascii) :
  Ascii.eqb "."%char (lower_char c) = Ascii.eqb "."%char c.
Proof.
  destruct c as [[] [] [] [] [] [] [] []]; vm_compute; reflexivity.
Qed.

(** Lower case keeps the final dot, and makes none. *)
Lemma toLowerCase_dot (s : jsstring) :
  endsWith (toLowerCase s) (lit ".") = endsWith s (lit ".").
Proof.
  rewrite !endsWith_dot. unfold toLowerCase. rewrite <- map_rev.
  destruct (rev s) as [|c t]; [reflexivity|].
  cbn [map]. apply lower_char_dot.
Qed.

(** X25. [checkNameserverPropagation] compares the names as they are
    written, letter case apart: when the resolver writes the name
    servers with their final dot, an expected name server that is given
    without it is never found, and the result is [false] whatever the
    answers are. *)
Theorem propagation_needs_the_final_dot :
  forall (W : Type) (env : Env W) (domain : jsstring)
         (expectedNameservers : list jsstring) (ns : jsstring) (w : W),
    dotted_answers (fst (fetch_json env (resolve_url domain (lit "NS")) w)) ->
    In ns expectedNameservers ->
    endsWith ns (lit ".") = false ->
    exists w',
      checkNameserverPropagation env domain expectedNameservers w
      = (Return false, w').
Proof.
  intros W env domain expected ns w Hdotted Hin Hns.
  unfold checkNameserverPropagation. run_async.
  destruct (fetch_json env (resolve_url domain (lit "NS")) w)
    as [[[status [answers|]]|e] w1]; simpl in *;
    try (now exists w1).
  destruct (status =? 0); simpl; [|now exists w1].
  exists w1. f_equal. f_equal.
  destruct (forallb _ expected) eqn:E; [|reflexivity].
  rewrite forallb_forall in E. specialize (E ns Hin).
  apply current_nameservers_In in E. destruct E as (a & Ha & Hty & Hlow).
  assert (Hdot : endsWith (DnsAnswer.data a) (lit ".") = true)
    by exact (Hdotted {| DnsJson.Status := status;
                         DnsJson.Answer := Some answers |}
                      answers a eq_refl eq_refl Ha Hty).
  rewrite <- toLowerCase_dot, Hlow, toLowerCase_dot in Hdot.
  change (endsWith ns (lit ".") = false) in Hns. congruence.
Qed.

(** The name servers of [example.com], asked for without the dot. *)
Lemma propagation_needs_the_final_dot_witness :
  fst (checkNameserverPropagation
         Demo.env (lit "example.com")
         [lit "ns1.registrar.example"; lit "ns2.registrar.example"] [])
  = Return false
  /\ fst (checkNameserverPropagation
            Demo.env (lit "example.com")
            [lit "ns1.registrar.example."; lit "ns2.registrar.example."] [])
     = Return true.
Proof.
  split; [|reflexivity].
  destruct (propagation_needs_the_final_dot
              Demo.world Demo.env (lit "example.com")
              [lit "ns1.registrar.example"; lit "ns2.registrar.example"]
              (lit "ns1.registrar.example") [])
    as (w' & E).
  - intros data answers a [= <-] [= <-] Ha Hty.
    simpl in Ha. destruct Ha as [<- | [<- | []]]; reflexivity.
  - now left.
  - reflexivity.
  - now rewrite E.
Defined.

(* ================================================================= *)
(** ** A priority that is no number *)

Lemma map_outcome_throws {T U} (f : T -> outcome U) (xs : list T) (x : T) :
  In x xs -> (exists e, f x = Throw e) ->
  exists e, map_outcome f xs = Throw e.
Proof.
  intros Hin Hx. induction xs as [|y ys IH]; [contradiction|].
  simpl. destruct (f y) as [v|e] eqn:E; [|now exists e].
  destruct Hin as [-> | Hin].
  - destruct Hx as (e & Hx). congruence.
  - destruct (IH Hin) as (e & ->). now exists e.
Qed.

(** The schema does not take [NaN] for a priority. *)
Lemma schema_rejects_NaN_priority (d : DnsRecordImport.t) :
  DnsRecordImport.priority d = Some NaN ->
  Zod.parse Schema.DnsRecordImport (descriptor_value d) = None.
Proof.
  intros Hp.
  destruct (Zod.parse Schema.DnsRecordImport (descriptor_value d))
    as [out|] eqn:E; [|reflexivity].
  exfalso. unfold Schema.DnsRecordImport in E.
  eapply parse_member with (key := lit "priority") in E;
    [| reflexivity | simpl; tauto].
  assert (Hget : Value.get (lit "priority") (descriptor_value d)
                 = Value.Number NaN).
  { unfold descriptor_value. rewrite Hp.
    destruct (DnsRecordImport.ttl d); reflexivity. }
  rewrite Hget in E. discriminate.
Qed.

(** X26. One unreadable priority fails a replication as a whole.
    Detection gives a record whose data has a space the integer parse of
    what precedes the space as its priority, which is [NaN] when no
    integer is there (a TXT record with a policy such as
    [v=spf1 -all]); the schema takes no [NaN] for a number, so
    [importDnsRecords] throws before it creates anything, and
    [replicateDnsRecords] returns no detected record, no replicated
    record and the one error, whatever else was detected. *)
Theorem replication_fails_on_an_unreadable_priority :
  forall (W : Type) (env : Env W) (sourceDomain : jsstring)
         (targetZoneId : option jsstring)
         (detected : list DnsRecordImport.t) (d : DnsRecordImport.t)
         (w w1 : W),
    validates_by_schema env ->
    detectDnsRecords env sourceDomain w = (Return detected, w1) ->
    In d detected ->
    DnsRecordImport.priority d = Some NaN ->
    exists e,
      replicateDnsRecords env sourceDomain targetZoneId w
      = (Return (replication_failed e), w1).
Proof.
  intros W env sourceDomain targetZoneId detected d w w1
         Hschema Hdetect Hin Hp.
  unfold replicateDnsRecords. rewrite replicate_paths, Hdetect.
  destruct detected as [|d0 ds]; [contradiction|].
  unfold importDnsRecords.
  destruct (str_eqb _ []); [eexists; reflexivity|].
  destruct (map_outcome_throws (DnsRecordImport_parse env) (d0 :: ds) d Hin)
    as (e & E).
  { specialize (Hschema d).
    now rewrite (schema_rejects_NaN_priority d Hp) in Hschema. }
  exists e. run_async. now rewrite E.
Qed.

(** The policy record of [example.com] is detected with the address and
    the name servers, and nothing is replicated. *)
Lemma replication_fails_on_an_unreadable_priority_witness :
  detectDnsRecords SpfDemo.env (lit "example.com") []
  = (Return
       [ base_record DnsRecordType.A (lit "example.com")
                     (Demo.answer 1 (lit "192.0.2.1") (Some 300));
         base_record DnsRecordType.TXT (lit "example.com")
                     (Demo.answer 16 (lit "v=spf1 -all") (Some 300));
         base_record DnsRecordType.NS (lit "example.com")
                     (Demo.answer 2 (lit "ns1.registrar.example.")
                                  (Some 3600));
         base_record DnsRecordType.NS (lit "example.com")
                     (Demo.answer 2 (lit "NS2.registrar.example.") None);
         subdomain_record (lit "www.example.com")
                          (Demo.answer 1 (lit "192.0.2.1") (Some 60)) ],
     Demo.lookups (lit "example.com"))
  /\ exists e,
      replicateDnsRecords SpfDemo.env (lit "example.com") None []
      = (Return (replication_failed e), Demo.lookups (lit "example.com")).
Proof.
  split; [vm_compute; reflexivity|].
  apply (replication_fails_on_an_unreadable_priority
              Demo.world SpfDemo.env (lit "example.com") None
              [ base_record DnsRecordType.A (lit "example.com")
                            (Demo.answer 1 (lit "192.0.2.1") (Some 300));
                base_record DnsRecordType.TXT (lit "example.com")
                            (Demo.answer 16 (lit "v=spf1 -all") (Some 300));
                base_record DnsRecordType.NS (lit "example.com")
                            (Demo.answer 2 (lit "ns1.registrar.example.")
                                         (Some 3600));
                base_record DnsRecordType.NS (lit "example.com")
                            (Demo.answer 2 (lit "NS2.registrar.example.")
                                         None);
                subdomain_record (lit "www.example.com")
                                 (Demo.answer 1 (lit "192.0.2.1") (Some 60)) ]
              (base_record DnsRecordType.TXT (lit "example.com")
                           (Demo.answer 16 (lit "v=spf1 -all") (Some 300)))
              [] (Demo.lookups (lit "example.com"))).
  - intros x. unfold SpfDemo.env, SpfDemo.parse. cbn [DnsRecordImport_parse].
    destruct (Zod.parse Schema.DnsRecordImport (descriptor_value x));
      [reflexivity | eexists; reflexivity].
  - vm_compute. reflexivity.
  - simpl. tauto.
  - reflexivity.
Defined.

(** What the handler of [replicate_dns_records] then answers. *)
Example replication_of_a_domain_with_a_policy :
  fst (handleReplicateDnsRecords
         SpfDemo.env
         (Some {| ServerConfig.cloudflareApiToken := lit "token";
                  ServerConfig.cloudflareZoneId := lit "zoneA";
                  ServerConfig.cloudflareEmail := None |})
         (Some {| ReplicateArgs.sourceDomain := lit "example.com";
                  ReplicateArgs.targetZoneId := None |}) [])
  = Return
      (text_result
         (lit "✅ DNS Record Replication Complete!" ++ [LF; LF]
            ++ lit "🔍 Detected 0 record(s) from example.com" ++ [LF]
            ++ lit "📥 Successfully replicated 0 record(s)" ++ [LF; LF]
            ++ lit "⚠️ Errors encountered:" ++ [LF]
            ++ lit "  • Failed to replicate DNS records: [ZodError]")).
Proof. vm_compute. reflexivity. Qed.
